(** * colorbear: colour policy, colorize and the spinner engine

    A shallow embedding of [detect.go], [colors.go], [semantic.go] and
    [spinner.go] of the colorbear package, and the properties of the
    colour-capability decision, of [colorize] and of the spinner's
    start / render / stop protocol.

    Conventions.
    - A Go [string] is a sequence of bytes: [String.string]; [len] is
      [String.length] (bytes, not runes).
    - A Go [int] is a 64-bit two's complement integer: a [Z] kept in
      range by [wrap]; [%] is the truncated remainder [Z.rem].
    - A run-time panic is a value of [Panic] in the [Res] type.
    - Reads of the process environment are logged as [Probe]s, writes to
      the terminal as [Event]s. *)

From Stdlib Require Import ZArith List String Ascii Bool Lia Relations.
Import ListNotations.
Local Open Scope string_scope.
Local Open Scope Z_scope.

Set Implicit Arguments.

(* ================================================================== *)
(** ** Go primitives used by the package *)

Module Go.

(** [len(s)] for a string. *)
Definition len (s : string) : Z := Z.of_nat (String.length s).

(** [len(xs)] for a slice. *)
Definition lenSlice {A} (xs : list A) : Z := Z.of_nat (List.length xs).

(** The width of [int] on the 64-bit targets, [math.MinInt] and
    [math.MaxInt]. *)
Definition intBits : Z := 64.
Definition MinInt : Z := - 2 ^ (intBits - 1).
Definition MaxInt : Z := 2 ^ (intBits - 1) - 1.

(** Two's complement wrap-around of an [int] result. *)
Definition wrap (z : Z) : Z :=
  (z + 2 ^ (intBits - 1)) mod 2 ^ intBits - 2 ^ (intBits - 1).

(** [strings.Repeat(" ", n)] for a count that fits a [nat]. *)
Fixpoint repeatStr (unit : string) (n : nat) : string :=
  match n with
  | O => ""
  | S k => unit ++ repeatStr unit k
  end.

(** [strings.Contains(s, substr)]: some suffix of [s] starts with
    [substr]. *)
Fixpoint contains (s substr : string) : bool :=
  String.prefix substr s
  || match s with
     | EmptyString => false
     | String _ rest => contains rest substr
     end.

(** [os.ModeCharDevice], bit 21 of a [FileMode]. *)
Definition ModeCharDevice : Z := Z.shiftl 1 21.

(** Run-time panics the package can raise. *)
Inductive Panic : Type :=
| DivideByZero      (* integer divide by zero *)
| IndexOutOfRange      (* index out of range *)
| NonPositiveInterval. (* non-positive interval for NewTicker *)

(** Result of a step that may panic. *)
Inductive Res (A : Type) : Type :=
| Ok (a : A)
| Panicked (p : Panic).
Arguments Panicked {A} p.

Definition isOk {A} (r : Res A) : bool :=
  match r with Ok _ => true | Panicked _ => false end.

(** [xs[i]] on a slice: panics outside [0 <= i < len(xs)]. *)
Definition index {A} (xs : list A) (i : Z) : Res A :=
  if (i <? 0) || (lenSlice xs <=? i) then Panicked IndexOutOfRange
  else match nth_error xs (Z.to_nat i) with
       | Some x => Ok x
       | None => Panicked IndexOutOfRange
       end.

(** [a % b] on [int]: panics on a zero divisor, otherwise the
    remainder of the division truncated towards zero. *)
Definition modulo (a b : Z) : Res Z :=
  if b =? 0 then Panicked DivideByZero else Ok (Z.rem a b).

Definition ESC : string := String (ascii_of_nat 27) "".
Definition CR : string := String (ascii_of_nat 13) "".
Definition LF : string := String (ascii_of_nat 10) "".

End Go.
Import Go.

(* ================================================================== *)
(** ** detect.go: the colour policy *)

(** What the process can observe of its surroundings, and the package
    variables [forceColors] and [noColor]. *)
Record Env : Type := mkEnv {
  forceColors : option bool;      (* nil, or a pointer to the override *)
  noColor     : bool;             (* NO_COLOR was non-empty at start-up *)
  stdoutStat  : option Z;         (* os.Stdout.Stat(): the mode, or an error *)
  getenv      : string -> string; (* os.Getenv *)
  GOOS        : string            (* runtime.GOOS *)
}.

(** [ForceColors(enabled)]. *)
Definition ForceColors (enabled : bool) (e : Env) : Env :=
  {| forceColors := Some enabled;
     noColor := noColor e;
     stdoutStat := stdoutStat e;
     getenv := getenv e;
     GOOS := GOOS e |}.

(** The observations a policy query can make, in the order it makes
    them. *)
Inductive Probe : Type :=
| ReadForceColors
| ReadNoColor
| StatStdout
| Getenv (name : string)
| ReadGOOS.

(** Computations that read the environment and log each read. *)
Module Probing.

Definition M (A : Type) : Type := Env -> A * list Probe.

Definition ret {A} (a : A) : M A := fun _ => (a, []).

Definition bind {A B} (m : M A) (k : A -> M B) : M B :=
  fun e =>
    let '(a, l1) := m e in
    let '(b, l2) := k a e in
    (b, (l1 ++ l2)%list).

Definition ask {A} (p : Probe) (f : Env -> A) : M A :=
  fun e => (f e, [p]).

Definition value {A} (m : M A) (e : Env) : A := fst (m e).
Definition probes {A} (m : M A) (e : Env) : list Probe := snd (m e).

End Probing.
Import Probing.

Notation "x <- m ;; k" := (bind m (fun x => k))
  (at level 61, m at next level, right associativity).

(** [isTerminal()]. *)
Definition isTerminalM : M bool :=
  st <- ask StatStdout stdoutStat ;;
  match st with
  | None => ret false
  | Some mode => ret (negb (Z.land mode ModeCharDevice =? 0))
  end.

(** [isCI()]. *)
Definition isCIM : M bool :=
  ci <- ask (Getenv "CI") (fun e => getenv e "CI") ;;
  ret ((ci =? "true")%string || (ci =? "1")%string).

(** [isWindowsColorSupported()]; [||] evaluates its right operand only
    when the left one is false. *)
Definition isWindowsColorSupportedM : M bool :=
  term <- ask (Getenv "TERM") (fun e => getenv e "TERM") ;;
  if contains term "xterm" then ret true
  else if contains term "256color" then ret true
  else
    wt <- ask (Getenv "WT_SESSION") (fun e => getenv e "WT_SESSION") ;;
    ret (negb (wt =? "")%string).

(** [isColorEnabled()]. *)
Definition isColorEnabledM : M bool :=
  fc <- ask ReadForceColors forceColors ;;
  match fc with
  | Some b => ret b
  | None =>
      nc <- ask ReadNoColor noColor ;;
      if nc then ret false
      else
        tty <- isTerminalM ;;
        if negb tty then ret false
        else
          ci <- isCIM ;;
          if ci then ret false
          else
            os <- ask ReadGOOS GOOS ;;
            if (os =? "windows")%string then isWindowsColorSupportedM
            else ret true
  end.

Definition isTerminal (e : Env) : bool := value isTerminalM e.
Definition isCI (e : Env) : bool := value isCIM e.
Definition isWindowsColorSupported (e : Env) : bool :=
  value isWindowsColorSupportedM e.
Definition isColorEnabled (e : Env) : bool := value isColorEnabledM e.

(* ================================================================== *)
(** ** colors.go *)

Definition Reset       : string := ESC ++ "[0m".
Definition RedCode     : string := ESC ++ "[31m".
Definition GreenCode   : string := ESC ++ "[32m".
Definition CyanCode    : string := ESC ++ "[36m".
Definition Bold        : string := ESC ++ "[1m".

(** [colorize(text, codes...)]: the loop [result += code] is a left
    fold over [codes]. *)
Definition colorize (e : Env) (text : string) (codes : list string) : string :=
  if negb (isColorEnabled e) then text
  else
    let result := fold_left (fun result code => result ++ code) codes "" in
    result ++ (text ++ Reset).

(* ================================================================== *)
(** ** semantic.go: the two exit formatters *)

Definition CheckMark : string := "✓".
Definition CrossMark : string := "✗".

(** [Success(text)]. *)
Definition Success (e : Env) (text : string) : string :=
  if (text =? "")%string then colorize e CheckMark [GreenCode]
  else colorize e (CheckMark ++ " " ++ text) [GreenCode].

(** [Error(text)]. *)
Definition Error (e : Env) (text : string) : string :=
  if (text =? "")%string then colorize e CrossMark [RedCode; Bold]
  else colorize e (CrossMark ++ " " ++ text) [RedCode; Bold].

(** What reaches the terminal: a [fmt.Fprint] on the spinner's writer,
    or a call of one of the formatters, recorded with its argument and
    the line it prints. *)
Inductive Formatter : Type := ViaSuccessPrint | ViaErrorPrint.

Inductive Event : Type :=
| Fprint (text : string)
| Println (by_ : Formatter) (arg : string) (line : string).

(** [SuccessPrint(text)] and [ErrorPrint(text)]. *)
Definition SuccessPrint (e : Env) (text : string) : Event :=
  Println ViaSuccessPrint text (Success e text).

Definition ErrorPrint (e : Env) (text : string) : Event :=
  Println ViaErrorPrint text (Error e text).

(** The arguments of the calls of one formatter, oldest first. *)
Fixpoint callsOf (f : Formatter) (evs : list Event) : list string :=
  match evs with
  | [] => []
  | Fprint _ :: rest => callsOf f rest
  | Println g arg _ :: rest =>
      match f, g with
      | ViaSuccessPrint, ViaSuccessPrint
      | ViaErrorPrint, ViaErrorPrint => arg :: callsOf f rest
      | _, _ => callsOf f rest
      end
  end.

(* ================================================================== *)
(** ** spinner.go *)

(** The [Spinner] struct.  The mutex [mu] is represented by the
    atomicity of the sections it guards, and [writer], which is always
    [os.Stdout], by the event log of the [World]. *)
Record Spinner : Type := mkSpinner {
  message    : string;
  frames     : list string;
  current    : Z;            (* int *)
  stop       : list bool;    (* contents of the channel, capacity 1 *)
  running    : bool;
  color      : string;
  speed      : Z;            (* time.Duration, nanoseconds *)
  lastOutput : string
}.

Definition setMessage (m : string) (s : Spinner) : Spinner :=
  mkSpinner m (frames s) (current s) (stop s) (running s) (color s)
            (speed s) (lastOutput s).
Definition setFrames (fs : list string) (s : Spinner) : Spinner :=
  mkSpinner (message s) fs (current s) (stop s) (running s) (color s)
            (speed s) (lastOutput s).
Definition setCurrent (c : Z) (s : Spinner) : Spinner :=
  mkSpinner (message s) (frames s) c (stop s) (running s) (color s)
            (speed s) (lastOutput s).
Definition setStop (ch : list bool) (s : Spinner) : Spinner :=
  mkSpinner (message s) (frames s) (current s) ch (running s) (color s)
            (speed s) (lastOutput s).
Definition setRunning (r : bool) (s : Spinner) : Spinner :=
  mkSpinner (message s) (frames s) (current s) (stop s) r (color s)
            (speed s) (lastOutput s).
Definition setColor (c : string) (s : Spinner) : Spinner :=
  mkSpinner (message s) (frames s) (current s) (stop s) (running s) c
            (speed s) (lastOutput s).
Definition setSpeed (d : Z) (s : Spinner) : Spinner :=
  mkSpinner (message s) (frames s) (current s) (stop s) (running s) (color s)
            d (lastOutput s).
Definition setLastOutput (o : string) (s : Spinner) : Spinner :=
  mkSpinner (message s) (frames s) (current s) (stop s) (running s) (color s)
            (speed s) o.

(** [type SpinnerOption]: a function that updates the spinner it is
    given. *)
Definition SpinnerOption : Type := Spinner -> Spinner.

(** [type SpinnerStyle int] and its [iota] constants. *)
Definition SpinnerStyle : Type := Z.
Definition SpinnerDots     : SpinnerStyle := 0.
Definition SpinnerLine     : SpinnerStyle := 1.
Definition SpinnerArrow    : SpinnerStyle := 2.
Definition SpinnerBounce   : SpinnerStyle := 3.
Definition SpinnerSquare   : SpinnerStyle := 5.
Definition SpinnerGrowDots : SpinnerStyle := 6.
Definition SpinnerPulse    : SpinnerStyle := 7.

(** [getSpinnerFrames(style)]. *)
Definition getSpinnerFrames (style : SpinnerStyle) : list string :=
  match style with
  | 0 => ["⠋"; "⠙"; "⠹"; "⠸"; "⠼"; "⠴"; "⠦"; "⠧"; "⠇"; "⠏"]
  | 1 => ["|"; "/"; "-"; "\"]
  | 2 => ["←"; "↖"; "↑"; "↗"; "→"; "↘"; "↓"; "↙"]
  | 3 => ["⠁"; "⠂"; "⠄"; "⡀"; "⢀"; "⠠"; "⠐"; "⠈"]
  | 4 => ["◐"; "◓"; "◑"; "◒"]
  | 5 => ["◰"; "◳"; "◲"; "◱"]
  | 6 => ["⣾"; "⣽"; "⣻"; "⢿"; "⡿"; "⣟"; "⣯"; "⣷"]
  | 7 => ["●"; "○"; "●"; "○"]
  | _ => ["⠋"; "⠙"; "⠹"; "⠸"; "⠼"; "⠴"; "⠦"; "⠧"; "⠇"; "⠏"]
  end.

Definition Millisecond : Z := 1000000.

(** [NewSpinner(message, opts...)]: the defaults, then every option in
    call order. *)
Definition NewSpinner (msg : string) (opts : list SpinnerOption) : Spinner :=
  let s := {| message := msg;
              frames := getSpinnerFrames SpinnerDots;
              current := 0;
              stop := [];
              running := false;
              color := CyanCode;
              speed := 60 * Millisecond;
              lastOutput := "" |} in
  fold_left (fun s opt => opt s) opts s.

Definition WithSpinnerStyle (style : SpinnerStyle) : SpinnerOption :=
  fun s => setFrames (getSpinnerFrames style) s.

Definition WithSpinnerColor (c : string) : SpinnerOption :=
  fun s => setColor c s.

Definition WithSpinnerSpeed (d : Z) : SpinnerOption :=
  fun s => setSpeed d s.

Definition WithCustomFrames (fs : list string) : SpinnerOption :=
  fun s => setFrames fs s.

(** Sequencing of steps that may panic. *)
Definition bindRes {A B} (r : Res A) (k : A -> Res B) : Res B :=
  match r with
  | Ok a => k a
  | Panicked p => Panicked p
  end.

Notation "'let!' x ':=' r 'in' k" := (bindRes r (fun x => k))
  (at level 10, x name, r at level 100, k at level 200).

(** The index [render] hands to the slice: [s.current % len(s.frames)]. *)
Definition frameIndex (s : Spinner) : Res Z :=
  modulo (current s) (lenSlice (frames s)).

(** The body of [render], between [Lock] and [Unlock]: the new state
    of the spinner and the text handed to [fmt.Fprint]. *)
Definition render (e : Env) (s : Spinner) : Res (Spinner * string) :=
  let! i := frameIndex s in
  let! frame := index (frames s) i in
  let s1 := setCurrent (wrap (current s + 1)) s in
  let output :=
    if isColorEnabled e
    then CR ++ colorize e frame [color s1] ++ " " ++ message s1
    else CR ++ frame ++ " " ++ message s1 in
  let output :=
    if len (lastOutput s1) >? len output
    then output ++ repeatStr " " (Z.to_nat (len (lastOutput s1) - len output))
    else output in
  Ok (setLastOutput output s1, output).

(** [maxInt(a, b)], the integer maximum defined in progress.go. *)
Definition maxInt (a b : Z) : Z := if a >? b then a else b.

(** [UpdateMessage(message)]. *)
Definition UpdateMessage (text : string) (s : Spinner) : Spinner :=
  setMessage text s.

(* ------------------------------------------------------------------ *)
(** *** The spinner together with its goroutines *)

(** Where a rendering goroutine launched by [Start] stands: before its
    ticker and cursor-hide, or inside its [for { select }] loop. *)
Inductive Task : Type := Spawned | Looping.

(** The spinner, the colour policy's environment, the goroutines that
    [Start] has launched and that have not returned, and everything
    written so far (oldest first). *)
Record World : Type := mkWorld {
  env   : Env;
  sp    : Spinner;
  tasks : list Task;
  out   : list Event
}.

Definition withSp (s : Spinner) (w : World) : World :=
  mkWorld (env w) s (tasks w) (out w).
Definition withTasks (ts : list Task) (w : World) : World :=
  mkWorld (env w) (sp w) ts (out w).
Definition emit (evs : list Event) (w : World) : World :=
  mkWorld (env w) (sp w) (tasks w) (out w ++ evs)%list.
Definition withEnv (e : Env) (w : World) : World :=
  mkWorld e (sp w) (tasks w) (out w).

Definition HideCursor : string := ESC ++ "[?25l".
Definition ShowCursor : string := ESC ++ "[?25h".

(** [Start()]: the guarded flip of [running], then the [go] statement. *)
Definition Start (w : World) : World :=
  if running (sp w) then w
  else withTasks (tasks w ++ [Spawned])%list
                 (withSp (setRunning true (sp w)) w).

(** What a goroutine can do next. *)
Inductive TaskAct : Type :=
| Begin      (* NewTicker, then the cursor-hide *)
| RecvStop   (* case <-s.stop *)
| Tick.      (* case <-ticker.C *)

Fixpoint setNth {A} (i : nat) (x : A) (xs : list A) : list A :=
  match xs, i with
  | [], _ => []
  | _ :: rest, O => x :: rest
  | y :: rest, S j => y :: setNth j x rest
  end.

Fixpoint dropNth {A} (i : nat) (xs : list A) : list A :=
  match xs, i with
  | [], _ => []
  | _ :: rest, O => rest
  | y :: rest, S j => y :: dropNth j rest
  end.

(** One atomic step of goroutine number [i]; [None] when the goroutine
    does not exist or cannot take that step now.  [time.NewTicker]
    panics on a non-positive interval; a receive needs a value in the
    channel. *)
Definition taskStep (i : nat) (a : TaskAct) (w : World)
  : option (Res World) :=
  match nth_error (tasks w) i, a with
  | Some Spawned, Begin =>
      Some (if speed (sp w) <=? 0 then Panicked NonPositiveInterval
            else Ok (emit (if isColorEnabled (env w)
                           then [Fprint HideCursor] else [])
                          (withTasks (setNth i Looping (tasks w)) w)))
  | Some Looping, RecvStop =>
      match stop (sp w) with
      | [] => None
      | _ :: rest =>
          Some (Ok (emit (if isColorEnabled (env w)
                          then [Fprint ShowCursor] else [])
                         (withTasks (dropNth i (tasks w))
                                    (withSp (setStop rest (sp w)) w))))
      end
  | Some Looping, Tick =>
      Some (let! r := render (env w) (sp w) in
            Ok (emit [Fprint (snd r)] (withSp (fst r) w)))
  | _, _ => None
  end.

(** A step of some goroutine that does not panic. *)
Definition task_step (w w' : World) : Prop :=
  exists i a, taskStep i a w = Some (Ok w').

(** Any number of goroutine steps: what can happen between two steps
    of the caller. *)
Definition background : World -> World -> Prop :=
  clos_refl_trans_1n World task_step.

(** The sections of [Stop] and [StopWithError]. *)

(** [s.running = false], under the lock. *)
Definition stopFlip (w : World) : World :=
  withSp (setRunning false (sp w)) w.

(** [select { case s.stop <- true: default: }]: a send that is dropped
    when the channel is full. *)
Definition stopSignal (w : World) : World :=
  if (List.length (stop (sp w)) <? 1)%nat
  then withSp (setStop (stop (sp w) ++ [true])%list (sp w)) w
  else w.

(** [clearLength], read under the lock.  A string in memory is far
    shorter than [MaxInt - 10] bytes, so the sum is written without
    wrap-around. *)
Definition clearLength (s : Spinner) : Z :=
  maxInt (len (lastOutput s)) (len (message s) + 10).

(** The text of the erasing write. *)
Definition clearLine (n : Z) : string :=
  CR ++ repeatStr " " (Z.to_nat n) ++ CR.

Definition stopErase (n : Z) (w : World) : World :=
  emit [Fprint (clearLine n)] w.

(** The tail of [Stop]: the success line, unless the message is empty. *)
Definition stopReport (msg : string) (w : World) : World :=
  if negb (msg =? "")%string then emit [SuccessPrint (env w) msg] w else w.

(** The tail of [StopWithError]: the error line, always. *)
Definition stopReportError (msg : string) (w : World) : World :=
  emit [ErrorPrint (env w) msg] w.

(** [Stop] and [StopWithError] differ only in their tail. *)
Inductive StopKind : Type := WithSuccess | WithError.

Definition report (k : StopKind) (msg : string) (w : World) : World :=
  match k with
  | WithSuccess => stopReport msg w
  | WithError => stopReportError msg w
  end.

(** A complete call, from entry to return, with the goroutines running
    in between the caller's steps: after the flip, after the signal
    (the 10ms sleep), between the measurement of [clearLength] in [w2]
    and the erasing write, and before the report. *)
Inductive stopRun (k : StopKind) (msg : string) : World -> World -> Prop :=
| stopRun_idle : forall w,
    running (sp w) = false ->
    stopRun k msg w w
| stopRun_running : forall w w1 w2 w3 w4,
    running (sp w) = true ->
    background (stopFlip w) w1 ->
    background (stopSignal w1) w2 ->
    background w2 w3 ->
    background (stopErase (clearLength (sp w2)) w3) w4 ->
    stopRun k msg w (report k msg w4).

Definition StopRun : string -> World -> World -> Prop := stopRun WithSuccess.
Definition StopWithErrorRun : string -> World -> World -> Prop :=
  stopRun WithError.

(** The same calls when no goroutine is scheduled while they run. *)
Definition stopAlone (k : StopKind) (msg : string) (w : World) : World :=
  if running (sp w)
  then let w2 := stopSignal (stopFlip w) in
       report k msg (stopErase (clearLength (sp w2)) w2)
  else w.

Definition Stop : string -> World -> World := stopAlone WithSuccess.
Definition StopWithError : string -> World -> World := stopAlone WithError.

(** The events a call appended. *)
Definition newEvents (w w' : World) : list Event :=
  skipn (List.length (out w)) (out w').

(* ------------------------------------------------------------------ *)
(** *** Histories of a spinner *)

(** The options the package exports. *)
Inductive Exported : SpinnerOption -> Prop :=
| Exported_style : forall st, Exported (WithSpinnerStyle st)
| Exported_color : forall c, Exported (WithSpinnerColor c)
| Exported_speed : forall d, Exported (WithSpinnerSpeed d)
| Exported_frames : forall fs, Exported (WithCustomFrames fs).

(** A freshly constructed spinner: no goroutine, nothing written. *)
Definition boot (e : Env) (msg : string) (opts : list SpinnerOption) : World :=
  mkWorld e (NewSpinner msg opts) [] [].

(** One thing that can happen to a spinner: a call of its API by the
    caller, a change of the colour override, or a goroutine step. *)
Inductive api_step : World -> World -> Prop :=
| api_Start : forall w,
    api_step w (Start w)
| api_Stop : forall k msg w w',
    stopRun k msg w w' ->
    api_step w w'
| api_UpdateMessage : forall text w,
    api_step w (withSp (UpdateMessage text (sp w)) w)
| api_ForceColors : forall b w,
    api_step w (withEnv (ForceColors b (env w)) w)
| api_task : forall w w',
    task_step w w' ->
    api_step w w'.

Definition reachable (w0 : World) : World -> Prop :=
  clos_refl_trans_n1 World api_step w0.



(** [n] renderings in a row by one goroutine, stopping at the first
    panic; the indices handed to the slice are collected, oldest
    first. *)
Fixpoint renders (e : Env) (n : nat) (s : Spinner)
  : Res (Spinner * list Z) :=
  match n with
  | O => Ok (s, [])
  | S k =>
      let! i := frameIndex s in
      let! r := render e s in
      let! rest := renders e k (fst r) in
      Ok (fst rest, i :: snd rest)
  end.

(* ================================================================== *)
(** ** detect.go: access to [forceColors] under [mu] *)

(** Goroutines that call [ForceColors] and [isColorEnabled] at the same
    time.  A store to [forceColors] is taken to be non-atomic: between
    its two halves the variable holds no whole value.  [mu] is a
    [sync.RWMutex]: [Lock] waits until nobody holds the mutex, [RLock]
    until no writer holds it. *)
Module Override.

(** The variable [forceColors]. *)
Inductive Cell : Type :=
| Whole (v : option bool)
| Partial.

(** Where a goroutine stands in its call. *)
Inductive Pc : Type :=
(* ForceColors(enabled) *)
| AtLock (enabled : bool)      (* before mu.Lock() *)
| AtStore (enabled : bool)     (* lock held, before forceColors = &enabled *)
| InStore (enabled : bool)     (* lock held, the store half done *)
| AtUnlock                     (* lock held, before the deferred mu.Unlock() *)
| Returned
(* isColorEnabled(), up to mu.RUnlock() *)
| AtRLock                      (* before mu.RLock() *)
| AtLoad                       (* read lock held, before fc := forceColors *)
| AtRUnlock (fc : Cell)        (* read lock held, local copy taken *)
| Decided (fc : Cell).         (* past mu.RUnlock(), working on the copy *)

Record Shared : Type := mkShared {
  writer  : bool;       (* mu is held for writing *)
  readers : nat;        (* number of read locks held on mu *)
  cell    : Cell;
  threads : list Pc
}.

(** A goroutine about to call one of the two functions. *)
Definition entering (pc : Pc) : bool :=
  match pc with
  | AtLock _ | AtRLock => true
  | _ => false
  end.

Definition init (v : option bool) (ts : list Pc) : Shared :=
  mkShared false 0 (Whole v) ts.

Definition advance (i : nat) (pc : Pc) (st : Shared) : list Pc :=
  setNth i pc (threads st).

(** One step of goroutine [i]; [None] when it is blocked or done.
    With [guarded = false] the calls on [mu] never wait: the same
    code without the mutex. *)
Definition step (guarded : bool) (i : nat) (st : Shared) : option Shared :=
  match nth_error (threads st) i with
  | Some (AtLock b) =>
      if guarded && (writer st || negb (readers st =? 0)%nat) then None
      else Some (mkShared true (readers st) (cell st)
                          (advance i (AtStore b) st))
  | Some (AtStore b) =>
      Some (mkShared (writer st) (readers st) Partial
                     (advance i (InStore b) st))
  | Some (InStore b) =>
      Some (mkShared (writer st) (readers st) (Whole (Some b))
                     (advance i AtUnlock st))
  | Some AtUnlock =>
      Some (mkShared false (readers st) (cell st)
                     (advance i Returned st))
  | Some AtRLock =>
      if guarded && writer st then None
      else Some (mkShared (writer st) (S (readers st)) (cell st)
                          (advance i AtLoad st))
  | Some AtLoad =>
      Some (mkShared (writer st) (readers st) (cell st)
                     (advance i (AtRUnlock (cell st)) st))
  | Some (AtRUnlock fc) =>
      Some (mkShared (writer st) (Nat.pred (readers st)) (cell st)
                     (advance i (Decided fc) st))
  | Some Returned | Some (Decided _) | None => None
  end.

Definition steps (guarded : bool) : Shared -> Shared -> Prop :=
  clos_refl_trans_n1 Shared
    (fun st st' => exists i, step guarded i st = Some st').

(** The schedule [sched] run from [st], skipping blocked picks. *)
Fixpoint run (guarded : bool) (sched : list nat) (st : Shared) : Shared :=
  match sched with
  | [] => st
  | i :: rest =>
      match step guarded i st with
      | Some st' => run guarded rest st'
      | None => run guarded rest st
      end
  end.

(** A goroutine is touching [forceColors]: about to store or storing,
    or about to load. *)
Definition storing (pc : Pc) : bool :=
  match pc with
  | AtStore _ | InStore _ => true
  | _ => false
  end.

Definition loading (pc : Pc) : bool :=
  match pc with
  | AtLoad => true
  | _ => false
  end.

(** A data race: two goroutines touch the variable at once and one of
    them stores. *)
Definition race (st : Shared) : Prop :=
  exists i j pi pj,
    i <> j /\
    nth_error (threads st) i = Some pi /\
    nth_error (threads st) j = Some pj /\
    storing pi = true /\
    (storing pj = true \/ loading pj = true).

(** The copies of the variable that goroutines have taken. *)
Definition copyOf (pc : Pc) : option Cell :=
  match pc with
  | AtRUnlock fc | Decided fc => Some fc
  | _ => None
  end.

(** The rest of [isColorEnabled], which works on the copy [fc]: the
    policy's answer with the override as copied, and no answer from a
    variable that was copied half-written. *)
Definition answer (e : Env) (fc : Cell) : option bool :=
  match fc with
  | Whole v =>
      Some (isColorEnabled (mkEnv v (noColor e) (stdoutStat e) (getenv e)
                                  (GOOS e)))
  | Partial => None
  end.

(** The values the calls of [ForceColors] in [ts] will publish. *)
Definition published (ts : list Pc) : list (option bool) :=
  flat_map (fun pc => match pc with
                      | AtLock b => [Some b]
                      | _ => []
                      end) ts.

End Override.

(* ================================================================== *)
(** ** The priority order of the colour policy, as the specification
       words it *)

(** The five signals, most decisive first. *)
Inductive Signal : Type :=
| SigOverride | SigNoColor | SigTerminal | SigCI | SigPlatform.

Definition priority : list Signal :=
  [SigOverride; SigNoColor; SigTerminal; SigCI; SigPlatform].

(** The Windows ANSI signal: TERM contains "xterm" or "256color", or
    WT_SESSION is non-empty. *)
Definition windowsAnsi (e : Env) : bool :=
  contains (getenv e "TERM") "xterm"
  || contains (getenv e "TERM") "256color"
  || negb (getenv e "WT_SESSION" =? "")%string.

Definition onWindows (e : Env) : bool := (GOOS e =? "windows")%string.

(** Whether a signal settles the answer when it is reached. *)
Definition decisive (e : Env) (sg : Signal) : bool :=
  match sg with
  | SigOverride => match forceColors e with Some _ => true | None => false end
  | SigNoColor => noColor e
  | SigTerminal => negb (isTerminal e)
  | SigCI => isCI e
  | SigPlatform => true
  end.

(** The answer a signal gives when it is the decisive one. *)
Definition verdict (e : Env) (sg : Signal) : bool :=
  match sg with
  | SigOverride => match forceColors e with Some b => b | None => false end
  | SigNoColor | SigTerminal | SigCI => false
  | SigPlatform => negb (onWindows e) || windowsAnsi e
  end.

(** What has to be read to evaluate a signal. *)
Definition consults (e : Env) (sg : Signal) : list Probe :=
  match sg with
  | SigOverride => [ReadForceColors]
  | SigNoColor => [ReadNoColor]
  | SigTerminal => [StatStdout]
  | SigCI => [Getenv "CI"]
  | SigPlatform =>
      ReadGOOS ::
      (if onWindows e
       then Getenv "TERM" ::
            (if contains (getenv e "TERM") "xterm"
                || contains (getenv e "TERM") "256color"
             then [] else [Getenv "WT_SESSION"])
       else [])
  end.

(** The signals evaluated: the priority order up to and including the
    first decisive one. *)
Fixpoint upToDecisive (e : Env) (sgs : list Signal) : list Signal :=
  match sgs with
  | [] => []
  | sg :: rest => if decisive e sg then [sg] else sg :: upToDecisive e rest
  end.

(** [sub] occurs in [s]. *)
Definition Substring (sub s : string) : Prop :=
  exists pre post, s = pre ++ sub ++ post.

(* ================================================================== *)
(** ** Vocabulary of the statements *)

(** All the codes, in order, one after the other. *)
Definition concatAll (codes : list string) : string :=
  fold_right append "" codes.

(** The bytes an event puts on the terminal; [fmt.Println] ends the
    line. *)
Definition written (ev : Event) : string :=
  match ev with
  | Fprint text => text
  | Println _ _ line => line ++ LF
  end.

Definition terminal (evs : list Event) : string :=
  concatAll (map written evs).

(** Events written by a goroutine: plain writes on the spinner's
    writer. *)
Definition plain (ev : Event) : Prop := exists t, ev = Fprint t.

(** The part of the world a goroutine step leaves alone, and how it
    moves the rest. *)
Record drift (w w' : World) : Prop := mkDrift {
  drift_env : env w' = env w;
  drift_running : running (sp w') = running (sp w);
  drift_message : message (sp w') = message (sp w);
  drift_frames : frames (sp w') = frames (sp w);
  drift_color : color (sp w') = color (sp w);
  drift_speed : speed (sp w') = speed (sp w);
  drift_width : len (lastOutput (sp w)) <= len (lastOutput (sp w'));
  drift_out : exists evs, out w' = (out w ++ evs)%list /\ Forall plain evs
}.

(** What the tail of a stopping call prints. *)
Definition reportEvents (k : StopKind) (msg : string) (e : Env) : list Event :=
  match k with
  | WithSuccess => if negb (msg =? "")%string then [SuccessPrint e msg] else []
  | WithError => [ErrorPrint e msg]
  end.



(** The invariant of the guarded accesses. *)
Module OverrideInv.
Import Override.

(** Goroutines holding [mu] for writing, and for reading. *)
Definition holdsLock (pc : Pc) : bool :=
  match pc with
  | AtStore _ | InStore _ | AtUnlock => true
  | _ => false
  end.

Definition holdsRLock (pc : Pc) : bool :=
  match pc with
  | AtLoad | AtRUnlock _ => true
  | _ => false
  end.

Definition midStore (pc : Pc) : bool :=
  match pc with
  | InStore _ => true
  | _ => false
  end.

Definition countIf (p : Pc -> bool) (ts : list Pc) : nat :=
  List.length (filter p ts).

(** A goroutine only carries values from [vs]: the one it is about
    to publish, or the whole value it has copied. *)
Definition carries (vs : list (option bool)) (pc : Pc) : Prop :=
  match pc with
  | AtLock b | AtStore b | InStore b => In (Some b) vs
  | AtRUnlock c | Decided c => exists v, c = Whole v /\ In v vs
  | _ => True
  end.

Record Inv (vs : list (option bool)) (st : Shared) : Prop := mkInv {
  inv_writer : countIf holdsLock (threads st) = Nat.b2n (writer st);
  inv_readers : countIf holdsRLock (threads st) = readers st;
  inv_excl : writer st = true -> readers st = 0%nat;
  inv_partial : countIf midStore (threads st)
                = match cell st with Partial => 1%nat | Whole _ => 0%nat end;
  inv_cell : forall v, cell st = Whole v -> In v vs;
  inv_carries : Forall (carries vs) (threads st)
}.

End OverrideInv.

(* ================================================================== *)
(** ** Sample data *)

(** Sample environments. *)
Definition noVars : string -> string := fun _ => "".

Definition linuxTerminal : Env :=
  mkEnv None false (Some ModeCharDevice) noVars "linux".

Definition windowsTerminal (term wt : string) : Env :=
  mkEnv None false (Some ModeCharDevice)
        (fun name => if (name =? "TERM")%string then term
                     else if (name =? "WT_SESSION")%string then wt
                     else "")
        "windows".

Definition forced (b : bool) : Env := ForceColors b linuxTerminal.

(** A spinner that has just been started, with the default options. *)
Definition started (e : Env) (msg : string) : World :=
  Start (boot e msg []).

(** A spinner with three custom frames, and one with a single frame. *)
Definition threeFrames : Spinner :=
  NewSpinner "Test" [WithCustomFrames ["A"; "B"; "C"]].

Definition oneFrame : Spinner :=
  NewSpinner "Test" [WithCustomFrames ["*"]].

(** The step [a] of goroutine [i], when it is enabled and does not
    panic. *)
Definition afterTask (i : nat) (a : TaskAct) (w : World) : World :=
  match taskStep i a w with
  | Some (Ok w') => w'
  | _ => w
  end.


(** Two writers and two readers, and a schedule that lets the first
    reader in between the two stores. *)
Definition sampleThreads : list Override.Pc :=
  [Override.AtLock true; Override.AtRLock;
   Override.AtLock false; Override.AtRLock].

Definition sampleSchedule : list nat :=
  [0; 1; 0; 0; 2; 0; 1; 1; 1; 2; 3; 2; 2; 2; 3; 3; 3]%nat.

Definition sampleRun : Override.Shared :=
  Override.run true sampleSchedule (Override.init None sampleThreads).

(* ================================================================== *)
(** ** Bytes and runes *)

(** Go's conversions between bytes, runes and strings, and the UTF-8
    decoding a [for range] loop over a string performs
    ([unicode/utf8]). *)
Module Utf8.

(** The value of a byte. *)
Definition byteVal (c : ascii) : Z := Z.of_N (N_of_ascii c).

(** The byte of a value in [0, 255]. *)
Definition byteOf (v : Z) : ascii := ascii_of_N (Z.to_N v).

(** [string(b)] for a byte [b]: the UTF-8 encoding of the code point
    whose number is [b], one byte below 0x80 and two from there on. *)
Definition stringOfByte (c : ascii) : string :=
  let v := byteVal c in
  if v <? 0x80 then String c ""
  else String (byteOf (Z.lor 0xC0 (Z.shiftr v 6)))
              (String (byteOf (Z.lor 0x80 (Z.land v 0x3F))) "").

(** [utf8.RuneError], what an invalid sequence decodes to. *)
Definition RuneError : Z := 0xFFFD.

(** The range the second byte of a sequence must lie in, by its first
    byte. *)
Definition acceptRange (b0 : Z) : Z * Z :=
  if b0 =? 0xE0 then (0xA0, 0xBF)
  else if b0 =? 0xED then (0x80, 0x9F)
  else if b0 =? 0xF0 then (0x90, 0xBF)
  else if b0 =? 0xF4 then (0x80, 0x8F)
  else (0x80, 0xBF).

(** The length of the sequence a first byte in [0xC2 .. 0xF4]
    announces. *)
Definition seqSize (b0 : Z) : nat :=
  if b0 <? 0xE0 then 2 else if b0 <? 0xF0 then 3 else 4.

Definition within (lo hi v : Z) : bool := (lo <=? v) && (v <=? hi).

(** [utf8.DecodeRuneInString]: the first rune of [s] and its width in
    bytes; an invalid or truncated sequence is [RuneError] of width
    1. *)
Definition decodeRune (s : string) : Z * nat :=
  match s with
  | "" => (RuneError, 0%nat)
  | String c0 rest =>
      let b0 := byteVal c0 in
      if b0 <? 0x80 then (b0, 1%nat)
      else if (b0 <? 0xC2) || (0xF4 <? b0) then (RuneError, 1%nat)
      else if (String.length s <? seqSize b0)%nat then (RuneError, 1%nat)
      else
        match rest with
        | "" => (RuneError, 1%nat)
        | String c1 rest1 =>
            let b1 := byteVal c1 in
            if negb (within (fst (acceptRange b0)) (snd (acceptRange b0)) b1)
            then (RuneError, 1%nat)
            else if (seqSize b0 <=? 2)%nat
            then (Z.lor (Z.shiftl (Z.land b0 0x1F) 6) (Z.land b1 0x3F), 2%nat)
            else
              match rest1 with
              | "" => (RuneError, 1%nat)
              | String c2 rest2 =>
                  let b2 := byteVal c2 in
                  if negb (within 0x80 0xBF b2) then (RuneError, 1%nat)
                  else if (seqSize b0 <=? 3)%nat
                  then (Z.lor (Z.shiftl (Z.land b0 0x0F) 12)
                          (Z.lor (Z.shiftl (Z.land b1 0x3F) 6)
                                 (Z.land b2 0x3F)), 3%nat)
                  else
                    match rest2 with
                    | "" => (RuneError, 1%nat)
                    | String c3 _ =>
                        let b3 := byteVal c3 in
                        if negb (within 0x80 0xBF b3) then (RuneError, 1%nat)
                        else (Z.lor (Z.shiftl (Z.land b0 0x07) 18)
                                (Z.lor (Z.shiftl (Z.land b1 0x3F) 12)
                                   (Z.lor (Z.shiftl (Z.land b2 0x3F) 6)
                                          (Z.land b3 0x3F))), 4%nat)
                    end
              end
        end
  end.

(** The runes a [for _, r := range s] loop sees; [skip] bytes of [s]
    still belong to the rune decoded last. *)
Fixpoint runesFrom (skip : nat) (s : string) : list Z :=
  match s with
  | "" => []
  | String _ rest =>
      match skip with
      | S k => runesFrom k rest
      | O => fst (decodeRune s) :: runesFrom (Nat.pred (snd (decodeRune s))) rest
      end
  end.

Definition runesOf (s : string) : list Z := runesFrom 0 s.

End Utf8.
Import Utf8.

(* ================================================================== *)
(** ** table.go: the visual width of text *)

(** The variables of the loop in [stripANSI]. *)
Record Stripping : Type := mkStripping {
  stripped  : string;   (* result *)
  inEscape  : bool;
  escapeSeq : string
}.

(** [(char >= 'A' && char <= 'Z') || (char >= 'a' && char <= 'z')]. *)
Definition isLetter (char : ascii) : bool :=
  within 65 90 (byteVal char) || within 97 122 (byteVal char).

(** One turn of the loop of [stripANSI], on the byte [char]. *)
Definition stripByte (st : Stripping) (char : ascii) : Stripping :=
  if byteVal char =? 0x1b then mkStripping (stripped st) true ""
  else if inEscape st then
    let seq := escapeSeq st ++ stringOfByte char in
    if isLetter char then mkStripping (stripped st) false ""
    else mkStripping (stripped st) true seq
  else mkStripping (stripped st ++ stringOfByte char) (inEscape st)
                   (escapeSeq st).

(** The loop of [stripANSI] from the state [st]. *)
Definition stripFrom (st : Stripping) (str : string) : Stripping :=
  fold_left stripByte (list_ascii_of_string str) st.

(** [stripANSI(str)]. *)
Definition stripANSI (str : string) : string :=
  stripped (stripFrom (mkStripping "" false "") str).

Definition isHangulJamo (r : Z) : bool := (0x1100 <=? r) && (r <=? 0x115F).
Definition isCJKRadical (r : Z) : bool := (0x2E80 <=? r) && (r <=? 0x303E).
Definition isHiraganaKatakana (r : Z) : bool :=
  (0x3040 <=? r) && (r <=? 0xA4CF).
Definition isHangulSyllable (r : Z) : bool := (0xAC00 <=? r) && (r <=? 0xD7A3).
Definition isCJKCompatibility (r : Z) : bool :=
  ((0xF900 <=? r) && (r <=? 0xFAFF)) || ((0xFE30 <=? r) && (r <=? 0xFE6F)).
Definition isCJKExtension (r : Z) : bool :=
  (0x20000 <=? r) && (r <=? 0x2FFFD).

Definition isCJKCharacter (r : Z) : bool :=
  isHangulJamo r || isCJKRadical r || isHiraganaKatakana r
  || isHangulSyllable r || isCJKCompatibility r || isCJKExtension r.

Definition isFullwidthCharacter (r : Z) : bool :=
  ((0xFF00 <=? r) && (r <=? 0xFF60)) || ((0xFFE0 <=? r) && (r <=? 0xFFE6)).

Definition isEmojiCharacter (r : Z) : bool :=
  (0x1F300 <=? r) && (r <=? 0x1F9FF).

Definition isWideCharacter (r : Z) : bool :=
  isCJKCharacter r || isFullwidthCharacter r || isEmojiCharacter r.

(** [runeWidth(r)]. *)
Definition runeWidth (r : Z) : Z := if isWideCharacter r then 2 else 1.

(** [visualWidth(str)]: the widths of the runes of the stripped text,
    added up. *)
Definition visualWidth (str : string) : Z :=
  fold_left (fun width r => width + runeWidth r) (runesOf (stripANSI str)) 0.
(** Every byte of [s] turned into the code point of the same number. *)
Fixpoint latin1 (s : string) : string :=
  match s with
  | "" => ""
  | String c rest => stringOfByte c ++ latin1 rest
  end.

(** The bytes of [s] that lie outside escape sequences, when the text
    before [s] has left an escape sequence open ([esc]) or not: a
    sequence runs from an ESC byte to the first letter after it. *)
Fixpoint kept (esc : bool) (s : string) : string :=
  match s with
  | "" => ""
  | String c rest =>
      if byteVal c =? 0x1b then kept true rest
      else if esc then kept (negb (isLetter c)) rest
      else String c (kept false rest)
  end.

(** Whether an escape sequence is still open at the end of [s]. *)
Fixpoint openAfter (esc : bool) (s : string) : bool :=
  match s with
  | "" => esc
  | String c rest =>
      if byteVal c =? 0x1b then openAfter true rest
      else if esc then openAfter (negb (isLetter c)) rest
      else openAfter false rest
  end.

Definition escFree (s : string) : bool :=
  forallb (fun c => negb (byteVal c =? 0x1b)) (list_ascii_of_string s).

Definition isAscii (s : string) : bool :=
  forallb (fun c => byteVal c <? 0x80) (list_ascii_of_string s).

(** A complete escape sequence: ESC, then bytes that are neither
    letters nor ESC, then one letter. *)
Fixpoint endsAtLetter (s : string) : bool :=
  match s with
  | "" => false
  | String c "" => isLetter c
  | String c rest =>
      negb (isLetter c) && negb (byteVal c =? 0x1b) && endsAtLetter rest
  end.

Definition isSequence (code : string) : bool :=
  match code with
  | "" => false
  | String c rest => (byteVal c =? 0x1b) && endsAtLetter rest
  end.
(** The number of bytes of [s] that are 0x80 or more. *)
Definition highBytes (s : string) : Z :=
  Z.of_nat (List.length (filter (fun c => 0x80 <=? byteVal c)
                                (list_ascii_of_string s))).

(** [type Alignment int] and its [iota] constants. *)
Definition Alignment : Type := Z.
Definition AlignLeft   : Alignment := 0.
Definition AlignCenter : Alignment := 1.
Definition AlignRight  : Alignment := 2.

(** [alignText(text, width, alignment)]; the receiver is not used.
    [padding] lies between 1 and [width], so neither the subtraction
    wraps nor [strings.Repeat] panics. *)
Definition alignText (text : string) (width : Z) (alignment : Alignment)
  : string :=
  let actualLen := visualWidth text in
  if actualLen >=? width then text
  else
    let padding := width - actualLen in
    if alignment =? AlignRight
    then repeatStr " " (Z.to_nat padding) ++ text
    else if alignment =? AlignCenter
    then
      let leftPad := Z.quot padding 2 in
      let rightPad := padding - leftPad in
      repeatStr " " (Z.to_nat leftPad) ++ text
                ++ repeatStr " " (Z.to_nat rightPad)
    else text ++ repeatStr " " (Z.to_nat padding).

(** colors.go: the rest of the palette. *)
Definition YellowCode  : string := ESC ++ "[33m".
Definition BlueCode    : string := ESC ++ "[34m".
Definition MagentaCode : string := ESC ++ "[35m".
Definition WhiteCode   : string := ESC ++ "[37m".
Definition BlackCode   : string := ESC ++ "[30m".
Definition BrightBlack   : string := ESC ++ "[90m".
Definition BrightRed     : string := ESC ++ "[91m".
Definition BrightGreen   : string := ESC ++ "[92m".
Definition BrightYellow  : string := ESC ++ "[93m".
Definition BrightBlue    : string := ESC ++ "[94m".
Definition BrightMagenta : string := ESC ++ "[95m".
Definition BrightCyan    : string := ESC ++ "[96m".
Definition BrightWhite   : string := ESC ++ "[97m".
Definition BgBlack   : string := ESC ++ "[40m".
Definition BgRed     : string := ESC ++ "[41m".
Definition BgGreen   : string := ESC ++ "[42m".
Definition BgYellow  : string := ESC ++ "[43m".
Definition BgBlue    : string := ESC ++ "[44m".
Definition BgMagenta : string := ESC ++ "[45m".
Definition BgCyan    : string := ESC ++ "[46m".
Definition BgWhite   : string := ESC ++ "[47m".
Definition Dim       : string := ESC ++ "[2m".
Definition Italic    : string := ESC ++ "[3m".
Definition Underline : string := ESC ++ "[4m".
Definition Blink     : string := ESC ++ "[5m".
Definition Reverse   : string := ESC ++ "[7m".
Definition Hidden    : string := ESC ++ "[8m".

(** Every code of colors.go. *)
Definition palette : list string :=
  [Reset; RedCode; GreenCode; YellowCode; BlueCode; MagentaCode; CyanCode;
   WhiteCode; BlackCode;
   BrightBlack; BrightRed; BrightGreen; BrightYellow; BrightBlue;
   BrightMagenta; BrightCyan; BrightWhite;
   BgBlack; BgRed; BgGreen; BgYellow; BgBlue; BgMagenta; BgCyan; BgWhite;
   Bold; Dim; Italic; Underline; Blink; Reverse; Hidden].

(* ================================================================== *)
(** ** colorbear.go: the basic colour functions *)

Definition Red (e : Env) (text : string) : string := colorize e text [RedCode].
Definition Green (e : Env) (text : string) : string :=
  colorize e text [GreenCode].
Definition Yellow (e : Env) (text : string) : string :=
  colorize e text [YellowCode].
Definition Blue (e : Env) (text : string) : string :=
  colorize e text [BlueCode].
Definition Cyan (e : Env) (text : string) : string :=
  colorize e text [CyanCode].
Definition Magenta (e : Env) (text : string) : string :=
  colorize e text [MagentaCode].
Definition White (e : Env) (text : string) : string :=
  colorize e text [WhiteCode].
Definition Black (e : Env) (text : string) : string :=
  colorize e text [BlackCode].

(* ================================================================== *)
(** ** semantic.go: the other messages *)

Definition WarningMark : string := "⚠".
Definition InfoMark : string := "ℹ".
Definition DebugMark : string := "🐛".

(** [Warning(text)]. *)
Definition Warning (e : Env) (text : string) : string :=
  if (text =? "")%string then colorize e WarningMark [YellowCode]
  else colorize e (WarningMark ++ " " ++ text) [YellowCode].

(** [Info(text)]. *)
Definition Info (e : Env) (text : string) : string :=
  if (text =? "")%string then colorize e InfoMark [CyanCode]
  else colorize e (InfoMark ++ " " ++ text) [CyanCode].

(** [Debug(text)]. *)
Definition Debug (e : Env) (text : string) : string :=
  if (text =? "")%string then colorize e DebugMark [BrightBlack]
  else colorize e (DebugMark ++ " " ++ text) [BrightBlack].

(** The table-safe versions. *)
Definition TableSuccess (e : Env) (text : string) : string :=
  if (text =? "")%string then colorize e "[OK]" [GreenCode]
  else colorize e ("[OK] " ++ text) [GreenCode].

Definition TableError (e : Env) (text : string) : string :=
  if (text =? "")%string then colorize e "[ERR]" [RedCode; Bold]
  else colorize e ("[ERR] " ++ text) [RedCode; Bold].

Definition TableWarning (e : Env) (text : string) : string :=
  if (text =? "")%string then colorize e "[!]" [YellowCode]
  else colorize e ("[!] " ++ text) [YellowCode].

Definition TableInfo (e : Env) (text : string) : string :=
  if (text =? "")%string then colorize e "[i]" [CyanCode]
  else colorize e ("[i] " ++ text) [CyanCode].

Definition TableDebug (e : Env) (text : string) : string :=
  if (text =? "")%string then colorize e "[#]" [BrightBlack]
  else colorize e ("[#] " ++ text) [BrightBlack].

(* ================================================================== *)
(** ** style.go *)

(** [Style] values live behind pointers: a heap of [Style] structs,
    each its slice of codes, addressed by position. *)
Module Style.

Definition Heap : Type := list (list string).
Definition Ptr : Type := nat.

(** [s.codes]. *)
Definition codes (h : Heap) (s : Ptr) : list string := nth s h [].

(** [NewStyle()]: a fresh struct with no codes. *)
Definition NewStyle (h : Heap) : Ptr * Heap :=
  (List.length h, (h ++ [[]])%list).

(** The body every chainable method shares:
    [s.codes = append(s.codes, code); return s]. *)
Definition add (code : string) (s : Ptr) (h : Heap) : Ptr * Heap :=
  (s, setNth s (codes h s ++ [code])%list h).

Definition Red := add RedCode.
Definition Green := add GreenCode.
Definition Yellow := add YellowCode.
Definition Blue := add BlueCode.
Definition Cyan := add CyanCode.
Definition Magenta := add MagentaCode.
Definition White := add WhiteCode.
Definition Black := add BlackCode.
Definition Bold := add Bold.
Definition Underline := add Underline.
Definition Italic := add Italic.
Definition Dim := add Dim.
Definition BgRed := add BgRed.
Definition BgGreen := add BgGreen.
Definition BgYellow := add BgYellow.
Definition BgBlue := add BgBlue.
Definition BgCyan := add BgCyan.
Definition BgMagenta := add BgMagenta.
Definition BgWhite := add BgWhite.
Definition BgBlack := add BgBlack.

(** [s.Apply(text)]. *)
Definition Apply (e : Env) (h : Heap) (s : Ptr) (text : string) : string :=
  colorize e text (codes h s).

(** A method called on the style just returned by a call. *)
Definition andThen (r : Ptr * Heap) (method : Ptr -> Heap -> Ptr * Heap)
  : Ptr * Heap :=
  method (fst r) (snd r).

(** [RedStyle()] ... [BlackStyle()]. *)
Definition RedStyle (h : Heap) := andThen (NewStyle h) Red.
Definition GreenStyle (h : Heap) := andThen (NewStyle h) Green.
Definition YellowStyle (h : Heap) := andThen (NewStyle h) Yellow.
Definition BlueStyle (h : Heap) := andThen (NewStyle h) Blue.
Definition CyanStyle (h : Heap) := andThen (NewStyle h) Cyan.
Definition MagentaStyle (h : Heap) := andThen (NewStyle h) Magenta.
Definition WhiteStyle (h : Heap) := andThen (NewStyle h) White.
Definition BlackStyle (h : Heap) := andThen (NewStyle h) Black.

(** The chainable methods. *)
Definition methods : list (Ptr -> Heap -> Ptr * Heap) :=
  [Red; Green; Yellow; Blue; Cyan; Magenta; White; Black;
   Bold; Underline; Italic; Dim;
   BgRed; BgGreen; BgYellow; BgBlue; BgCyan; BgMagenta; BgWhite; BgBlack].

(** The methods [ms] called one after the other on [s]. *)
Definition chain (ms : list (Ptr -> Heap -> Ptr * Heap)) (s : Ptr) (h : Heap)
  : Ptr * Heap :=
  fold_left andThen ms (s, h).

End Style.

(** The kinds of message of semantic.go, with the function of each, its
    marker and its codes. *)
Inductive Message : Type :=
| MsgSuccess | MsgError | MsgWarning | MsgInfo | MsgDebug
| MsgTableSuccess | MsgTableError | MsgTableWarning | MsgTableInfo
| MsgTableDebug.

Definition say (m : Message) : Env -> string -> string :=
  match m with
  | MsgSuccess => Success
  | MsgError => Error
  | MsgWarning => Warning
  | MsgInfo => Info
  | MsgDebug => Debug
  | MsgTableSuccess => TableSuccess
  | MsgTableError => TableError
  | MsgTableWarning => TableWarning
  | MsgTableInfo => TableInfo
  | MsgTableDebug => TableDebug
  end.

Definition markerOf (m : Message) : string :=
  match m with
  | MsgSuccess => CheckMark
  | MsgError => CrossMark
  | MsgWarning => WarningMark
  | MsgInfo => InfoMark
  | MsgDebug => DebugMark
  | MsgTableSuccess => "[OK]"
  | MsgTableError => "[ERR]"
  | MsgTableWarning => "[!]"
  | MsgTableInfo => "[i]"
  | MsgTableDebug => "[#]"
  end.

Definition codesOf (m : Message) : list string :=
  match m with
  | MsgSuccess | MsgTableSuccess => [GreenCode]
  | MsgError | MsgTableError => [RedCode; Bold]
  | MsgWarning | MsgTableWarning => [YellowCode]
  | MsgInfo | MsgTableInfo => [CyanCode]
  | MsgDebug | MsgTableDebug => [BrightBlack]
  end.

(** The marker alone for an empty text, else marker, space, text. *)
Definition labelled (m : Message) (text : string) : string :=
  if (text =? "")%string then markerOf m else markerOf m ++ " " ++ text.

(* ================================================================== *)
(** ** Vocabulary of the spinner's further properties *)


(** The line [render] builds before it pads it. *)
Definition spinnerLine (e : Env) (s : Spinner) (frame : string) : string :=
  CR ++ colorize e frame [color s] ++ " " ++ message s.

(** How often [text] was written with [fmt.Fprint]. *)
Definition isFprintOf (text : string) (ev : Event) : bool :=
  match ev with
  | Fprint t => (t =? text)%string
  | Println _ _ _ => false
  end.

Definition fprints (text : string) (evs : list Event) : nat :=
  List.length (filter (isFprintOf text) evs).






(** A spinner whose colour override was switched off between the
    start of its goroutine and the call of [Stop]. *)
Definition switchedOff : World :=
  afterTask 0 RecvStop
    (Stop ""
       (withEnv (ForceColors false linuxTerminal)
          (afterTask 0 Begin (started (forced true) "Loading")))).

(** A spinner that drew one line, was stopped, got a shorter message
    and was started again. *)
Definition drewOnce : World :=
  afterTask 0 Tick (afterTask 0 Begin (started (forced false) "Loading files")).

Definition restarted : World :=
  afterTask 0 Begin
    (Start
       (withSp (UpdateMessage "ok" (sp (afterTask 0 RecvStop (Stop "" drewOnce))))
               (afterTask 0 RecvStop (Stop "" drewOnce)))).


(* ================================================================== *)
(** ** table.go: the table *)

(** [type TableStyle]. *)
Record TableStyle : Type := mkTableStyle {
  TopLeft         : string;
  TopRight        : string;
  BottomLeft      : string;
  BottomRight     : string;
  Horizontal      : string;
  Vertical        : string;
  Cross           : string;
  TopCross        : string;
  BottomCross     : string;
  LeftCross       : string;
  RightCross      : string;
  HeaderSeparator : string;
  Name            : string
}.

(** The predefined styles. *)
Definition TableStyleSimple : TableStyle :=
  mkTableStyle "+" "+" "+" "+" "-" "|" "+" "+" "+" "+" "+" "-" "simple".

Definition TableStyleRounded : TableStyle :=
  mkTableStyle "╭" "╮" "╰" "╯" "─" "│" "┼" "┬" "┴" "├" "┤" "─" "rounded".

Definition TableStyleDouble : TableStyle :=
  mkTableStyle "╔" "╗" "╚" "╝" "═" "║" "╬" "╦" "╩" "╠" "╣" "═" "double".

Definition TableStyleBold : TableStyle :=
  mkTableStyle "┏" "┓" "┗" "┛" "━" "┃" "╋" "┳" "┻" "┣" "┫" "━" "bold".

Definition TableStyleMinimal : TableStyle :=
  mkTableStyle "" "" "" "" "─" " " " " " " " " "" "" "─" "minimal".

Definition TableStyleCompact : TableStyle :=
  mkTableStyle "" "" "" "" "" " " " " "" "" "" "" "" "compact".

(** [type TableOptions]; [Style] is a pointer that may be nil. *)
Module TableOptions.

Record t : Type := mk {
  HeaderColor  : string;
  BorderColor  : string;
  FooterColor  : string;
  RowColors    : list string;
  Alignment    : list Alignment;
  Padding      : Z;
  ShowBorders  : bool;
  ShowHeader   : bool;
  AutoSize     : bool;
  MinWidth     : Z;
  MaxWidth     : Z;
  ColumnWidths : list Z;
  Style        : option TableStyle
}.

End TableOptions.

(** [type TableOption]: a function that updates the options it is
    given. *)
Definition TableOption : Type := TableOptions.t -> TableOptions.t.

Definition WithTableStyle (style : option TableStyle) : TableOption :=
  fun o =>
    TableOptions.mk (TableOptions.HeaderColor o) (TableOptions.BorderColor o)
      (TableOptions.FooterColor o) (TableOptions.RowColors o)
      (TableOptions.Alignment o) (TableOptions.Padding o)
      (TableOptions.ShowBorders o) (TableOptions.ShowHeader o)
      (TableOptions.AutoSize o) (TableOptions.MinWidth o)
      (TableOptions.MaxWidth o) (TableOptions.ColumnWidths o) style.

Definition WithHeaderColor (c : string) : TableOption :=
  fun o =>
    TableOptions.mk c (TableOptions.BorderColor o)
      (TableOptions.FooterColor o) (TableOptions.RowColors o)
      (TableOptions.Alignment o) (TableOptions.Padding o)
      (TableOptions.ShowBorders o) (TableOptions.ShowHeader o)
      (TableOptions.AutoSize o) (TableOptions.MinWidth o)
      (TableOptions.MaxWidth o) (TableOptions.ColumnWidths o)
      (TableOptions.Style o).

Definition WithBorderColor (c : string) : TableOption :=
  fun o =>
    TableOptions.mk (TableOptions.HeaderColor o) c
      (TableOptions.FooterColor o) (TableOptions.RowColors o)
      (TableOptions.Alignment o) (TableOptions.Padding o)
      (TableOptions.ShowBorders o) (TableOptions.ShowHeader o)
      (TableOptions.AutoSize o) (TableOptions.MinWidth o)
      (TableOptions.MaxWidth o) (TableOptions.ColumnWidths o)
      (TableOptions.Style o).

Definition WithFooterColor (c : string) : TableOption :=
  fun o =>
    TableOptions.mk (TableOptions.HeaderColor o) (TableOptions.BorderColor o)
      c (TableOptions.RowColors o)
      (TableOptions.Alignment o) (TableOptions.Padding o)
      (TableOptions.ShowBorders o) (TableOptions.ShowHeader o)
      (TableOptions.AutoSize o) (TableOptions.MinWidth o)
      (TableOptions.MaxWidth o) (TableOptions.ColumnWidths o)
      (TableOptions.Style o).

Definition WithAlignment (alignments : list Alignment) : TableOption :=
  fun o =>
    TableOptions.mk (TableOptions.HeaderColor o) (TableOptions.BorderColor o)
      (TableOptions.FooterColor o) (TableOptions.RowColors o)
      alignments (TableOptions.Padding o)
      (TableOptions.ShowBorders o) (TableOptions.ShowHeader o)
      (TableOptions.AutoSize o) (TableOptions.MinWidth o)
      (TableOptions.MaxWidth o) (TableOptions.ColumnWidths o)
      (TableOptions.Style o).

Definition WithPadding (padding : Z) : TableOption :=
  fun o =>
    TableOptions.mk (TableOptions.HeaderColor o) (TableOptions.BorderColor o)
      (TableOptions.FooterColor o) (TableOptions.RowColors o)
      (TableOptions.Alignment o) padding
      (TableOptions.ShowBorders o) (TableOptions.ShowHeader o)
      (TableOptions.AutoSize o) (TableOptions.MinWidth o)
      (TableOptions.MaxWidth o) (TableOptions.ColumnWidths o)
      (TableOptions.Style o).

Definition WithColumnWidths (widths : list Z) : TableOption :=
  fun o =>
    TableOptions.mk (TableOptions.HeaderColor o) (TableOptions.BorderColor o)
      (TableOptions.FooterColor o) (TableOptions.RowColors o)
      (TableOptions.Alignment o) (TableOptions.Padding o)
      (TableOptions.ShowBorders o) (TableOptions.ShowHeader o)
      (TableOptions.AutoSize o) (TableOptions.MinWidth o)
      (TableOptions.MaxWidth o) widths
      (TableOptions.Style o).

Definition WithRowColors (colors : list string) : TableOption :=
  fun o =>
    TableOptions.mk (TableOptions.HeaderColor o) (TableOptions.BorderColor o)
      (TableOptions.FooterColor o) colors
      (TableOptions.Alignment o) (TableOptions.Padding o)
      (TableOptions.ShowBorders o) (TableOptions.ShowHeader o)
      (TableOptions.AutoSize o) (TableOptions.MinWidth o)
      (TableOptions.MaxWidth o) (TableOptions.ColumnWidths o)
      (TableOptions.Style o).

Definition WithAutoSize (enabled : bool) : TableOption :=
  fun o =>
    TableOptions.mk (TableOptions.HeaderColor o) (TableOptions.BorderColor o)
      (TableOptions.FooterColor o) (TableOptions.RowColors o)
      (TableOptions.Alignment o) (TableOptions.Padding o)
      (TableOptions.ShowBorders o) (TableOptions.ShowHeader o)
      enabled (TableOptions.MinWidth o)
      (TableOptions.MaxWidth o) (TableOptions.ColumnWidths o)
      (TableOptions.Style o).

(** [type Table].  [style] is never nil once [NewTable] has returned,
    and [options] belongs to the table alone. *)
Record Table : Type := mkTable {
  headers      : list string;
  rows         : list (list string);
  footer       : list string;
  columnWidths : list Z;
  style        : TableStyle;
  options      : TableOptions.t
}.

(** [NewTable(opts...)]. *)
Definition NewTable (opts : list TableOption) : Table :=
  let options :=
    fold_left (fun o opt => opt o) opts
      (TableOptions.mk CyanCode "" WhiteCode [] [] 1 true true true 0 0 []
                       (Some TableStyleRounded)) in
  let style :=
    match TableOptions.Style options with
    | Some st => st
    | None => TableStyleRounded
    end in
  mkTable [] [] [] [] style options.

(** The methods that fill the table change it and return it. *)
Definition SetHeaders (hs : list string) (t : Table) : Table :=
  mkTable hs (rows t) (footer t) (columnWidths t) (style t) (options t).

Definition AddRow (cells : list string) (t : Table) : Table :=
  mkTable (headers t) (rows t ++ [cells])%list (footer t) (columnWidths t)
          (style t) (options t).

Definition AddRows (rs : list (list string)) (t : Table) : Table :=
  mkTable (headers t) (rows t ++ rs)%list (footer t) (columnWidths t)
          (style t) (options t).

Definition SetFooter (cells : list string) (t : Table) : Table :=
  mkTable (headers t) (rows t) cells (columnWidths t) (style t) (options t).

Definition AddStyledRow (cells : list string) (t : Table) : Table :=
  AddRow cells t.

Definition SEPARATOR : string := "__SEPARATOR__".

Definition AddSeparator (t : Table) : Table :=
  mkTable (headers t) (rows t ++ [[SEPARATOR]])%list (footer t)
          (columnWidths t) (style t) (options t).

(** [Clear()]. *)
Definition Clear (t : Table) : Table :=
  mkTable (headers t) [] (footer t) [] (style t) (options t).

(** [RowCount()] and [ColumnCount()]. *)
Definition RowCount (t : Table) : Z := lenSlice (rows t).

Definition ColumnCount (t : Table) : Z :=
  if lenSlice (headers t) >? 0 then lenSlice (headers t)
  else match rows t with
       | row :: _ => lenSlice row
       | [] => 0
       end.

(* ------------------------------------------------------------------ *)
(** *** Panics of the table code *)

(** Besides the run-time panics of [Go.Panic]: a method called on a
    nil interface, and the two panics of [strings.Repeat]. *)
Inductive Crash : Type :=
| Runtime (p : Panic)
| NilDereference
| NegativeRepeatCount
| RepeatOverflow.

Inductive Outcome (A : Type) : Type :=
| Done (a : A)
| Crashed (c : Crash).
Arguments Crashed {A} c.

Definition andThen {A B} (r : Outcome A) (k : A -> Outcome B) : Outcome B :=
  match r with
  | Done a => k a
  | Crashed c => Crashed c
  end.

Notation "'let*' x ':=' r 'in' k" := (andThen r (fun x => k))
  (at level 10, x name, r at level 100, k at level 200).

Definition lift {A} (r : Res A) : Outcome A :=
  match r with
  | Ok a => Done a
  | Panicked p => Crashed (Runtime p)
  end.

Definition isDone {A} (r : Outcome A) : bool :=
  match r with Done _ => true | Crashed _ => false end.

(** [strings.Repeat(s, count)]. *)
Definition Repeat (s : string) (count : Z) : Outcome string :=
  if count <? 0 then Crashed NegativeRepeatCount
  else if MaxInt <? len s * count then Crashed RepeatOverflow
  else Done (repeatStr s (Z.to_nat count)).

(** [strings.Join(parts, "")]. *)
Definition Join (parts : list string) : string := String.concat "" parts.

(** [ws[i] = v] on a slice of widths. *)
Definition store (ws : list Z) (i v : Z) : Outcome (list Z) :=
  if (i <? 0) || (lenSlice ws <=? i) then Crashed (Runtime IndexOutOfRange)
  else Done (setNth (Z.to_nat i) v ws).

(* ------------------------------------------------------------------ *)
(** *** Column widths *)

Definition withWidths (ws : list Z) (t : Table) : Table :=
  mkTable (headers t) (rows t) (footer t) ws (style t) (options t).

(** [determineColumnCount()]. *)
Definition determineColumnCount (t : Table) : Z :=
  if lenSlice (headers t) >? 0 then lenSlice (headers t)
  else match rows t with
       | row :: _ => lenSlice row
       | [] => 0
       end.

(** [useFixedWidths()]: the answer and the table as it leaves it. *)
Definition useFixedWidths (t : Table) : bool * Table :=
  if lenSlice (TableOptions.ColumnWidths (options t)) =? 0 then (false, t)
  else (true, withWidths (TableOptions.ColumnWidths (options t)) t).

(** [initializeWidths(numCols)]: [make([]int, numCols)]. *)
Definition initializeWidths (numCols : Z) (t : Table) : Table :=
  withWidths (repeat 0 (Z.to_nat numCols)) t.

(** The loop of [updateWidthsFromHeaders], from header number [i]. *)
Fixpoint headerWidthsFrom (i : Z) (hs : list string) (ws : list Z)
  : Outcome (list Z) :=
  match hs with
  | [] => Done ws
  | header :: rest =>
      let* ws1 := if i <? lenSlice ws then store ws i (visualWidth header)
                  else Done ws in
      headerWidthsFrom (i + 1) rest ws1
  end.

Definition updateWidthsFromHeaders (t : Table) : Outcome Table :=
  let* ws := headerWidthsFrom 0 (headers t) (columnWidths t) in
  Done (withWidths ws t).

(** [isSeparatorRow(row)]. *)
Definition isSeparatorRow (row : list string) : bool :=
  match row with
  | [c] => (c =? SEPARATOR)%string
  | _ => false
  end.

(** The loop of [updateWidthsFromCells], from cell number [i]. *)
Fixpoint cellWidthsFrom (i : Z) (cells : list string) (numCols : Z)
         (ws : list Z) : Outcome (list Z) :=
  match cells with
  | [] => Done ws
  | cell :: rest =>
      if i >=? numCols then Done ws
      else
        let cellLen := visualWidth cell in
        let* w := lift (index ws i) in
        let* ws1 := if cellLen >? w then store ws i cellLen else Done ws in
        cellWidthsFrom (i + 1) rest numCols ws1
  end.

Definition updateWidthsFromCells (cells : list string) (numCols : Z)
           (t : Table) : Outcome Table :=
  let* ws := cellWidthsFrom 0 cells numCols (columnWidths t) in
  Done (withWidths ws t).

(** The loop of [updateWidthsFromRows] over the rows left. *)
Fixpoint rowWidthsFrom (rs : list (list string)) (numCols : Z) (t : Table)
  : Outcome Table :=
  match rs with
  | [] => Done t
  | row :: rest =>
      if isSeparatorRow row then rowWidthsFrom rest numCols t
      else
        let* t1 := updateWidthsFromCells row numCols t in
        rowWidthsFrom rest numCols t1
  end.

Definition updateWidthsFromRows (numCols : Z) (t : Table) : Outcome Table :=
  rowWidthsFrom (rows t) numCols t.

Definition updateWidthsFromFooter (numCols : Z) (t : Table) : Outcome Table :=
  updateWidthsFromCells (footer t) numCols t.

(** [constrainWidth(width)]. *)
Definition constrainWidth (t : Table) (width : Z) : Z :=
  if (TableOptions.MinWidth (options t) >? 0)
     && (width <? TableOptions.MinWidth (options t))
  then TableOptions.MinWidth (options t)
  else if (TableOptions.MaxWidth (options t) >? 0)
          && (width >? TableOptions.MaxWidth (options t))
  then TableOptions.MaxWidth (options t)
  else width.

Definition applyWidthConstraints (t : Table) : Table :=
  withWidths (map (constrainWidth t) (columnWidths t)) t.

(** [calculateColumnWidths()]. *)
Definition calculateColumnWidths (t : Table) : Outcome Table :=
  if lenSlice (columnWidths t) >? 0 then Done t
  else
    let numCols := determineColumnCount t in
    if numCols =? 0 then Done t
    else
      let '(fixed, t1) := useFixedWidths t in
      if fixed then Done t1
      else
        let t2 := initializeWidths numCols t1 in
        let* t3 := updateWidthsFromHeaders t2 in
        let* t4 := updateWidthsFromRows numCols t3 in
        let* t5 := updateWidthsFromFooter numCols t4 in
        Done (applyWidthConstraints t5).

(** [getAlignment(col)]. *)
Definition getAlignment (t : Table) (col : Z) : Outcome Alignment :=
  if col <? lenSlice (TableOptions.Alignment (options t))
  then lift (index (TableOptions.Alignment (options t)) col)
  else Done AlignLeft.

(* ------------------------------------------------------------------ *)
(** *** Colours of the table *)

(** [tableIsColorEnabled()]: the error of [Stat] is dropped and [Mode]
    called on the [FileInfo], which is nil when [Stat] failed. *)
Definition tableIsColorEnabled (e : Env) : Outcome bool :=
  match stdoutStat e with
  | None => Crashed NilDereference
  | Some mode =>
      if Z.land mode ModeCharDevice =? 0 then Done false
      else if negb (getenv e "NO_COLOR" =? "")%string then Done false
      else if negb (getenv e "CI" =? "")%string then Done false
      else Done true
  end.

(** [tableColorize(text, color)]. *)
Definition tableColorize (e : Env) (text color : string) : Outcome string :=
  let* enabled := tableIsColorEnabled e in
  if negb enabled || (color =? "")%string then Done text
  else Done (color ++ text ++ ESC ++ "[0m").

(** The method [colorize(text, color)] of [Table]; the receiver is
    not used. *)
Definition Table_colorize (e : Env) (text color : string) : Outcome string :=
  if (color =? "")%string then Done text
  else tableColorize e text color.

(* ------------------------------------------------------------------ *)
(** *** Lines of the table *)

(** The loop of [buildBorder], from column number [i]. *)
Fixpoint borderPartsFrom (t : Table) (i : Z) (ws : list Z)
         (cross horizontal : string) (parts : list string)
  : Outcome (list string) :=
  match ws with
  | [] => Done parts
  | width :: rest =>
      let* bar :=
        Repeat horizontal
               (wrap (width + wrap (2 * TableOptions.Padding (options t)))) in
      let parts1 := (parts ++ [bar])%list in
      let parts2 := if i <? lenSlice (columnWidths t) - 1
                    then (parts1 ++ [cross])%list else parts1 in
      borderPartsFrom t (i + 1) rest cross horizontal parts2
  end.

(** [buildBorder(left, cross, right, horizontal)]. *)
Definition buildBorder (e : Env) (t : Table)
           (left cross right horizontal : string) : Outcome string :=
  if negb (TableOptions.ShowBorders (options t)) || (left =? "")%string
  then Done ""
  else
    let* parts :=
      borderPartsFrom t 0 (columnWidths t) cross horizontal [left] in
    let line := Join (parts ++ [right])%list in
    Table_colorize e line (TableOptions.BorderColor (options t)).

(** [getVerticalBorder()]. *)
Definition getVerticalBorder (e : Env) (t : Table) : Outcome string :=
  if negb (TableOptions.ShowBorders (options t)) then Done ""
  else Table_colorize e (Vertical (style t))
                      (TableOptions.BorderColor (options t)).

(** [getCellContent(cells, index)]. *)
Definition getCellContent (cells : list string) (i : Z) : Outcome string :=
  if i <? lenSlice cells then lift (index cells i) else Done "".

(** [colorizeCell(cell, color)]. *)
Definition colorizeCell (e : Env) (cell color : string) : Outcome string :=
  if (color =? "")%string || contains cell (ESC ++ "[") then Done cell
  else Table_colorize e cell color.

(** [formatCell(displayCell, columnIndex)]. *)
Definition formatCell (t : Table) (displayCell : string) (columnIndex : Z)
  : Outcome string :=
  let* padding := Repeat " " (TableOptions.Padding (options t)) in
  let* width := lift (index (columnWidths t) columnIndex) in
  let* alignment := getAlignment t columnIndex in
  Done (padding ++ alignText displayCell width alignment ++ padding).

(** [shouldAddVerticalBorder(columnIndex)]. *)
Definition shouldAddVerticalBorder (t : Table) (columnIndex : Z) : bool :=
  TableOptions.ShowBorders (options t)
  && (columnIndex <? lenSlice (columnWidths t) - 1).

(** The loop of [appendCellParts]: [n] more columns, from number [i]. *)
Fixpoint cellPartsFrom (e : Env) (t : Table) (n : nat) (i : Z)
         (parts cells : list string) (color verticalBorder : string)
  : Outcome (list string) :=
  match n with
  | O => Done parts
  | S k =>
      let* cell := getCellContent cells i in
      let* displayCell := colorizeCell e cell color in
      let* formattedCell := formatCell t displayCell i in
      let parts1 := (parts ++ [formattedCell])%list in
      let parts2 := if shouldAddVerticalBorder t i
                    then (parts1 ++ [verticalBorder])%list else parts1 in
      cellPartsFrom e t k (i + 1) parts2 cells color verticalBorder
  end.

Definition appendCellParts (e : Env) (t : Table) (parts cells : list string)
           (color verticalBorder : string) : Outcome (list string) :=
  cellPartsFrom e t (List.length (columnWidths t)) 0 parts cells color
                verticalBorder.

(** [buildRowParts(cells, color, verticalBorder)]. *)
Definition buildRowParts (e : Env) (t : Table) (cells : list string)
           (color verticalBorder : string) : Outcome (list string) :=
  let parts := if TableOptions.ShowBorders (options t)
               then [verticalBorder] else [] in
  let* parts1 := appendCellParts e t parts cells color verticalBorder in
  Done (if TableOptions.ShowBorders (options t)
        then (parts1 ++ [verticalBorder])%list else parts1).

(** [buildRow(cells, color)]. *)
Definition buildRow (e : Env) (t : Table) (cells : list string)
           (color : string) : Outcome string :=
  if lenSlice cells =? 0 then Done ""
  else if isSeparatorRow cells
  then buildBorder e t (LeftCross (style t)) (Cross (style t))
                   (RightCross (style t)) (Horizontal (style t))
  else
    let* verticalBorder := getVerticalBorder e t in
    let* parts := buildRowParts e t cells color verticalBorder in
    Done (Join parts).

(** [getRowColor(rowIndex)]. *)
Definition getRowColor (t : Table) (rowIndex : Z) : Outcome string :=
  if lenSlice (TableOptions.RowColors (options t)) =? 0 then Done ""
  else
    let* i := lift (modulo rowIndex
                           (lenSlice (TableOptions.RowColors (options t)))) in
    lift (index (TableOptions.RowColors (options t)) i).

(* ------------------------------------------------------------------ *)
(** *** The whole table *)

(** The [write...] methods append to the [strings.Builder]; here they
    take what it holds and return what it holds afterwards. *)
Definition writeTopBorder (e : Env) (t : Table) (output : string)
  : Outcome string :=
  if negb (TableOptions.ShowBorders (options t))
     || (TopLeft (style t) =? "")%string
  then Done output
  else
    let* line := buildBorder e t (TopLeft (style t)) (TopCross (style t))
                             (TopRight (style t)) (Horizontal (style t)) in
    Done (output ++ line ++ LF).

Definition writeHeaderSeparator (e : Env) (t : Table) (output : string)
  : Outcome string :=
  if negb (TableOptions.ShowBorders (options t))
     || (HeaderSeparator (style t) =? "")%string
  then Done output
  else
    let* line := buildBorder e t (LeftCross (style t)) (Cross (style t))
                             (RightCross (style t))
                             (HeaderSeparator (style t)) in
    Done (output ++ line ++ LF).

Definition writeHeader (e : Env) (t : Table) (output : string)
  : Outcome string :=
  if negb (TableOptions.ShowHeader (options t))
     || (lenSlice (headers t) =? 0)
  then Done output
  else
    let* headerRow :=
      buildRow e t (headers t) (TableOptions.HeaderColor (options t)) in
    writeHeaderSeparator e t (output ++ headerRow ++ LF).

Definition writeRow (e : Env) (t : Table) (output : string)
           (row : list string) (rowIndex : Z) : Outcome string :=
  if isSeparatorRow row
  then
    let* line := buildRow e t row "" in
    Done (output ++ line ++ LF)
  else
    let* rowColor := getRowColor t rowIndex in
    let* line := buildRow e t row rowColor in
    Done (output ++ line ++ LF).

(** The loop of [writeRows], from row number [i]. *)
Fixpoint writeRowsFrom (e : Env) (t : Table) (i : Z)
         (rs : list (list string)) (output : string) : Outcome string :=
  match rs with
  | [] => Done output
  | row :: rest =>
      let* output1 := writeRow e t output row i in
      writeRowsFrom e t (i + 1) rest output1
  end.

Definition writeRows (e : Env) (t : Table) (output : string)
  : Outcome string :=
  writeRowsFrom e t 0 (rows t) output.

Definition writeFooterSeparator (e : Env) (t : Table) (output : string)
  : Outcome string :=
  if negb (TableOptions.ShowBorders (options t))
     || (HeaderSeparator (style t) =? "")%string
  then Done output
  else
    let* line := buildBorder e t (LeftCross (style t)) (Cross (style t))
                             (RightCross (style t))
                             (HeaderSeparator (style t)) in
    Done (output ++ line ++ LF).

Definition writeFooter (e : Env) (t : Table) (output : string)
  : Outcome string :=
  if lenSlice (footer t) =? 0 then Done output
  else
    let* output1 := writeFooterSeparator e t output in
    let* line :=
      buildRow e t (footer t) (TableOptions.FooterColor (options t)) in
    Done (output1 ++ line ++ LF).

Definition writeBottomBorder (e : Env) (t : Table) (output : string)
  : Outcome string :=
  if negb (TableOptions.ShowBorders (options t))
     || (BottomLeft (style t) =? "")%string
  then Done output
  else
    let* line := buildBorder e t (BottomLeft (style t))
                             (BottomCross (style t)) (BottomRight (style t))
                             (Horizontal (style t)) in
    Done (output ++ line ++ LF).

(** [String()]: the table as the call leaves it, and the text. *)
Definition String_ (e : Env) (t : Table) : Outcome (Table * string) :=
  let* t1 := calculateColumnWidths t in
  let* o1 := writeTopBorder e t1 "" in
  let* o2 := writeHeader e t1 o1 in
  let* o3 := writeRows e t1 o2 in
  let* o4 := writeFooter e t1 o3 in
  let* o5 := writeBottomBorder e t1 o4 in
  Done (t1, o5).

(* ------------------------------------------------------------------ *)
(** *** Vocabulary of the table's properties *)

(** The rows that are measured: the headers, the rows that are not
    separators, and the footer. *)
Definition measured (t : Table) : list (list string) :=
  (headers t :: filter (fun row => negb (isSeparatorRow row)) (rows t)
     ++ [footer t])%list.

(** The visual widths of the cells that the rows [rs] have in column
    [i], and the largest of them. *)
Definition columnCells (rs : list (list string)) (i : nat) : list Z :=
  flat_map (fun row => match nth_error row i with
                       | Some cell => [visualWidth cell]
                       | None => []
                       end) rs.

Definition widestIn (rs : list (list string)) (i : nat) : Z :=
  fold_right Z.max 0 (columnCells rs i).

Definition widest (t : Table) (i : nat) : Z := widestIn (measured t) i.

(** The widths [ws] after the cells of a row have been measured
    against them, column by column. *)
Fixpoint raise (ws : list Z) (cells : list string) : list Z :=
  match ws, cells with
  | w :: ws', cell :: rest => Z.max w (visualWidth cell) :: raise ws' rest
  | _, _ => ws
  end.

(** The widths [ws] after the headers have been written into them. *)
Fixpoint assign (ws : list Z) (hs : list string) : list Z :=
  match ws, hs with
  | _ :: ws', header :: rest => visualWidth header :: assign ws' rest
  | _, _ => ws
  end.

(** A sample table. *)
Definition people : Table :=
  AddRow ["Bob"; "31"; "extra"]
    (AddSeparator
       (AddRow ["Alice"; "28"]
          (SetHeaders ["Name"; "Age"]
             (NewTable [WithTableStyle (Some TableStyleSimple)])))).

(** The text of a call of [String()] that returned. *)
Definition textOf (r : Outcome (Table * string)) : string :=
  match r with
  | Done (_, s) => s
  | Crashed _ => ""
  end.

(** A table with two fixed widths and three headers. *)
Definition fixedTwo : Table :=
  AddRow ["1"; "2"; "3"]
    (SetHeaders ["a"; "b"; "c"]
       (NewTable [WithTableStyle (Some TableStyleSimple);
                  WithColumnWidths [4; 2]])).


(** A row with something to format: neither empty nor a separator. *)
Definition hasCells (row : list string) : bool :=
  negb (lenSlice row =? 0) && negb (isSeparatorRow row).

(** A table with a header and a negative padding. *)
Definition squeezed : Table :=
  SetHeaders ["Name"] (NewTable [WithPadding (-1)]).

(** Numbers far from the ends of [int]. *)
Definition small (z : Z) : Prop := 0 <= z < 2 ^ 30.

(** What the method [colorize] returns when the terminal test answers
    [enabled], and what [colorizeCell] returns. *)
Definition shownText (enabled : bool) (text color : string) : string :=
  if (color =? "")%string then text
  else if enabled then color ++ text ++ ESC ++ "[0m" else text.

Definition shownCell (enabled : bool) (cell color : string) : string :=
  if (color =? "")%string || contains cell (ESC ++ "[") then cell
  else shownText enabled cell color.

(** The cell of column [j] of a row, padded and aligned. *)
Definition formatted (t : Table) (enabled : bool) (cells : list string)
           (color : string) (j : nat) : string :=
  repeatStr " " (Z.to_nat (TableOptions.Padding (options t)))
  ++ alignText (shownCell enabled (nth j cells "") color)
               (nth j (columnWidths t) 0)
               (nth j (TableOptions.Alignment (options t)) AlignLeft)
  ++ repeatStr " " (Z.to_nat (TableOptions.Padding (options t))).

(** The parts of a row for the columns [js]. *)
Definition cellParts (t : Table) (enabled : bool) (cells : list string)
           (color verticalBorder : string) (js : list nat) : list string :=
  flat_map (fun j =>
              formatted t enabled cells color j
              :: if shouldAddVerticalBorder t (Z.of_nat j)
                 then [verticalBorder] else [])
           js.

(** The line of a row that is neither empty nor a separator. *)
Definition rowLine (t : Table) (enabled : bool) (cells : list string)
           (color : string) : string :=
  let vb := if TableOptions.ShowBorders (options t)
            then shownText enabled (Vertical (style t))
                           (TableOptions.BorderColor (options t))
            else "" in
  let edge := if TableOptions.ShowBorders (options t) then [vb] else [] in
  Join (edge
          ++ cellParts t enabled cells color vb
                       (seq 0 (List.length (columnWidths t)))
          ++ edge)%list.

(** The parts of a border over the columns of widths [ws]. *)
Fixpoint bars (t : Table) (ws : list Z) (cross horizontal : string)
  : list string :=
  match ws with
  | [] => []
  | w :: rest =>
      (repeatStr horizontal
                 (Z.to_nat (w + 2 * TableOptions.Padding (options t)))
         :: match rest with [] => [] | _ :: _ => [cross] end
         ++ bars t rest cross horizontal)%list
  end.

(** The line of a border that is shown. *)
Definition borderLine (t : Table) (enabled : bool)
           (left cross right horizontal : string) : string :=
  shownText enabled
    (Join ([left] ++ bars t (columnWidths t) cross horizontal ++ [right])%list)
    (TableOptions.BorderColor (options t)).

(** The line [buildRow] gives for any row. *)
Definition lineOf (t : Table) (enabled : bool) (cells : list string)
           (color : string) : string :=
  if lenSlice cells =? 0 then ""
  else if isSeparatorRow cells
  then if negb (TableOptions.ShowBorders (options t))
          || (LeftCross (style t) =? "")%string
       then ""
       else borderLine t enabled (LeftCross (style t)) (Cross (style t))
                       (RightCross (style t)) (Horizontal (style t))
  else rowLine t enabled cells color.

(** Text that does not end inside an escape sequence. *)
Definition closed (s : string) : Prop := openAfter false s = false.

(** The visual width of the lines of a table with borders whose
    border strings are one column wide: the two edges, the columns
    with their padding, and the borders between the columns. *)
Definition lineWidth (t : Table) : Z :=
  2 + fold_right (fun w acc => w + 2 * TableOptions.Padding (options t) + acc)
                 0 (columnWidths t)
    + Z.max 0 (lenSlice (columnWidths t) - 1).

(** The visual widths of the parts of a line, added up. *)
Definition total (parts : list string) : Z :=
  fold_right (fun s acc => visualWidth s + acc) 0 parts.


(** The table with its [AutoSize] option set to [enabled]. *)
Definition setAutoSize (enabled : bool) (t : Table) : Table :=
  mkTable (headers t) (rows t) (footer t) (columnWidths t) (style t)
          (WithAutoSize enabled (options t)).

(** The result of a call on the table with [AutoSize] set, from the
    result of the call on the table as it is. *)
Definition withAutoSize {A} (enabled : bool) (r : Outcome (Table * A))
  : Outcome (Table * A) :=
  match r with
  | Done (t, a) => Done (setAutoSize enabled t, a)
  | Crashed c => Crashed c
  end.


(** A table with three row colours. *)
Definition striped : Table :=
  NewTable [WithRowColors [RedCode; GreenCode; BlueCode]].

(* ================================================================== *)
(** * Properties *)

(** ** Strings *)

Lemma prefix_split (sub s : string) :
  String.prefix sub s = true <-> exists post, s = sub ++ post.
Proof.
  revert s. induction sub as [|c sub IH]; intros s.
  - destruct s; cbn; (split; [intros _; eexists; reflexivity | reflexivity]).
  - destruct s as [|d s]; cbn.
    + split; [discriminate | intros [post H]; discriminate].
    + destruct (Ascii.ascii_dec c d) as [->|Hne].
      * rewrite IH. split; intros [post H]; exists post.
        -- now rewrite H.
        -- now inversion H.
      * split; [discriminate | intros [post H]; inversion H; congruence].
Qed.

(** [strings.Contains] finds exactly the substrings. *)
Lemma contains_spec (s sub : string) :
  contains s sub = true <-> exists pre post, s = pre ++ sub ++ post.
Proof.
  induction s as [|c s IH]; cbn [contains].
  - rewrite orb_false_r, prefix_split. split.
    + intros [post H]. exists "", post. exact H.
    + intros [pre [post H]]. destruct pre; cbn in H.
      * exists post. exact H.
      * discriminate.
  - rewrite orb_true_iff, prefix_split, IH. split.
    + intros [[post H] | [pre [post H]]].
      * exists "", post. exact H.
      * exists (String c pre), post. cbn. now rewrite H.
    + intros [pre [post H]]. destruct pre as [|d pre]; cbn in H.
      * left. exists post. exact H.
      * right. inversion H. exists pre, post. reflexivity.
Qed.

Lemma append_assoc (a b c : string) : (a ++ b) ++ c = a ++ (b ++ c).
Proof. induction a as [|x a IH]; cbn; [reflexivity | now rewrite IH]. Qed.

Lemma append_nil_r (a : string) : a ++ "" = a.
Proof. induction a as [|x a IH]; cbn; [reflexivity | now rewrite IH]. Qed.

Lemma len_append (a b : string) : len (a ++ b) = len a + len b.
Proof.
  unfold len. induction a as [|x a IH]; cbn [append String.length].
  - reflexivity.
  - rewrite !Nat2Z.inj_succ. lia.
Qed.

Lemma len_repeatStr_space (n : nat) : len (repeatStr " " n) = Z.of_nat n.
Proof.
  induction n as [|n IH]; cbn [repeatStr].
  - reflexivity.
  - rewrite len_append, IH. change (len " ") with 1. lia.
Qed.

(* ------------------------------------------------------------------ *)
(** ** The colour policy *)

Lemma isTerminal_spec (e : Env) :
  isTerminal e = true <->
  exists mode, stdoutStat e = Some mode /\ Z.land mode ModeCharDevice <> 0.
Proof.
  unfold isTerminal, value, isTerminalM, bind, ask, ret.
  destruct (stdoutStat e) as [mode|]; cbn.
  - rewrite negb_true_iff, Z.eqb_neq. split.
    + intros H. exists mode. split; [reflexivity | exact H].
    + intros [m [Hm H]]. inversion Hm. subst. exact H.
  - split; [discriminate | intros [m [Hm _]]; discriminate].
Qed.

Lemma isCI_spec (e : Env) :
  isCI e = true <-> getenv e "CI" = "true" \/ getenv e "CI" = "1".
Proof.
  unfold isCI, value, isCIM, bind, ask, ret. cbn.
  now rewrite orb_true_iff, !String.eqb_eq.
Qed.

Lemma isWindowsColorSupported_windowsAnsi (e : Env) :
  isWindowsColorSupported e = windowsAnsi e.
Proof.
  unfold isWindowsColorSupported, windowsAnsi, value, isWindowsColorSupportedM,
    bind, ask, ret.
  cbn.
  destruct (contains (getenv e "TERM") "xterm"); cbn; [reflexivity|].
  destruct (contains (getenv e "TERM") "256color"); cbn; reflexivity.
Qed.

Lemma windowsAnsi_spec (e : Env) :
  windowsAnsi e = true <->
  Substring "xterm" (getenv e "TERM") \/
  Substring "256color" (getenv e "TERM") \/
  getenv e "WT_SESSION" <> "".
Proof.
  unfold windowsAnsi, Substring.
  rewrite !orb_true_iff, !contains_spec, negb_true_iff, String.eqb_neq.
  tauto.
Qed.

(** Case analysis on everything a policy query reads, in the order it
    reads it. *)
Ltac tidy := cbv beta iota zeta delta [fst snd app negb orb andb].

Ltac policy_cases e :=
  let mode := fresh "mode" in
  tidy;
  destruct (forceColors e) as [[|]|]; tidy; try reflexivity;
  destruct (noColor e); tidy; try reflexivity;
  (destruct (stdoutStat e) as [mode|]; tidy; try reflexivity;
   destruct (Z.land mode ModeCharDevice =? 0); tidy; try reflexivity);
  destruct (getenv e "CI" =? "true")%string; tidy; try reflexivity;
  destruct (getenv e "CI" =? "1")%string; tidy; try reflexivity;
  destruct (GOOS e =? "windows")%string; tidy; try reflexivity;
  destruct (contains (getenv e "TERM") "xterm"); tidy; try reflexivity;
  destruct (contains (getenv e "TERM") "256color"); tidy; try reflexivity;
  destruct (getenv e "WT_SESSION" =? "")%string; reflexivity.

Lemma isColorEnabled_unfold (e : Env) :
  isColorEnabled e =
  match forceColors e with
  | Some b => b
  | None =>
      negb (noColor e) && isTerminal e && negb (isCI e)
      && (negb (onWindows e) || windowsAnsi e)
  end.
Proof.
  unfold isColorEnabled, isTerminal, isCI, windowsAnsi, onWindows,
    value, isColorEnabledM, isWindowsColorSupportedM, isCIM, isTerminalM,
    bind, ask, ret.
  policy_cases e.
Qed.

Lemma probes_unfold (e : Env) :
  probes isColorEnabledM e = flat_map (consults e) (upToDecisive e priority).
Proof.
  unfold probes, isColorEnabledM, isCIM, isTerminalM, isWindowsColorSupportedM,
    bind, ask, ret, priority, upToDecisive, decisive, consults, isTerminal, isCI,
    onWindows, value, isCIM, isTerminalM, bind, ask, ret.
  policy_cases e.
Qed.

Lemma verdict_unfold (e : Env) :
  isColorEnabled e = verdict e (last (upToDecisive e priority) SigPlatform).
Proof.
  rewrite isColorEnabled_unfold.
  unfold priority, upToDecisive, decisive, verdict.
  destruct (forceColors e); [reflexivity|].
  destruct (noColor e); [reflexivity|].
  destruct (isTerminal e); [|reflexivity].
  destruct (isCI e); reflexivity.
Qed.

(** C1. [isColorEnabled] answers true exactly when the override is set
    to true, or the override is unset, NO_COLOR is absent, stdout is a
    terminal, no CI signal is present, and the system is not Windows or
    a Windows ANSI signal is present (TERM contains "xterm" or
    "256color", or WT_SESSION is non-empty).  The signals are read in
    that priority order and no further than the first decisive one,
    whose verdict is the answer. *)
Theorem isColorEnabled_priority_order (e : Env) :
  (isColorEnabled e = true <->
     forceColors e = Some true \/
     (forceColors e = None /\
      noColor e = false /\
      isTerminal e = true /\
      isCI e = false /\
      (GOOS e <> "windows" \/
       Substring "xterm" (getenv e "TERM") \/
       Substring "256color" (getenv e "TERM") \/
       getenv e "WT_SESSION" <> "")))
  /\ probes isColorEnabledM e = flat_map (consults e) (upToDecisive e priority)
  /\ isColorEnabled e = verdict e (last (upToDecisive e priority) SigPlatform).
Proof.
  split; [|split; [apply probes_unfold | apply verdict_unfold]].
  rewrite isColorEnabled_unfold, <- windowsAnsi_spec.
  unfold onWindows.
  rewrite <- String.eqb_neq.
  destruct (forceColors e) as [[|]|].
  - split; auto.
  - split; [discriminate|]. intros [H|[H _]]; discriminate.
  - rewrite !andb_true_iff, orb_true_iff, !negb_true_iff.
    split.
    + intros [[[? ?] ?] ?]. right. tauto.
    + intros [H|H]; [discriminate|]. tauto.
Qed.

Example policy_on_sample_environments :
  isColorEnabled linuxTerminal = true /\
  isColorEnabled (forced false) = false /\
  isColorEnabled (windowsTerminal "" "") = false /\
  isColorEnabled (windowsTerminal "xterm-256color" "") = true /\
  isColorEnabled (windowsTerminal "dumb" "0a1b") = true /\
  probes isColorEnabledM (forced true) = [ReadForceColors] /\
  probes isColorEnabledM (windowsTerminal "xterm" "")
  = [ReadForceColors; ReadNoColor; StatStdout; Getenv "CI"; ReadGOOS;
     Getenv "TERM"] /\
  probes isColorEnabledM (windowsTerminal "dumb" "")
  = [ReadForceColors; ReadNoColor; StatStdout; Getenv "CI"; ReadGOOS;
     Getenv "TERM"; Getenv "WT_SESSION"].
Proof. repeat split. Qed.
(* ------------------------------------------------------------------ *)
(** ** colorize *)

Lemma fold_left_append (codes : list string) (acc : string) :
  fold_left (fun result code => result ++ code) codes acc
  = acc ++ concatAll codes.
Proof.
  revert acc. induction codes as [|c codes IH]; intros acc; cbn.
  - now rewrite append_nil_r.
  - now rewrite IH, append_assoc.
Qed.

(** C2. With the policy enabled [colorize] returns the codes in order,
    then the text, then one reset code; with the policy disabled it
    returns the text as it is. *)
Theorem colorize_enabled_or_plain (e : Env) (text : string) (codes : list string) :
  colorize e text codes
  = (if isColorEnabled e then concatAll codes ++ text ++ Reset else text)
  /\ colorize (forced true) "x" ["A"; "B"] = "AB" ++ "x" ++ Reset
  /\ colorize (forced false) "x" ["A"; "B"] = "x".
Proof.
  split; [|split; reflexivity].
  unfold colorize. destruct (isColorEnabled e); cbn [negb].
  - now rewrite fold_left_append.
  - reflexivity.
Qed.

(* ------------------------------------------------------------------ *)
(** ** What a rendering goroutine can and cannot change *)

Lemma callsOf_app (f : Formatter) (a b : list Event) :
  callsOf f (a ++ b) = (callsOf f a ++ callsOf f b)%list.
Proof.
  induction a as [|ev a IH]; cbn; [reflexivity|].
  destruct ev as [t|g arg line]; [exact IH|].
  destruct f, g; cbn; now rewrite IH.
Qed.

Lemma newEvents_app (w w' : World) (evs : list Event) :
  out w' = (out w ++ evs)%list -> newEvents w w' = evs.
Proof.
  intros H. unfold newEvents. rewrite H.
  rewrite skipn_app, skipn_all, Nat.sub_diag. reflexivity.
Qed.

Lemma callsOf_plain (f : Formatter) (evs : list Event) :
  Forall plain evs -> callsOf f evs = [].
Proof.
  induction 1 as [|ev evs [t ->] _ IH]; cbn; [reflexivity | exact IH].
Qed.

Lemma render_fields (e : Env) (s s' : Spinner) (o : string) :
  render e s = Ok (s', o) ->
  message s' = message s /\ frames s' = frames s /\ stop s' = stop s /\
  running s' = running s /\ color s' = color s /\ speed s' = speed s /\
  current s' = wrap (current s + 1) /\ lastOutput s' = o /\
  len (lastOutput s) <= len o.
Proof.
  unfold render.
  destruct (frameIndex s) as [i|p]; cbn [bindRes]; [|discriminate].
  destruct (index (frames s) i) as [frame|p]; cbn [bindRes]; [|discriminate].
  intros H. inversion H; subst; clear H. cbn.
  repeat (split; [reflexivity|]).
  match goal with |- context [if ?c then _ else _] => destruct c eqn:Hc end.
  - rewrite len_append, len_repeatStr_space.
    apply Z.gtb_lt in Hc. lia.
  - rewrite Z.gtb_ltb in Hc. apply Z.ltb_ge in Hc. exact Hc.
Qed.

Lemma drift_refl (w : World) : drift w w.
Proof.
  constructor; try reflexivity; try lia.
  exists []. now rewrite app_nil_r.
Qed.

Lemma drift_trans (a b c : World) : drift a b -> drift b c -> drift a c.
Proof.
  intros [] []. constructor; try congruence; try lia.
  destruct drift_out0 as [e1 [H1 F1]], drift_out1 as [e2 [H2 F2]].
  exists (e1 ++ e2)%list. split.
  - now rewrite H2, H1, app_assoc.
  - apply Forall_app. now split.
Qed.

Lemma plain_cursor (b : bool) (t : string) :
  Forall plain (if b then [Fprint t] else []).
Proof. destruct b; repeat constructor. now exists t. Qed.

Lemma task_step_drift (w w' : World) : task_step w w' -> drift w w'.
Proof.
  intros [i [a H]]. unfold taskStep in H.
  destruct (nth_error (tasks w) i) as [[|]|]; destruct a; try discriminate.
  - destruct (speed (sp w) <=? 0); [discriminate|].
    inversion H; subst; clear H.
    constructor; cbn; try reflexivity; try lia.
    eexists. split; [reflexivity | apply plain_cursor].
  - destruct (stop (sp w)) as [|x rest]; [discriminate|].
    inversion H; subst; clear H.
    constructor; cbn; try reflexivity; try lia.
    eexists. split; [reflexivity | apply plain_cursor].
  - destruct (render (env w) (sp w)) as [[s' o]|p] eqn:R; cbn in H;
      [|discriminate].
    inversion H; subst; clear H.
    apply render_fields in R. destruct R as (?&?&?&?&?&?&?&?&?).
    constructor; cbn; try assumption; try reflexivity; try congruence.
    eexists. split; [reflexivity|]. repeat constructor. now eexists.
Qed.

Lemma background_drift (w w' : World) : background w w' -> drift w w'.
Proof.
  induction 1 as [w | w w1 w2 S _ IH].
  - apply drift_refl.
  - eapply drift_trans; [apply task_step_drift; exact S | exact IH].
Qed.

(* ------------------------------------------------------------------ *)
(** ** Stop and StopWithError *)

Lemma maxInt_max (a b : Z) : maxInt a b = Z.max a b.
Proof.
  unfold maxInt. destruct (a >? b) eqn:H.
  - apply Z.gtb_lt in H. lia.
  - rewrite Z.gtb_ltb in H. apply Z.ltb_ge in H. lia.
Qed.

Lemma report_out (k : StopKind) (msg : string) (w : World) :
  out (report k msg w) = (out w ++ reportEvents k msg (env w))%list
  /\ sp (report k msg w) = sp w
  /\ env (report k msg w) = env w
  /\ tasks (report k msg w) = tasks w.
Proof.
  destruct k; cbn; unfold stopReport, stopReportError.
  - destruct (msg =? "")%string; cbn; rewrite ?app_nil_r; auto.
  - cbn. auto.
Qed.

(** A stopping call returns: the run in which no goroutine is scheduled
    meanwhile is one of its runs. *)
Lemma stopRun_alone (k : StopKind) (msg : string) (w : World) :
  stopRun k msg w (stopAlone k msg w).
Proof.
  unfold stopAlone. destruct (running (sp w)) eqn:R.
  - eapply stopRun_running; try exact R; apply rt1n_refl.
  - now apply stopRun_idle.
Qed.

(** The shape of everything a stopping call on a running spinner
    writes: goroutine output, the erasing write sized in the world [wm]
    where [clearLength] was measured, goroutine output, the report. *)
Lemma stopRun_running_out (k : StopKind) (msg : string) (w w' : World) :
  running (sp w) = true ->
  stopRun k msg w w' ->
  exists wm pre post,
    message (sp wm) = message (sp w) /\
    len (lastOutput (sp w)) <= len (lastOutput (sp wm)) /\
    Forall plain pre /\ Forall plain post /\
    out w' = (out w ++ pre ++ [Fprint (clearLine (clearLength (sp wm)))]
                ++ post ++ reportEvents k msg (env w))%list /\
    running (sp w') = false /\
    env w' = env w.
Proof.
  intros R H. destruct H as [w Hidle | w w1 w2 w3 w4 _ B1 B2 B3 B4];
    [congruence|].
  apply background_drift in B1, B2, B3, B4.
  destruct B1 as [E1 R1 M1 _ _ _ W1 [e1 [O1 P1]]].
  destruct B2 as [E2 R2 M2 _ _ _ W2 [e2 [O2 P2]]].
  destruct B3 as [E3 R3 M3 _ _ _ W3 [e3 [O3 P3]]].
  destruct B4 as [E4 R4 M4 _ _ _ W4 [e4 [O4 P4]]].
  assert (Hsig : sp (stopSignal w1) = sp w1 \/
                 sp (stopSignal w1)
                 = setStop (stop (sp w1) ++ [true])%list (sp w1)).
  { unfold stopSignal. destruct (_ <? _)%nat; cbn; auto. }
  assert (Hsig' : running (sp (stopSignal w1)) = running (sp w1) /\
                  message (sp (stopSignal w1)) = message (sp w1) /\
                  lastOutput (sp (stopSignal w1)) = lastOutput (sp w1) /\
                  out (stopSignal w1) = out w1 /\
                  env (stopSignal w1) = env w1).
  { unfold stopSignal. destruct (_ <? _)%nat; cbn; auto. }
  clear Hsig. destruct Hsig' as (SR & SM & SL & SO & SE).
  destruct (report_out k msg w4) as (RO & RS & RE & _).
  cbn in *.
  exists w2, (e1 ++ e2 ++ e3)%list, e4.
  repeat split.
  - congruence.
  - rewrite SL in W2. lia.
  - repeat (apply Forall_app; split); assumption.
  - assumption.
  - rewrite RO, O4, O3, O2, SO, O1, E4, E3, E2, SE, E1.
    rewrite <- !app_assoc. reflexivity.
  - rewrite RS, R4, R3, R2, SR, R1. reflexivity.
  - congruence.
Qed.

Lemma stopAlone_out (k : StopKind) (msg : string) (w : World) :
  running (sp w) = true ->
  out (stopAlone k msg w)
  = (out w ++ Fprint (clearLine (clearLength (sp w)))
       :: reportEvents k msg (env w))%list.
Proof.
  intros R. unfold stopAlone. rewrite R.
  set (w2 := stopSignal (stopFlip w)).
  assert (H : out w2 = out w /\ env w2 = env w /\
              clearLength (sp w2) = clearLength (sp w)).
  { unfold w2, stopSignal. destruct (_ <? _)%nat; cbn; auto. }
  destruct H as (O & E & C).
  destruct (report_out k msg (stopErase (clearLength (sp w2)) w2)) as (RO & _).
  rewrite RO. cbn. rewrite O, E, C, <- app_assoc. reflexivity.
Qed.

(** C3 (as the code has it). A stopping call on a running spinner
    erases the line with one write: a carriage return, [n] spaces and a
    carriage return, where [n] is the larger of the last rendered width
    at the time of measuring and the length of the spinner's own
    [message] field plus 10 -- the argument of the call plays no part.
    Only goroutine writes precede it, and [n] is at least the larger of
    the width and of [len(s.message)+10] as they were at the call; when
    no goroutine runs during the call, [n] is exactly that. *)
Theorem Stop_erases_spinner_line :
  forall (k : StopKind) (msg : string) (w w' : World),
    running (sp w) = true ->
    stopRun k msg w w' ->
    (exists width pre post,
        len (lastOutput (sp w)) <= width /\
        Forall plain pre /\
        newEvents w w'
        = (pre ++ Fprint (CR ++ repeatStr " "
                            (Z.to_nat (Z.max width (len (message (sp w)) + 10)))
                            ++ CR) :: post)%list /\
        Z.max (len (lastOutput (sp w))) (len (message (sp w)) + 10)
        <= Z.max width (len (message (sp w)) + 10)) /\
    newEvents w (stopAlone k msg w)
    = Fprint (CR ++ repeatStr " "
                (Z.to_nat (Z.max (len (lastOutput (sp w)))
                                 (len (message (sp w)) + 10)))
                ++ CR) :: reportEvents k msg (env w).
Proof.
  intros k msg w w' R H. split.
  - destruct (stopRun_running_out R H)
      as (wm & pre & post & M & W & Ppre & Ppost & O & _ & _).
    exists (len (lastOutput (sp wm))), pre,
      (post ++ reportEvents k msg (env w))%list.
    repeat split; try assumption.
    + apply newEvents_app. rewrite O.
      unfold clearLength, clearLine. rewrite maxInt_max, M. reflexivity.
    + lia.
  - apply newEvents_app. rewrite (@stopAlone_out k msg w R).
    unfold clearLength, clearLine. now rewrite maxInt_max.
Qed.

Lemma Stop_erases_spinner_line_witness :
  running (sp (started linuxTerminal "Loading")) = true /\
  stopRun WithSuccess "Done" (started linuxTerminal "Loading")
          (Stop "Done" (started linuxTerminal "Loading")) /\
  newEvents (started linuxTerminal "Loading")
            (Stop "Done" (started linuxTerminal "Loading"))
  = [Fprint (CR ++ repeatStr " " 17 ++ CR);
     SuccessPrint linuxTerminal "Done"].
Proof.
  split; [reflexivity|].
  split; [apply stopRun_alone|].
  exact (proj2 (@Stop_erases_spinner_line WithSuccess "Done"
                  (started linuxTerminal "Loading")
                  (Stop "Done" (started linuxTerminal "Loading"))
                  eq_refl (stopRun_alone _ _ _))).
Defined.

Lemma clearLine_len (n : Z) : len (clearLine n) = Z.of_nat (Z.to_nat n) + 2.
Proof.
  unfold clearLine. rewrite !len_append, len_repeatStr_space.
  change (len CR) with 1. lia.
Qed.

(** C3 as stated fails: with an empty spinner message and nothing
    rendered yet, [Stop] with a 20-byte argument erases 10 columns, not
    the 30 that [len(argument)+10] asks for. *)
Lemma Stop_clear_ignores_argument :
  ~ (forall (msg : string) (w w' : World),
        running (sp w) = true ->
        StopRun msg w w' ->
        exists n,
          In (Fprint (CR ++ repeatStr " " (Z.to_nat n) ++ CR)) (newEvents w w')
          /\ Z.max (len (lastOutput (sp w))) (len msg + 10) <= n).
Proof.
  intros H.
  destruct (H "twenty bytes of text" (started linuxTerminal "")
              (Stop "twenty bytes of text" (started linuxTerminal ""))
              eq_refl (stopRun_alone _ _ _)) as [n [Hin Hn]].
  change (len "twenty bytes of text") with 20 in Hn.
  change (len (lastOutput (sp (started linuxTerminal "")))) with 0 in Hn.
  change (newEvents (started linuxTerminal "")
            (Stop "twenty bytes of text" (started linuxTerminal "")))
    with [Fprint (clearLine 10);
          SuccessPrint linuxTerminal "twenty bytes of text"] in Hin.
  destruct Hin as [E | [E | []]]; [|discriminate E].
  assert (L : len (clearLine 10) = len (clearLine n)).
  { unfold clearLine at 2. congruence. }
  rewrite !clearLine_len in L. lia.
Qed.

Lemma callsOf_reportEvents (f : Formatter) (k : StopKind) (msg : string)
      (e : Env) :
  callsOf f (reportEvents k msg e)
  = match f, k with
    | ViaSuccessPrint, WithSuccess =>
        if negb (msg =? "")%string then [msg] else []
    | ViaErrorPrint, WithError => [msg]
    | _, _ => []
    end.
Proof.
  destruct f, k; cbn; try reflexivity;
    destruct (msg =? "")%string; reflexivity.
Qed.

(** The formatter calls of a stopping call, whatever the goroutines do
    meanwhile. *)
Lemma stopRun_calls (f : Formatter) (k : StopKind) (msg : string)
      (w w' : World) :
  stopRun k msg w w' ->
  callsOf f (newEvents w w')
  = (if running (sp w) then callsOf f (reportEvents k msg (env w)) else [])
  /\ running (sp w') = false
  /\ (running (sp w) = false -> w' = w).
Proof.
  intros H. destruct (running (sp w)) eqn:R.
  - destruct (stopRun_running_out R H)
      as (wm & pre & post & _ & _ & Ppre & Ppost & O & R' & _).
    repeat split; [|exact R' | discriminate].
    erewrite newEvents_app by exact O.
    rewrite !callsOf_app, (callsOf_plain f Ppre), (callsOf_plain f Ppost).
    reflexivity.
  - destruct H as [w _ | w w1 w2 w3 w4 R' _ _ _ _]; [|congruence].
    repeat split; [|exact R].
    unfold newEvents. now rewrite skipn_all.
Qed.

(** C4. [Stop(message)] returns, and it calls the success formatter if
    and only if the spinner was running and the message is non-empty:
    then once, with that message.  It never calls the error formatter,
    it leaves [running] false, and on an idle spinner it changes
    nothing. *)
Theorem Stop_calls_success_formatter (msg : string) (w : World) :
  StopRun msg w (Stop msg w) /\
  forall w', StopRun msg w w' ->
    callsOf ViaSuccessPrint (newEvents w w')
    = (if running (sp w) && negb (msg =? "")%string then [msg] else []) /\
    callsOf ViaErrorPrint (newEvents w w') = [] /\
    running (sp w') = false /\
    (running (sp w) = false -> w' = w).
Proof.
  split; [apply stopRun_alone|].
  intros w' H.
  destruct (stopRun_calls ViaSuccessPrint H) as (S & R & I).
  destruct (stopRun_calls ViaErrorPrint H) as (E & _ & _).
  rewrite callsOf_reportEvents in S, E.
  repeat split; try assumption.
  - rewrite S. destruct (running (sp w)), (msg =? "")%string; reflexivity.
  - rewrite E. destruct (running (sp w)); reflexivity.
Qed.

Example Stop_done_after_Start :
  callsOf ViaSuccessPrint
    (newEvents (started linuxTerminal "Loading")
               (Stop "done" (started linuxTerminal "Loading"))) = ["done"]
  /\ running (sp (Stop "done" (started linuxTerminal "Loading"))) = false
  /\ Stop "done" (boot linuxTerminal "Loading" [])
     = boot linuxTerminal "Loading" []
  /\ callsOf ViaSuccessPrint
       (newEvents (started linuxTerminal "Loading")
                  (Stop "" (started linuxTerminal "Loading"))) = [].
Proof. repeat split. Qed.

(** What reaches the terminal when a spinner without colours draws one
    frame and is stopped. *)
Example one_frame_then_Stop :
  terminal
    (out (Stop "Done"
            (afterTask 0 Tick
               (afterTask 0 Begin (started (forced false) "Loading")))))
  = CR ++ "⠋ Loading" ++ CR ++ "                 " ++ CR ++ "✓ Done" ++ LF.
Proof. reflexivity. Qed.

(** C5. [StopWithError(message)] on a running spinner calls the error
    formatter once, with that message, and never the success
    formatter; this holds for the empty message too, where [Stop]
    calls no formatter at all. *)
Theorem StopWithError_calls_error_formatter :
  forall (msg : string) (w w' : World),
    running (sp w) = true ->
    StopWithErrorRun msg w w' ->
    callsOf ViaErrorPrint (newEvents w w') = [msg] /\
    callsOf ViaSuccessPrint (newEvents w w') = [] /\
    running (sp w') = false /\
    (forall w'', StopRun "" w w'' ->
       callsOf ViaSuccessPrint (newEvents w w'') = [] /\
       callsOf ViaErrorPrint (newEvents w w'') = []).
Proof.
  intros msg w w' R H.
  destruct (stopRun_calls ViaSuccessPrint H) as (S & R' & _).
  destruct (stopRun_calls ViaErrorPrint H) as (E & _ & _).
  rewrite callsOf_reportEvents, R in S, E.
  repeat split; try assumption.
  - destruct (stopRun_calls ViaSuccessPrint H0) as (S' & _).
    rewrite callsOf_reportEvents, R in S'. exact S'.
  - destruct (stopRun_calls ViaErrorPrint H0) as (E' & _).
    rewrite callsOf_reportEvents, R in E'. exact E'.
Qed.

Lemma StopWithError_calls_error_formatter_witness :
  running (sp (started linuxTerminal "Loading")) = true /\
  StopWithErrorRun "" (started linuxTerminal "Loading")
                   (StopWithError "" (started linuxTerminal "Loading")) /\
  callsOf ViaErrorPrint
    (newEvents (started linuxTerminal "Loading")
               (StopWithError "" (started linuxTerminal "Loading"))) = [""].
Proof.
  split; [reflexivity|].
  split; [apply stopRun_alone|].
  apply (@StopWithError_calls_error_formatter ""
           (started linuxTerminal "Loading")
           (StopWithError "" (started linuxTerminal "Loading"))).
  - reflexivity.
  - apply stopRun_alone.
Defined.

(* ------------------------------------------------------------------ *)
(** ** render *)

Lemma wrap_in_range (z : Z) : MinInt <= z <= MaxInt -> wrap z = z.
Proof.
  unfold MinInt, MaxInt, wrap, intBits. intros H.
  change (2 ^ (64 - 1)) with 9223372036854775808 in *.
  change (2 ^ 64) with 18446744073709551616.
  rewrite Z.mod_small; lia.
Qed.



Lemma index_in_range {A} (xs : list A) (i : Z) :
  0 <= i < lenSlice xs ->
  exists x, index xs i = Ok x /\ nth_error xs (Z.to_nat i) = Some x.
Proof.
  intros H. unfold index.
  destruct (i <? 0) eqn:L; [apply Z.ltb_lt in L; lia|].
  destruct (lenSlice xs <=? i) eqn:G; [apply Z.leb_le in G; lia|].
  cbn [orb].
  destruct (nth_error xs (Z.to_nat i)) as [x|] eqn:N.
  - exists x. auto.
  - apply nth_error_None in N. unfold lenSlice in H. lia.
Qed.










Example threeFrames_seven_renderings :
  exists s', renders linuxTerminal 7 threeFrames
             = Ok (s', [0; 1; 2; 0; 1; 2; 0]).
Proof. eexists. vm_compute. reflexivity. Qed.

(** A single frame is selected at every rendering, whatever the value
    of the frame index. *)
Lemma single_frame_never_panics (e : Env) (n : nat) : forall s f,
  frames s = [f] -> exists s', renders e n s = Ok (s', repeat 0 n).
Proof.
  induction n as [|n IH]; intros s f F.
  - exists s. reflexivity.
  - assert (I : frameIndex s = Ok 0).
    { unfold frameIndex, modulo. rewrite F. cbn. now rewrite Z.rem_1_r. }
    destruct (render e s) as [[s1 o]|p] eqn:R;
      [|unfold render in R; rewrite I, F in R; discriminate R].
    assert (F1 : frames s1 = [f]).
    { apply render_fields in R. destruct R as (_ & F1 & _). congruence. }
    destruct (IH s1 f F1) as [s' R'].
    exists s'. cbn [renders]. rewrite I. cbn [bindRes]. rewrite R.
    cbn [bindRes fst]. rewrite R'. reflexivity.
Qed.

Example oneFrame_stays_put :
  exists s', renders linuxTerminal 5 oneFrame = Ok (s', [0; 0; 0; 0; 0]).
Proof. exact (single_frame_never_panics linuxTerminal 5 oneFrame eq_refl). Qed.


(* ------------------------------------------------------------------ *)
(** ** Construction *)

Lemma NewSpinner_snoc (msg : string) (opts : list SpinnerOption)
      (opt : SpinnerOption) :
  NewSpinner msg (opts ++ [opt]) = opt (NewSpinner msg opts).
Proof. unfold NewSpinner. now rewrite fold_left_app. Qed.

(** An exported option touches neither the message, the frame index,
    the channel, the running flag nor the last output. *)
Lemma Exported_fields (opt : SpinnerOption) (s : Spinner) :
  Exported opt ->
  message (opt s) = message s /\ current (opt s) = current s /\
  stop (opt s) = stop s /\ running (opt s) = running s /\
  lastOutput (opt s) = lastOutput s.
Proof. intros []; cbn; auto. Qed.

(** Constructing a spinner does not start it. *)
Lemma NewSpinner_idle (msg : string) (opts : list SpinnerOption) :
  Forall Exported opts ->
  message (NewSpinner msg opts) = msg /\
  current (NewSpinner msg opts) = 0 /\
  stop (NewSpinner msg opts) = [] /\
  running (NewSpinner msg opts) = false /\
  lastOutput (NewSpinner msg opts) = "".
Proof.
  induction opts as [|opt opts IH] using rev_ind; intros F.
  - cbn. auto.
  - apply Forall_app in F. destruct F as [F1 F2].
    inversion F2 as [|? ? E _]; subst.
    rewrite NewSpinner_snoc.
    destruct (Exported_fields (NewSpinner msg opts) E) as (M & C & S & R & L).
    destruct (IH F1) as (M' & C' & S' & R' & L').
    repeat split; congruence.
Qed.




(* ------------------------------------------------------------------ *)
(** ** Start and the number of goroutines *)

Lemma setNth_length {A} (i : nat) (x : A) (xs : list A) :
  List.length (setNth i x xs) = List.length xs.
Proof.
  revert i. induction xs as [|y xs IH]; intros [|i]; cbn; auto.
Qed.
















(* ------------------------------------------------------------------ *)
(** ** UpdateMessage *)



Example UpdateMessage_on_new_spinner :
  message (UpdateMessage "Updated" (NewSpinner "Original" [])) = "Updated".
Proof. reflexivity. Qed.

(* ------------------------------------------------------------------ *)
(** ** Concurrent access to the override *)

Unset Implicit Arguments.

Module OverrideFacts.
Import Override OverrideInv.

Lemma countIf_cons (p : Pc -> bool) (x : Pc) (l : list Pc) :
  countIf p (x :: l) = (Nat.b2n (p x) + countIf p l)%nat.
Proof. unfold countIf. cbn. destruct (p x); reflexivity. Qed.

Lemma countIf_setNth (p : Pc -> bool) (i : nat) (x y : Pc) : forall l,
  nth_error l i = Some x ->
  (countIf p (setNth i y l) + Nat.b2n (p x)
   = countIf p l + Nat.b2n (p y))%nat.
Proof.
  induction i as [|i IH]; intros [|z l] H; cbn in H; try discriminate.
  - inversion H; subst. cbn [setNth]. rewrite !countIf_cons. lia.
  - cbn [setNth]. rewrite !countIf_cons. specialize (IH l H). lia.
Qed.

Lemma countIf_one (p : Pc -> bool) (i : nat) (x : Pc) : forall l,
  nth_error l i = Some x -> p x = true -> (1 <= countIf p l)%nat.
Proof.
  induction i as [|i IH]; intros [|z l] H Px; cbn in H; try discriminate;
    rewrite countIf_cons.
  - inversion H; subst. rewrite Px. cbn. lia.
  - specialize (IH l H Px). lia.
Qed.

Lemma countIf_two (p : Pc -> bool) (i j : nat) (x y : Pc) : forall l,
  i <> j ->
  nth_error l i = Some x -> nth_error l j = Some y ->
  p x = true -> p y = true -> (2 <= countIf p l)%nat.
Proof.
  revert j. induction i as [|i IH]; intros [|j] [|z l] D Hi Hj Px Py;
    cbn in Hi, Hj; try discriminate; try congruence;
    rewrite countIf_cons.
  - inversion Hi; subst. rewrite Px.
    pose proof (countIf_one p j y l Hj Py). cbn. lia.
  - inversion Hj; subst. rewrite Py.
    pose proof (countIf_one p i x l Hi Px). cbn. lia.
  - assert (D' : i <> j) by congruence.
    specialize (IH j l D' Hi Hj Px Py). lia.
Qed.

Lemma countIf_le (p q : Pc -> bool) (l : list Pc) :
  (forall x, p x = true -> q x = true) ->
  (countIf p l <= countIf q l)%nat.
Proof.
  intros I. induction l as [|x l IH]; [reflexivity|].
  rewrite !countIf_cons. specialize (I x).
  destruct (p x), (q x); cbn; lia.
Qed.

Lemma Forall_setNth {A} (P : A -> Prop) (i : nat) (y : A) : forall l,
  Forall P l -> P y -> Forall P (setNth i y l).
Proof.
  induction i as [|i IH]; intros [|z l] F Py; cbn; auto;
    inversion F; subst; constructor; auto.
Qed.

Lemma Forall_nth_error {A} (P : A -> Prop) (l : list A) (i : nat) (x : A) :
  Forall P l -> nth_error l i = Some x -> P x.
Proof.
  intros F H. apply nth_error_In in H.
  rewrite Forall_forall in F. auto.
Qed.

Lemma midStore_holdsLock (pc : Pc) : midStore pc = true -> holdsLock pc = true.
Proof. destruct pc; cbn; congruence. Qed.

(** No whole-variable store is in progress while a read lock is held. *)
Lemma Inv_reader_sees_whole (vs : list (option bool)) (st : Shared)
      (i : nat) (pc : Pc) :
  Inv vs st -> nth_error (threads st) i = Some pc -> holdsRLock pc = true ->
  exists v, cell st = Whole v /\ In v vs.
Proof.
  intros [W R X P C _] N H.
  pose proof (countIf_one holdsRLock i pc (threads st) N H) as R1.
  destruct (writer st) eqn:Wr.
  - specialize (X eq_refl). lia.
  - destruct (cell st) as [v|] eqn:Ce.
    + exists v. auto.
    + pose proof (countIf_le midStore holdsLock (threads st)
                    midStore_holdsLock) as Le.
      cbn in W. lia.
Qed.

(** The holder of the write lock is alone. *)
Lemma Inv_writer_alone (vs : list (option bool)) (st : Shared)
      (i : nat) (pc : Pc) :
  Inv vs st -> nth_error (threads st) i = Some pc -> holdsLock pc = true ->
  writer st = true /\ readers st = 0%nat /\
  countIf holdsLock (threads st) = 1%nat.
Proof.
  intros [W R X P C _] N H.
  pose proof (countIf_one holdsLock i pc (threads st) N H) as W1.
  destruct (writer st); cbn in W; [|lia].
  auto.
Qed.

Lemma Inv_init (v : option bool) (ts : list Pc) :
  forallb entering ts = true -> Inv (v :: published ts) (init v ts).
Proof.
  intros E.
  assert (Z : forall p, (forall pc, entering pc = true -> p pc = false) ->
                        countIf p ts = 0%nat).
  { intros p Hp. induction ts as [|pc ts IH]; [reflexivity|].
    cbn in E. apply andb_true_iff in E. destruct E as [E1 E2].
    rewrite countIf_cons, (Hp pc E1), (IH E2). reflexivity. }
  constructor; cbn.
  - apply Z. intros []; cbn; congruence.
  - apply Z. intros []; cbn; congruence.
  - discriminate.
  - apply Z. intros []; cbn; congruence.
  - intros v' H. inversion H. now left.
  - clear Z. apply Forall_forall. intros pc Hin.
    rewrite forallb_forall in E. specialize (E pc Hin).
    destruct pc; cbn in E; try discriminate; cbn; auto.
    right. unfold published. apply in_flat_map. exists (AtLock enabled).
    split; [exact Hin | now left].
Qed.

End OverrideFacts.
Module OverrideSafety.
Import Override OverrideInv OverrideFacts.

Lemma alone_midStore (l : list Pc) (i : nat) (pc : Pc) :
  nth_error l i = Some pc -> holdsLock pc = true ->
  countIf holdsLock l = 1%nat ->
  countIf midStore l = Nat.b2n (midStore pc).
Proof.
  intros N H C.
  pose proof (countIf_setNth holdsLock i pc Returned l N) as A.
  pose proof (countIf_setNth midStore i pc Returned l N) as B.
  pose proof (countIf_le midStore holdsLock (setNth i Returned l)
                midStore_holdsLock) as Le.
  rewrite H in A. cbn in A, B. lia.
Qed.

Ltac counts N pc' :=
  match type of N with
  | nth_error ?l ?i = Some ?pc =>
      pose proof (countIf_setNth holdsLock i pc pc' l N);
      pose proof (countIf_setNth holdsRLock i pc pc' l N);
      pose proof (countIf_setNth midStore i pc pc' l N)
  end.

(** Every step of the guarded code keeps the invariant. *)
Lemma Inv_step (vs : list (option bool)) (i : nat) (st st' : Shared) :
  Inv vs st -> step true i st = Some st' -> Inv vs st'.
Proof.
  intros I H. unfold step, advance in H.
  destruct (nth_error (threads st) i) as [pc|] eqn:N; [|discriminate].
  assert (Cpc : carries vs pc).
  { destruct I as [_ _ _ _ _ F]. exact (Forall_nth_error _ _ _ _ F N). }
  destruct pc as [b|b|b| | | | |fc|fc]; try discriminate.
  - (* mu.Lock() *)
    destruct (writer st) eqn:Wr; [discriminate|].
    destruct (readers st) as [|r] eqn:Rd; [|discriminate].
    cbn in H. inversion H; subst; clear H.
    counts N (AtStore b). destruct I as [W R X P C F].
    rewrite Wr in W. rewrite Rd in R. cbn in *.
    constructor; cbn [writer readers cell threads Nat.b2n Nat.pred]; try lia; auto.
    apply Forall_setNth; auto.
  - (* forceColors = &enabled, first half *)
    inversion H; subst; clear H.
    destruct (Inv_writer_alone _ _ _ _ I N eq_refl) as (Wr & Rd & One).
    pose proof (alone_midStore _ _ _ N eq_refl One) as Mid.
    counts N (InStore b). destruct I as [W R X P C F].
    cbn in *.
    constructor; cbn [writer readers cell threads Nat.b2n Nat.pred]; try lia; auto; try discriminate.
    apply Forall_setNth; auto.
  - (* forceColors = &enabled, second half *)
    inversion H; subst; clear H.
    destruct (Inv_writer_alone _ _ _ _ I N eq_refl) as (Wr & Rd & One).
    pose proof (alone_midStore _ _ _ N eq_refl One) as Mid.
    counts N AtUnlock. destruct I as [W R X P C F].
    cbn in *.
    constructor; cbn [writer readers cell threads Nat.b2n Nat.pred]; try lia; auto.
    + intros v E. inversion E; subst. exact Cpc.
    + apply Forall_setNth; cbn; auto.
  - (* mu.Unlock() *)
    inversion H; subst; clear H.
    destruct (Inv_writer_alone _ _ _ _ I N eq_refl) as (Wr & Rd & One).
    counts N Returned. destruct I as [W R X P C F].
    cbn in *.
    constructor; cbn [writer readers cell threads Nat.b2n Nat.pred]; try lia; auto; try discriminate.
    apply Forall_setNth; cbn; auto.
  - (* mu.RLock() *)
    destruct (writer st) eqn:Wr; [discriminate|].
    cbn in H. inversion H; subst; clear H.
    counts N AtLoad. destruct I as [W R X P C F].
    rewrite Wr in W. cbn in *.
    constructor; cbn [writer readers cell threads Nat.b2n Nat.pred]; try lia; auto; try discriminate.
    apply Forall_setNth; cbn; auto.
  - (* fc := forceColors *)
    inversion H; subst; clear H.
    destruct (Inv_reader_sees_whole _ _ _ _ I N eq_refl) as (v & Ce & Iv).
    counts N (AtRUnlock (cell st)). destruct I as [W R X P C F].
    cbn in *.
    constructor; cbn [writer readers cell threads Nat.b2n Nat.pred]; try lia; auto.
    apply Forall_setNth; cbn; auto. exists v. auto.
  - (* mu.RUnlock() *)
    inversion H; subst; clear H.
    counts N (Decided fc). destruct I as [W R X P C F].
    cbn in *.
    constructor; cbn [writer readers cell threads Nat.b2n Nat.pred]; try lia; auto.
    + intros Wr. specialize (X Wr). lia.
    + apply Forall_setNth; cbn; auto.
Qed.

Lemma Inv_steps (vs : list (option bool)) (st0 st : Shared) :
  Inv vs st0 -> steps true st0 st -> Inv vs st.
Proof.
  intros I H. induction H as [|st1 st2 [i S] _ IH]; [exact I|].
  exact (Inv_step vs i st1 st2 IH S).
Qed.

(** The invariant rules out a race. *)
Lemma Inv_no_race (vs : list (option bool)) (st : Shared) :
  Inv vs st -> ~ race st.
Proof.
  intros I (i & j & pi & pj & D & Ni & Nj & Si & Sj).
  assert (Hi : holdsLock pi = true) by (destruct pi; cbn in *; congruence).
  destruct (Inv_writer_alone _ _ _ _ I Ni Hi) as (Wr & Rd & One).
  destruct Sj as [Sj | Lj].
  - assert (Hj : holdsLock pj = true) by (destruct pj; cbn in *; congruence).
    pose proof (countIf_two holdsLock i j pi pj (threads st) D Ni Nj Hi Hj). lia.
  - assert (Hj : holdsRLock pj = true) by (destruct pj; cbn in *; congruence).
    pose proof (countIf_one holdsRLock j pj (threads st) Nj Hj).
    destruct I as [_ R _ _ _ _]. lia.
Qed.

Lemma run_steps (guarded : bool) (sched : list nat) : forall st,
  steps guarded st (run guarded sched st).
Proof.
  induction sched as [|i sched IH]; intros st; cbn.
  - apply rtn1_refl.
  - destruct (step guarded i st) as [st'|] eqn:S; [|apply IH].
    apply clos_rt_rtn1_iff. apply rt_trans with (y := st').
    + apply rt_step. now exists i.
    + apply clos_rt_rtn1_iff. apply IH.
Qed.

End OverrideSafety.
Import Override OverrideInv OverrideFacts OverrideSafety.

(** C8. With [ForceColors] storing under [mu.Lock] and
    [isColorEnabled] loading under [mu.RLock], in every interleaving of
    any number of concurrent calls no state has a store to
    [forceColors] that overlaps another store or a load, and every copy
    a reader takes is a whole value: the initial one or one published
    by a call of [ForceColors], never a half-written one; so every call
    of [isColorEnabled] answers as the policy does for one of those
    values. *)
Theorem guarded_override_has_no_race :
  forall (e : Env) (v0 : option bool) (ts : list Pc) (st : Shared),
    forallb entering ts = true ->
    steps true (init v0 ts) st ->
    ~ race st /\
    (forall i pc fc,
        nth_error (threads st) i = Some pc ->
        copyOf pc = Some fc ->
        exists v,
          fc = Whole v /\ In v (v0 :: published ts) /\
          answer e fc
          = Some (isColorEnabled
                    (mkEnv v (noColor e) (stdoutStat e) (getenv e) (GOOS e)))).
Proof.
  intros e v0 ts st E H.
  pose proof (Inv_steps _ _ _ (Inv_init v0 ts E) H) as I.
  split; [exact (Inv_no_race _ _ I)|].
  intros i pc fc N C.
  destruct I as [_ _ _ _ _ F].
  pose proof (Forall_nth_error _ _ _ _ F N) as Cpc.
  assert (W : exists v, fc = Whole v /\ In v (v0 :: published ts)).
  { destruct pc; cbn in C; inversion C; subst; exact Cpc. }
  destruct W as (v & -> & Iv). exists v. auto.
Qed.

Lemma guarded_override_has_no_race_witness :
  forallb entering sampleThreads = true /\
  steps true (init None sampleThreads) sampleRun /\
  map copyOf (threads sampleRun)
  = [None; Some (Whole (Some true)); None; Some (Whole (Some false))] /\
  map (answer linuxTerminal) [Whole (Some true); Whole (Some false)]
  = [Some true; Some false] /\
  ~ race sampleRun /\
  (forall i pc fc,
      nth_error (threads sampleRun) i = Some pc ->
      copyOf pc = Some fc ->
      exists v,
        fc = Whole v /\ In v (None :: published sampleThreads) /\
        answer linuxTerminal fc
        = Some (isColorEnabled
                  (mkEnv v false (Some ModeCharDevice) noVars "linux"))).
Proof.
  split; [reflexivity|].
  split; [apply run_steps|].
  split; [reflexivity|].
  split; [reflexivity|].
  apply (guarded_override_has_no_race linuxTerminal None sampleThreads
           sampleRun).
  - reflexivity.
  - apply run_steps.
Defined.

(** Readers share the mutex, and a writer waits for them. *)
Example readers_share_the_lock :
  readers (run true [1; 3]%nat (init None sampleThreads)) = 2%nat /\
  step true 0 (run true [1; 3]%nat (init None sampleThreads)) = None.
Proof. split; reflexivity. Qed.

(** Without the mutex the same two functions race, and a reader can
    copy a half-written variable. *)
Lemma unguarded_override_races :
  race (run false [0; 0; 1]%nat (init None [AtLock true; AtRLock])) /\
  nth_error
    (threads (run false [0; 0; 1; 1]%nat (init None [AtLock true; AtRLock])))
    1 = Some (AtRUnlock Partial).
Proof.
  split; [|reflexivity].
  exists 0%nat, 1%nat, (InStore true), AtLoad.
  repeat split; auto.
Qed.

(* ------------------------------------------------------------------ *)
(** ** Stripping escape sequences *)

Lemma list_ascii_of_string_app (a b : string) :
  list_ascii_of_string (a ++ b)
  = (list_ascii_of_string a ++ list_ascii_of_string b)%list.
Proof. induction a as [|c a IH]; cbn; [reflexivity | now rewrite IH]. Qed.

Lemma stripFrom_app (st : Stripping) (a b : string) :
  stripFrom st (a ++ b) = stripFrom (stripFrom st a) b.
Proof.
  unfold stripFrom. now rewrite list_ascii_of_string_app, fold_left_app.
Qed.

Lemma stripFrom_cons (st : Stripping) (c : ascii) (s : string) :
  stripFrom st (String c s) = stripFrom (stripByte st c) s.
Proof. reflexivity. Qed.

Lemma latin1_app (a b : string) : latin1 (a ++ b) = latin1 a ++ latin1 b.
Proof.
  induction a as [|c a IH]; cbn [latin1 append]; [reflexivity|].
  now rewrite IH, append_assoc.
Qed.

Lemma kept_app (esc : bool) (a b : string) :
  kept esc (a ++ b) = kept esc a ++ kept (openAfter esc a) b.
Proof.
  revert esc. induction a as [|c a IH]; intros esc; cbn [kept openAfter append].
  - reflexivity.
  - destruct (byteVal c =? 27); [apply IH|].
    destruct esc; [apply IH|]. cbn [append]. now rewrite IH.
Qed.

Lemma openAfter_app (esc : bool) (a b : string) :
  openAfter esc (a ++ b) = openAfter (openAfter esc a) b.
Proof.
  revert esc. induction a as [|c a IH]; intros esc; cbn [openAfter append].
  - reflexivity.
  - destruct (byteVal c =? 27); [apply IH|]. destruct esc; apply IH.
Qed.

(** What the loop of [stripANSI] computes, from any state. *)
Lemma stripFrom_kept (s : string) : forall st,
  stripped (stripFrom st s) = stripped st ++ latin1 (kept (inEscape st) s)
  /\ inEscape (stripFrom st s) = openAfter (inEscape st) s.
Proof.
  induction s as [|c s IH]; intros st.
  - cbn. now rewrite append_nil_r.
  - rewrite stripFrom_cons. cbn [kept openAfter].
    destruct (IH (stripByte st c)) as [S E]. rewrite S, E. clear S E IH.
    unfold stripByte.
    destruct (byteVal c =? 27); [cbn; auto|].
    destruct (inEscape st) eqn:I.
    + destruct (isLetter c); cbn; auto.
    + cbn [stripped inEscape latin1]. rewrite append_assoc. auto.
Qed.

Lemma stripANSI_kept (s : string) : stripANSI s = latin1 (kept false s).
Proof. unfold stripANSI. now destruct (stripFrom_kept s (mkStripping "" false "")). Qed.

Lemma kept_escFree (s : string) : escFree s = true -> kept false s = s.
Proof.
  unfold escFree. induction s as [|c s IH]; cbn; [reflexivity|].
  intros H. apply andb_true_iff in H. destruct H as [H1 H2].
  apply negb_true_iff in H1. rewrite H1. now rewrite IH.
Qed.

Lemma len_kept (s : string) : forall esc, len (kept esc s) <= len s.
Proof.
  induction s as [|c s IH]; intros esc; cbn [kept].
  - lia.
  - change (String c s) with (String c "" ++ s). rewrite len_append.
    change (len (String c "")) with 1.
    destruct (byteVal c =? 27); [specialize (IH true); lia|].
    destruct esc; [specialize (IH (negb (isLetter c))); lia|].
    change (String c (kept false s)) with (String c "" ++ kept false s).
    rewrite len_append. change (len (String c "")) with 1.
    specialize (IH false). lia.
Qed.

Lemma letter_not_esc (c : ascii) :
  isLetter c = true -> (byteVal c =? 27) = false.
Proof.
  unfold isLetter, within. intros H. apply Z.eqb_neq. intros E.
  rewrite E in H. discriminate H.
Qed.

(** A complete sequence vanishes, and leaves no sequence open, whatever
    came before it. *)
Lemma endsAtLetter_kept (s : string) :
  endsAtLetter s = true -> kept true s = "" /\ openAfter true s = false.
Proof.
  induction s as [|c s IH]; cbn [endsAtLetter]; [discriminate|].
  destruct s as [|d s'].
  - intros L. cbn. rewrite (letter_not_esc c L), L. auto.
  - intros H. apply andb_true_iff in H. destruct H as [H E].
    apply andb_true_iff in H. destruct H as [NL NE].
    apply negb_true_iff in NL, NE.
    cbn [kept openAfter]. rewrite NE, NL. cbn [negb]. now apply IH.
Qed.

Lemma isSequence_kept (code : string) (esc : bool) :
  isSequence code = true ->
  kept esc code = "" /\ openAfter esc code = false.
Proof.
  destruct code as [|c rest]; cbn [isSequence]; [discriminate|].
  intros H. apply andb_true_iff in H. destruct H as [E L].
  cbn [kept openAfter]. rewrite E. now apply endsAtLetter_kept.
Qed.

Lemma concatAll_sequences (codes : list string) :
  forallb isSequence codes = true ->
  kept false (concatAll codes) = "" /\ openAfter false (concatAll codes) = false.
Proof.
  induction codes as [|code codes IH]; [auto|].
  change (concatAll (code :: codes)) with (code ++ concatAll codes).
  cbn [forallb]. intros H. apply andb_true_iff in H. destruct H as [H1 H2].
  destruct (isSequence_kept code false H1) as [K O].
  destruct (IH H2) as [K' O'].
  now rewrite kept_app, openAfter_app, K, O, K', O'.
Qed.

(* ------------------------------------------------------------------ *)
(** ** Runes of stripped text *)

Lemma byteVal_range (c : ascii) : 0 <= byteVal c < 256.
Proof.
  unfold byteVal. pose proof (N_ascii_bounded c). lia.
Qed.

(** A [range] loop reads [string(b)] back as the one rune [b]. *)
Lemma runesFrom_stringOfByte (c : ascii) (rest : string) :
  runesFrom 0 (stringOfByte c ++ rest) = byteVal c :: runesFrom 0 rest.
Proof.
  destruct c as [[] [] [] [] [] [] [] []]; reflexivity.
Qed.

Lemma runesOf_latin1 (s : string) :
  runesOf (latin1 s) = map byteVal (list_ascii_of_string s).
Proof.
  unfold runesOf. induction s as [|c s IH]; [reflexivity|].
  cbn [latin1 list_ascii_of_string map].
  now rewrite runesFrom_stringOfByte, IH.
Qed.

Lemma runeWidth_byte (c : ascii) : runeWidth (byteVal c) = 1.
Proof.
  pose proof (byteVal_range c) as B.
  unfold runeWidth, isWideCharacter, isCJKCharacter, isFullwidthCharacter,
    isEmojiCharacter, isHangulJamo, isCJKRadical, isHiraganaKatakana,
    isHangulSyllable, isCJKCompatibility, isCJKExtension.
  repeat match goal with
         | |- context [?a <=? ?b] =>
             destruct (Z.leb_spec a b); try lia
         end; reflexivity.
Qed.

Lemma width_of_bytes (s : string) (w0 : Z) :
  fold_left (fun width r => width + runeWidth r)
            (map byteVal (list_ascii_of_string s)) w0
  = w0 + len s.
Proof.
  revert w0. induction s as [|c s IH]; intros w0.
  - cbn. unfold len. cbn. lia.
  - cbn [list_ascii_of_string map fold_left]. rewrite IH, runeWidth_byte.
    change (String c s) with (String c "" ++ s). rewrite len_append.
    change (len (String c "")) with 1. lia.
Qed.

Lemma visualWidth_kept (s : string) : visualWidth s = len (kept false s).
Proof.
  unfold visualWidth.
  now rewrite stripANSI_kept, runesOf_latin1, width_of_bytes.
Qed.
(* ------------------------------------------------------------------ *)
(** ** stripANSI and visualWidth *)

Lemma len_stringOfByte (c : ascii) :
  len (stringOfByte c) = 1 + (if 0x80 <=? byteVal c then 1 else 0).
Proof. destruct c as [[] [] [] [] [] [] [] []]; reflexivity. Qed.

Lemma len_latin1 (s : string) : len (latin1 s) = len s + highBytes s.
Proof.
  unfold highBytes. induction s as [|c s IH]; [reflexivity|].
  cbn [latin1 list_ascii_of_string filter].
  rewrite len_append, IH, len_stringOfByte.
  change (String c s) with (String c "" ++ s). rewrite len_append.
  change (len (String c "")) with 1.
  destruct (0x80 <=? byteVal c); cbn [List.length]; lia.
Qed.

Lemma latin1_ascii (s : string) : isAscii s = true -> latin1 s = s.
Proof.
  unfold isAscii. induction s as [|c s IH]; [reflexivity|].
  cbn [list_ascii_of_string forallb latin1]. intros H.
  apply andb_true_iff in H. destruct H as [H1 H2].
  unfold stringOfByte. rewrite H1. cbn. now rewrite IH.
Qed.

(** X1. On text without an ESC byte [stripANSI] gives back ASCII text
    as it is, and turns every byte from 0x80 up into two bytes, the
    encoding of the code point of that number: UTF-8 text comes back
    longer by the number of such bytes. *)
Theorem stripANSI_reencodes_high_bytes :
  forall s : string,
    escFree s = true ->
    stripANSI s = latin1 s /\
    len (stripANSI s) = len s + highBytes s /\
    (isAscii s = true -> stripANSI s = s).
Proof.
  intros s F. rewrite stripANSI_kept, (kept_escFree s F).
  split; [reflexivity|]. split; [apply len_latin1 | apply latin1_ascii].
Qed.

Lemma stripANSI_reencodes_high_bytes_witness :
  escFree "✓ done" = true /\
  len "✓ done" = 8 /\
  len (stripANSI "✓ done") = 11 /\
  stripANSI "done" = "done".
Proof.
  destruct (stripANSI_reencodes_high_bytes "✓ done" eq_refl) as (_ & L & _).
  destruct (stripANSI_reencodes_high_bytes "done" eq_refl) as (_ & _ & A).
  split; [reflexivity|]. split; [reflexivity|].
  split; [exact L | exact (A eq_refl)].
Defined.

(** X2. [visualWidth] is the number of bytes outside escape
    sequences: every rune it measures comes from one byte and has
    width 1, so no character is ever counted as wide, and text without
    an ESC byte measures its length in bytes. *)
Theorem visualWidth_counts_bytes (s : string) :
  visualWidth s = len (kept false s) /\
  0 <= visualWidth s <= len s /\
  Forall (fun r => 0 <= r < 256 /\ runeWidth r = 1) (runesOf (stripANSI s)) /\
  (escFree s = true -> visualWidth s = len s).
Proof.
  rewrite visualWidth_kept. split; [reflexivity|].
  split; [pose proof (len_kept s false); unfold len in *; lia|].
  split.
  - rewrite stripANSI_kept, runesOf_latin1. apply Forall_forall.
    intros r H. apply in_map_iff in H. destruct H as [c [<- _]].
    split; [apply byteVal_range | apply runeWidth_byte].
  - intros F. now rewrite (kept_escFree s F).
Qed.

Example visualWidth_of_wide_characters :
  visualWidth "✓" = 3 /\ visualWidth "中" = 3 /\ visualWidth "🐛" = 4 /\
  runesOf "中" = [0x4E2D] /\ runeWidth 0x4E2D = 2 /\
  runesOf "🐛" = [0x1F41B] /\ runeWidth 0x1F41B = 2.
Proof. repeat split. Qed.

Lemma palette_sequences : forallb isSequence palette = true.
Proof. reflexivity. Qed.

(** Codes that are complete sequences leave no byte of their own and
    close whatever the text left open. *)
Lemma kept_colorize (e : Env) (text : string) (codes : list string) :
  forallb isSequence codes = true ->
  kept false (colorize e text codes) = kept false text.
Proof.
  intros H. unfold colorize.
  destruct (isColorEnabled e); cbn [negb]; [|reflexivity].
  rewrite fold_left_append. cbn [append].
  destruct (concatAll_sequences codes H) as [K O].
  rewrite !kept_app, ?openAfter_app, K, O. cbn [append].
  destruct (isSequence_kept Reset (openAfter false text) eq_refl) as [KR _].
  now rewrite KR, append_nil_r.
Qed.

(** X3. Colour never changes what [stripANSI] and [visualWidth] see:
    for codes that are complete escape sequences, as all of colors.go
    are, [colorize(text, codes...)] strips to what [text] strips to and
    has the visual width of [text], with the policy enabled or not and
    whatever [text] holds. *)
Theorem colorize_invisible_to_visualWidth :
  forall (e : Env) (text : string) (codes : list string),
    forallb isSequence codes = true ->
    stripANSI (colorize e text codes) = stripANSI text /\
    visualWidth (colorize e text codes) = visualWidth text.
Proof.
  intros e text codes H.
  now rewrite !stripANSI_kept, !visualWidth_kept, (kept_colorize e text codes H).
Qed.

Lemma colorize_invisible_to_visualWidth_witness :
  forallb isSequence [GreenCode; Bold] = true /\
  colorize (forced true) "ok" [GreenCode; Bold]
  = GreenCode ++ Bold ++ "ok" ++ Reset /\
  stripANSI (colorize (forced true) "ok" [GreenCode; Bold]) = "ok" /\
  visualWidth (colorize (forced true) "ok" [GreenCode; Bold]) = 2.
Proof.
  split; [reflexivity|]. split; [reflexivity|].
  exact (colorize_invisible_to_visualWidth (forced true) "ok"
           [GreenCode; Bold] eq_refl).
Defined.
(* ------------------------------------------------------------------ *)
(** ** alignText *)

Lemma kept_spaces (n : nat) (esc : bool) :
  kept esc (repeatStr " " n) = (if esc then "" else repeatStr " " n)
  /\ openAfter esc (repeatStr " " n) = esc.
Proof.
  destruct esc; induction n as [|n [IHk IHo]]; try (split; reflexivity);
    cbn [repeatStr];
    change (" " ++ repeatStr " " n) with (String " " (repeatStr " " n));
    cbn [kept openAfter];
    change (byteVal " " =? 27) with false; change (isLetter " ") with false;
    cbn [negb]; rewrite IHk, IHo; auto.
Qed.

Lemma visualWidth_app (a b : string) :
  visualWidth (a ++ b) = visualWidth a + len (kept (openAfter false a) b).
Proof. now rewrite !visualWidth_kept, kept_app, len_append. Qed.

Lemma visualWidth_spaces_left (n : nat) (s : string) :
  visualWidth (repeatStr " " n ++ s) = Z.of_nat n + visualWidth s.
Proof.
  destruct (kept_spaces n false) as [K O].
  rewrite visualWidth_app, O, !visualWidth_kept, K, len_repeatStr_space.
  reflexivity.
Qed.

Lemma visualWidth_spaces_right (s : string) (n : nat) :
  visualWidth (s ++ repeatStr " " n)
  = visualWidth s + (if openAfter false s then 0 else Z.of_nat n).
Proof.
  destruct (kept_spaces n (openAfter false s)) as [K _].
  rewrite visualWidth_app, K.
  destruct (openAfter false s); [reflexivity | now rewrite len_repeatStr_space].
Qed.

(** X4. [alignText] never cuts text: text at least as wide as the
    column comes back as it is.  Narrower text gets exactly
    [width - visualWidth(text)] spaces, on the right, on the left, or
    split with the odd one on the right, and then has visual width
    [width] -- unless it ends inside an unfinished escape sequence,
    which swallows the spaces put after it. *)
Theorem alignText_pads_to_width (text : string) (width : Z) (a : Alignment) :
  (width <= visualWidth text -> alignText text width a = text) /\
  len (alignText text width a)
  = len text + Z.max 0 (width - visualWidth text) /\
  (exists l r,
      alignText text width a = repeatStr " " l ++ text ++ repeatStr " " r /\
      Z.of_nat l + Z.of_nat r = Z.max 0 (width - visualWidth text) /\
      (a = AlignRight \/ visualWidth text >= width -> r = 0%nat) /\
      (a <> AlignRight -> a <> AlignCenter -> l = 0%nat) /\
      (a = AlignCenter -> Z.of_nat l <= Z.of_nat r <= Z.of_nat l + 1)) /\
  (visualWidth text < width ->
   openAfter false text = false \/ a = AlignRight ->
   visualWidth (alignText text width a) = width) /\
  (visualWidth text < width ->
   openAfter false text = true -> a <> AlignRight ->
   visualWidth (alignText text width a) < width).
Proof.
  assert (Shape : exists l r,
      alignText text width a = repeatStr " " l ++ text ++ repeatStr " " r /\
      Z.of_nat l + Z.of_nat r = Z.max 0 (width - visualWidth text) /\
      (a = AlignRight \/ visualWidth text >= width -> r = 0%nat) /\
      (a <> AlignRight -> a <> AlignCenter -> l = 0%nat) /\
      (a = AlignCenter -> Z.of_nat l <= Z.of_nat r <= Z.of_nat l + 1)).
  { unfold alignText.
    destruct (visualWidth text >=? width) eqn:G.
    - exists 0%nat, 0%nat. cbn [repeatStr append]. rewrite append_nil_r.
      rewrite Z.geb_leb in G. apply Z.leb_le in G.
      refine (conj eq_refl (conj _ (conj _ (conj _ _)))); intros; lia.
    - rewrite Z.geb_leb in G. apply Z.leb_gt in G.
      destruct (a =? AlignRight) eqn:R; [|destruct (a =? AlignCenter) eqn:C].
      + apply Z.eqb_eq in R.
        exists (Z.to_nat (width - visualWidth text)), 0%nat.
        cbn [repeatStr]. rewrite append_nil_r.
        refine (conj eq_refl (conj _ (conj _ (conj _ _)))); intros;
          try lia; unfold AlignRight, AlignCenter in *; lia.
      + apply Z.eqb_eq in C. apply Z.eqb_neq in R.
        pose proof (Z.quot_div_nonneg (width - visualWidth text) 2) as Q.
        rewrite Q by lia.
        pose proof (Z.div_mod (width - visualWidth text) 2) as D.
        pose proof (Z.mod_pos_bound (width - visualWidth text) 2) as M.
        exists (Z.to_nat ((width - visualWidth text) / 2)),
               (Z.to_nat (width - visualWidth text
                          - (width - visualWidth text) / 2)).
        refine (conj eq_refl (conj _ (conj _ (conj _ _)))); intros;
          try lia;
          match goal with
          | H : _ \/ _ |- _ => destruct H as [H|H]; [congruence | lia]
          end.
      + apply Z.eqb_neq in R, C.
        exists 0%nat, (Z.to_nat (width - visualWidth text)).
        cbn [repeatStr append].
        refine (conj eq_refl (conj _ (conj _ (conj _ _)))); intros;
          try lia;
          match goal with
          | H : _ \/ _ |- _ => destruct H as [H|H]; [congruence | lia]
          end. }
  destruct Shape as (l & r & E & S & HR & HL & HC).
  split; [|split; [|split; [|split]]].
  - intros H. unfold alignText.
    destruct (visualWidth text >=? width) eqn:G; [reflexivity|].
    rewrite Z.geb_leb in G. apply Z.leb_gt in G. lia.
  - rewrite E, !len_append, !len_repeatStr_space. lia.
  - exists l, r. auto.
  - intros N H. rewrite E, visualWidth_spaces_left, visualWidth_spaces_right.
    destruct H as [H|H].
    + rewrite H. lia.
    + rewrite (HR (or_introl H)). destruct (openAfter false text); lia.
  - intros N O A. rewrite E, visualWidth_spaces_left, visualWidth_spaces_right, O.
    assert (0 < Z.of_nat r); [|lia].
    destruct (Z.eq_dec a AlignCenter) as [C|C].
    + specialize (HC C). lia.
    + specialize (HL A C). lia.
Qed.

Example alignText_samples :
  alignText "ab" 5 AlignLeft = "ab   " /\
  alignText "ab" 5 AlignRight = "   ab" /\
  alignText "ab" 5 AlignCenter = " ab  " /\
  alignText "abcdef" 5 AlignCenter = "abcdef" /\
  alignText (GreenCode ++ "ab" ++ Reset) 5 AlignLeft
  = GreenCode ++ "ab" ++ Reset ++ "   " /\
  alignText "✓" 5 AlignLeft = "✓  ".
Proof. repeat split. Qed.

(* ------------------------------------------------------------------ *)
(** ** The messages of semantic.go *)

Lemma say_colorize (m : Message) (e : Env) (text : string) :
  say m e text = colorize e (labelled m text) (codesOf m).
Proof.
  unfold labelled.
  destruct m; cbn [say markerOf codesOf];
    unfold Success, Error, Warning, Info, Debug, TableSuccess, TableError,
      TableWarning, TableInfo, TableDebug;
    destruct (text =? "")%string; reflexivity.
Qed.

Lemma markerOf_escFree (m : Message) : escFree (markerOf m ++ " ") = true.
Proof. destruct m; reflexivity. Qed.

Lemma openAfter_escFree (s : string) : escFree s = true -> openAfter false s = false.
Proof.
  unfold escFree. induction s as [|c s IH]; [reflexivity|].
  cbn [list_ascii_of_string forallb openAfter]. intros H.
  apply andb_true_iff in H. destruct H as [H1 H2].
  apply negb_true_iff in H1. rewrite H1. now apply IH.
Qed.

(** X5. Each message function of semantic.go returns its marker (alone
    for an empty text, else followed by a space and the text) wrapped
    by [colorize]: exactly that label when the policy is disabled, and
    in any case text that strips to what the label strips to, whose
    visual width is that of the marker plus, for a non-empty text, one
    plus that of the text.  The table-safe markers measure 4, 5, 3, 3
    and 3. *)
Theorem semantic_messages_are_labels (m : Message) (e : Env) (text : string) :
  say m e text = colorize e (labelled m text) (codesOf m) /\
  (isColorEnabled e = false -> say m e text = labelled m text) /\
  stripANSI (say m e text) = stripANSI (labelled m text) /\
  visualWidth (say m e text)
  = visualWidth (markerOf m)
    + (if (text =? "")%string then 0 else 1 + visualWidth text) /\
  map (fun k => visualWidth (say k e ""))
      [MsgTableSuccess; MsgTableError; MsgTableWarning; MsgTableInfo;
       MsgTableDebug]
  = [4; 5; 3; 3; 3].
Proof.
  assert (S : forall k, forallb isSequence (codesOf k) = true)
    by (intros k; destruct k; reflexivity).
  assert (V : forall k t, visualWidth (say k e t) = visualWidth (labelled k t)).
  { intros k t. rewrite say_colorize.
    now rewrite !visualWidth_kept, (kept_colorize e _ _ (S k)). }
  split; [apply say_colorize|]. split; [|split; [|split]].
  - intros D. rewrite say_colorize. unfold colorize. now rewrite D.
  - rewrite say_colorize.
    now rewrite !stripANSI_kept, (kept_colorize e _ _ (S m)).
  - rewrite V. unfold labelled. destruct (text =? "")%string; [lia|].
    rewrite <- append_assoc, visualWidth_app.
    rewrite (openAfter_escFree _ (markerOf_escFree m)).
    rewrite <- visualWidth_kept, visualWidth_app.
    assert (O : openAfter false (markerOf m) = false) by (destruct m; reflexivity).
    rewrite O. change (len (kept false " ")) with 1. lia.
  - cbn [map]. rewrite !V. reflexivity.
Qed.
(* ------------------------------------------------------------------ *)
(** ** Styles *)

Lemma nth_setNth_same {A} (i : nat) (x d : A) : forall l,
  (i < List.length l)%nat -> nth i (setNth i x l) d = x.
Proof.
  induction i as [|i IH]; intros [|y l] H; cbn in *; try lia; auto.
  apply IH. lia.
Qed.

Lemma nth_setNth_other {A} (i j : nat) (x d : A) : forall l,
  i <> j -> nth j (setNth i x l) d = nth j l d.
Proof.
  revert j. induction i as [|i IH]; intros [|j] [|y l] H; cbn; auto;
    try congruence.
Qed.

Lemma Style_add_spec (code : string) (s : Style.Ptr) (h : Style.Heap) :
  (s < List.length h)%nat ->
  fst (Style.add code s h) = s /\
  List.length (snd (Style.add code s h)) = List.length h /\
  Style.codes (snd (Style.add code s h)) s = (Style.codes h s ++ [code])%list /\
  (forall t, t <> s -> Style.codes (snd (Style.add code s h)) t = Style.codes h t).
Proof.
  intros H. unfold Style.add, Style.codes. cbn [fst snd].
  split; [reflexivity|]. split; [apply setNth_length|].
  split; [now apply nth_setNth_same|].
  intros t D. apply nth_setNth_other. congruence.
Qed.

Lemma Style_chain_spec (cs : list string) : forall (s : Style.Ptr) (h : Style.Heap),
  (s < List.length h)%nat ->
  fst (Style.chain (map Style.add cs) s h) = s /\
  List.length (snd (Style.chain (map Style.add cs) s h)) = List.length h /\
  Style.codes (snd (Style.chain (map Style.add cs) s h)) s
  = (Style.codes h s ++ cs)%list /\
  (forall t, t <> s ->
     Style.codes (snd (Style.chain (map Style.add cs) s h)) t = Style.codes h t).
Proof.
  unfold Style.chain.
  induction cs as [|c cs IH]; intros s h H; cbn [map fold_left fst snd].
  - rewrite app_nil_r. auto.
  - pose proof (Style_add_spec c s h H) as A.
    change (Style.andThen (s, h) (Style.add c)) with (Style.add c s h).
    destruct (Style.add c s h) as [s1 h1] eqn:E. cbn [fst snd] in A.
    destruct A as (P & L & C & O). subst s1.
    assert (V : (s < List.length h1)%nat). { rewrite L. exact H. }
    destruct (IH s h1 V) as (P' & L' & C' & O').
    split; [exact P'|]. split; [now rewrite L'|]. split.
    + rewrite C', C, <- app_assoc. reflexivity.
    + intros t D. rewrite (O' t D). auto.
Qed.

Lemma Style_methods_are_adds :
  Style.methods
  = map Style.add
        [RedCode; GreenCode; YellowCode; BlueCode; CyanCode; MagentaCode;
         WhiteCode; BlackCode; Bold; Underline; Italic; Dim;
         BgRed; BgGreen; BgYellow; BgBlue; BgCyan; BgMagenta; BgWhite;
         BgBlack].
Proof. reflexivity. Qed.

(** X6. A chain of style methods on a new style collects their codes
    in call order, and [Apply] is [colorize] with exactly those codes;
    the chain returns the style it started from and touches no other
    style.  Each shortcut style applies as the basic colour function of
    the same name does. *)
Theorem Style_chain_applies_codes_in_order
        (e : Env) (h : Style.Heap) (cs : list string) (text : string) :
  fst (Style.chain (map Style.add cs) (fst (Style.NewStyle h))
                   (snd (Style.NewStyle h)))
  = List.length h /\
  Style.Apply e
    (snd (Style.chain (map Style.add cs) (fst (Style.NewStyle h))
                      (snd (Style.NewStyle h))))
    (List.length h) text
  = colorize e text cs /\
  (forall t, (t < List.length h)%nat ->
     Style.codes
       (snd (Style.chain (map Style.add cs) (fst (Style.NewStyle h))
                         (snd (Style.NewStyle h)))) t
     = Style.codes h t) /\
  map (fun shortcut : Style.Heap -> Style.Ptr * Style.Heap =>
         Style.Apply e (snd (shortcut h)) (fst (shortcut h)) text)
      [Style.RedStyle; Style.GreenStyle; Style.YellowStyle; Style.BlueStyle;
       Style.CyanStyle; Style.MagentaStyle; Style.WhiteStyle;
       Style.BlackStyle]
  = map (fun colour : Env -> string -> string => colour e text)
        [Red; Green; Yellow; Blue; Cyan; Magenta; White; Black].
Proof.
  assert (Fresh : Style.codes (snd (Style.NewStyle h)) (List.length h) = []).
  { unfold Style.NewStyle, Style.codes. cbn [snd].
    now rewrite app_nth2, Nat.sub_diag by lia. }
  assert (Old : forall t, (t < List.length h)%nat ->
                  Style.codes (snd (Style.NewStyle h)) t = Style.codes h t).
  { intros t H. unfold Style.NewStyle, Style.codes. cbn [snd].
    now rewrite app_nth1 by lia. }
  assert (Valid : (List.length h < List.length (snd (Style.NewStyle h)))%nat).
  { unfold Style.NewStyle. cbn [snd]. rewrite length_app. cbn. lia. }
  assert (One : forall c,
             Style.Apply e (snd (Style.andThen (Style.NewStyle h) (Style.add c)))
                         (fst (Style.andThen (Style.NewStyle h) (Style.add c)))
                         text
             = colorize e text [c]).
  { intros c. unfold Style.andThen.
    change (fst (Style.NewStyle h)) with (List.length h).
    destruct (Style_add_spec c _ _ Valid) as (P & _ & C & _).
    unfold Style.Apply. now rewrite P, C, Fresh. }
  change (fst (Style.NewStyle h)) with (List.length h).
  destruct (Style_chain_spec cs _ _ Valid) as (P & _ & C & O).
  split; [exact P|]. split; [|split].
  - unfold Style.Apply. now rewrite C, Fresh.
  - intros t H. rewrite O by lia. now apply Old.
  - cbn [map].
    unfold Style.RedStyle, Style.GreenStyle, Style.YellowStyle,
      Style.BlueStyle, Style.CyanStyle, Style.MagentaStyle, Style.WhiteStyle,
      Style.BlackStyle, Style.Red, Style.Green, Style.Yellow, Style.Blue,
      Style.Cyan, Style.Magenta, Style.White, Style.Black.
    now rewrite !One.
Qed.

(** X7. The chainable methods change the style they are called on and
    return that same style, not a new one: two styles branched from a
    base are the base itself, each applies the codes of both branches,
    and the base has changed with them. *)
Theorem Style_branches_share_the_base :
  forall (e : Env) (h : Style.Heap) (base : Style.Ptr)
         (code1 code2 text : string),
    (base < List.length h)%nat ->
    fst (Style.add code1 base h) = base /\
    fst (Style.add code2 base (snd (Style.add code1 base h))) = base /\
    Style.codes (snd (Style.add code2 base (snd (Style.add code1 base h)))) base
    = (Style.codes h base ++ [code1; code2])%list /\
    Style.Apply e (snd (Style.add code2 base (snd (Style.add code1 base h))))
                (fst (Style.add code1 base h)) text
    = colorize e text (Style.codes h base ++ [code1; code2]).
Proof.
  intros e h base code1 code2 text H.
  destruct (Style_add_spec code1 base h H) as (P1 & L1 & C1 & _).
  destruct (Style_add_spec code2 base (snd (Style.add code1 base h))
              ltac:(lia)) as (P2 & _ & C2 & _).
  split; [exact P1|]. split; [exact P2|].
  assert (C : Style.codes
                (snd (Style.add code2 base (snd (Style.add code1 base h)))) base
              = (Style.codes h base ++ [code1; code2])%list).
  { rewrite C2, C1, <- app_assoc. reflexivity. }
  split; [exact C|]. unfold Style.Apply. now rewrite P1, C.
Qed.

(** The example of the doc comment of [Style]: [base := NewStyle().Bold()],
    [redBold := base.Red()], [greenBold := base.Green()]. *)
Lemma Style_branches_share_the_base_witness :
  (0 < List.length (snd (Style.andThen (Style.NewStyle []) Style.Bold)))%nat /\
  Style.codes (snd (Style.andThen (Style.NewStyle []) Style.Bold)) 0%nat = [Bold] /\
  Style.Apply (forced true)
    (snd (Style.Green 0%nat (snd (Style.Red 0%nat
       (snd (Style.andThen (Style.NewStyle []) Style.Bold))))))
    (fst (Style.Red 0%nat (snd (Style.andThen (Style.NewStyle []) Style.Bold))))
    "x"
  = Bold ++ RedCode ++ GreenCode ++ "x" ++ Reset.
Proof.
  split; [cbn; lia|]. split; [reflexivity|].
  exact (proj2 (proj2 (proj2
    (Style_branches_share_the_base (forced true)
       (snd (Style.andThen (Style.NewStyle []) Style.Bold)) 0%nat
       RedCode GreenCode "x" ltac:(cbn; lia))))).
Defined.

(* ------------------------------------------------------------------ *)
(** ** The spinner: construction with the built-in options *)






(** X9. The speed of a spinner must be positive: after
    [WithSpinnerSpeed(d)] with [d <= 0], [Start] launches a goroutine
    whose first step, [time.NewTicker], panics; with [d > 0], and with
    the default speed, the goroutine enters its loop. *)
Theorem nonpositive_speed_panics_in_goroutine
        (e : Env) (msg : string) (opts : list SpinnerOption) (d : Z) :
  Forall Exported opts ->
  tasks (Start (boot e msg (opts ++ [WithSpinnerSpeed d]))) = [Spawned] /\
  (d <= 0 ->
   taskStep 0 Begin (Start (boot e msg (opts ++ [WithSpinnerSpeed d])))
   = Some (Panicked NonPositiveInterval)) /\
  (0 < d ->
   exists w',
     taskStep 0 Begin (Start (boot e msg (opts ++ [WithSpinnerSpeed d])))
     = Some (Ok w') /\ tasks w' = [Looping]) /\
  exists w',
    taskStep 0 Begin (Start (boot e msg [])) = Some (Ok w') /\
    tasks w' = [Looping].
Proof.
  intros F.
  assert (X : Forall Exported (opts ++ [WithSpinnerSpeed d])).
  { apply Forall_app. split; [exact F|]. repeat constructor. }
  destruct (NewSpinner_idle msg X) as (_ & _ & _ & R & _).
  assert (S : speed (NewSpinner msg (opts ++ [WithSpinnerSpeed d])) = d).
  { rewrite NewSpinner_snoc. reflexivity. }
  assert (T : Start (boot e msg (opts ++ [WithSpinnerSpeed d]))
              = mkWorld e (setRunning true
                             (NewSpinner msg (opts ++ [WithSpinnerSpeed d])))
                        [Spawned] []).
  { unfold Start, boot. cbn [sp]. rewrite R. reflexivity. }
  rewrite T. split; [reflexivity|].
  unfold taskStep. cbn [tasks nth_error sp setRunning speed env].
  rewrite S. split; [|split].
  - intros D. destruct (Z.leb_spec d 0); [reflexivity | lia].
  - intros D. destruct (Z.leb_spec d 0); [lia|].
    eexists. split; [reflexivity|]. reflexivity.
  - eexists. split; reflexivity.
Qed.

Lemma nonpositive_speed_panics_in_goroutine_witness :
  Forall Exported [WithCustomFrames ["a"; "b"]] /\
  taskStep 0 Begin
    (Start (boot linuxTerminal "Loading"
                 ([WithCustomFrames ["a"; "b"]] ++ [WithSpinnerSpeed 0])))
  = Some (Panicked NonPositiveInterval).
Proof.
  assert (F : Forall Exported [WithCustomFrames ["a"; "b"]]).
  { repeat constructor. }
  split; [exact F|].
  exact (proj1 (proj2
    (nonpositive_speed_panics_in_goroutine linuxTerminal "Loading"
       [WithCustomFrames ["a"; "b"]] 0 F)) ltac:(lia)).
Defined.

(* ------------------------------------------------------------------ *)
(** ** The spinner: the line it draws *)

Lemma render_line (e : Env) (s s' : Spinner) (o : string) :
  render e s = Ok (s', o) ->
  exists frame,
    In frame (frames s) /\
    o = spinnerLine e s frame
        ++ repeatStr " " (Z.to_nat (len (lastOutput s)
                                    - len (spinnerLine e s frame))) /\
    len o = Z.max (len (spinnerLine e s frame)) (len (lastOutput s)) /\
    lastOutput s' = o.
Proof.
  unfold render. intros H.
  destruct (frameIndex s) as [i|p] eqn:FI; [|discriminate].
  cbn [bindRes] in H.
  destruct (index (frames s) i) as [frame|p] eqn:IX; [|discriminate].
  cbn [bindRes] in H.
  exists frame.
  assert (IN : In frame (frames s)).
  { unfold index in IX. destruct (_ || _); [discriminate|].
    destruct (nth_error (frames s) (Z.to_nat i)) eqn:N; [|discriminate].
    injection IX as <-. eapply nth_error_In; eauto. }
  assert (L : (if isColorEnabled e
               then CR ++ colorize e frame [color (setCurrent (wrap (current s + 1)) s)]
                    ++ " " ++ message (setCurrent (wrap (current s + 1)) s)
               else CR ++ frame ++ " "
                    ++ message (setCurrent (wrap (current s + 1)) s))
              = spinnerLine e s frame).
  { unfold spinnerLine, colorize. cbn [color message setCurrent].
    destruct (isColorEnabled e); reflexivity. }
  rewrite L in H. cbn [lastOutput setCurrent] in H.
  remember (spinnerLine e s frame) as line eqn:LINE.
  clear L LINE.
  destruct (Z.gtb_spec (len (lastOutput s)) (len line)) as [G|G];
    injection H as <- <-; (split; [exact IN|]); cbn [lastOutput setLastOutput].
  - split; [reflexivity|]. split; [|reflexivity].
    rewrite len_append, len_repeatStr_space. lia.
  - replace (Z.to_nat _) with 0%nat by lia. cbn [repeatStr].
    rewrite append_nil_r. split; [reflexivity|]. split; [lia|reflexivity].
Qed.

(** X10. A rendering writes a carriage return, the frame ([colorize]d
    with the spinner's colour), a space and the message, followed by
    as many spaces as the line is shorter than the previous output: its
    length is the larger of the two, and it becomes the previous
    output of the next rendering. *)
Theorem render_pads_to_previous_output
        (e : Env) (s s' : Spinner) (o : string) :
  render e s = Ok (s', o) ->
  exists frame,
    In frame (frames s) /\
    o = (CR ++ colorize e frame [color s] ++ " " ++ message s)
        ++ repeatStr " "
             (Z.to_nat (len (lastOutput s)
                        - len (CR ++ colorize e frame [color s] ++ " "
                                  ++ message s))) /\
    len o = Z.max (len (CR ++ colorize e frame [color s] ++ " " ++ message s))
                  (len (lastOutput s)) /\
    lastOutput s' = o.
Proof. intros H. exact (render_line e s s' o H). Qed.

Lemma render_pads_to_previous_output_witness :
  render (forced false)
         (setLastOutput "0123456789abcdef" (UpdateMessage "ok" threeFrames))
  = Ok (setLastOutput (CR ++ "A ok" ++ "           ")
          (setCurrent 1 (UpdateMessage "ok" threeFrames)),
        CR ++ "A ok" ++ "           ") /\
  exists frame,
    len (CR ++ "A ok" ++ "           ")
    = Z.max (len (CR ++ colorize (forced false) frame [CyanCode] ++ " " ++ "ok"))
            16.
Proof.
  split; [reflexivity|].
  destruct (render_pads_to_previous_output (forced false)
              (setLastOutput "0123456789abcdef" (UpdateMessage "ok" threeFrames))
              (setLastOutput (CR ++ "A ok" ++ "           ")
                 (setCurrent 1 (UpdateMessage "ok" threeFrames)))
              (CR ++ "A ok" ++ "           ") eq_refl)
    as (frame & _ & _ & L & _).
  exists frame. exact L.
Defined.

Lemma stopSignal_fields (w : World) :
  env (stopSignal w) = env w /\ tasks (stopSignal w) = tasks w /\
  out (stopSignal w) = out w /\
  lastOutput (sp (stopSignal w)) = lastOutput (sp w) /\
  message (sp (stopSignal w)) = message (sp w) /\
  running (sp (stopSignal w)) = running (sp w).
Proof. unfold stopSignal. destruct (_ <? _)%nat; cbn; auto 10. Qed.

Lemma stopRun_width (k : StopKind) (msg : string) (w w' : World) :
  stopRun k msg w w' ->
  len (lastOutput (sp w)) <= len (lastOutput (sp w')).
Proof.
  intros [w0 R | w0 w1 w2 w3 w4 R B1 B2 B3 B4]; [lia|].
  apply background_drift in B1, B2, B3, B4.
  destruct (report_out k msg w4) as (_ & S & _). rewrite S.
  destruct (stopSignal_fields w1) as (_ & _ & _ & L & _).
  pose proof (drift_width B1) as D1. pose proof (drift_width B2) as D2.
  pose proof (drift_width B3) as D3. pose proof (drift_width B4) as D4.
  rewrite L in D2. cbn in D1, D4. lia.
Qed.

Lemma api_step_width (w w' : World) :
  api_step w w' ->
  len (lastOutput (sp w)) <= len (lastOutput (sp w')).
Proof.
  intros [w0 | k msg w0 w1 S | text w0 | b w0 | w0 w1 T].
  - unfold Start. destruct (running (sp w0)); cbn; lia.
  - eapply stopRun_width; eauto.
  - cbn. lia.
  - cbn. lia.
  - apply (drift_width (task_step_drift T)).
Qed.

Lemma reachable_width (w0 w : World) :
  reachable w0 w ->
  len (lastOutput (sp w0)) <= len (lastOutput (sp w)).
Proof.
  induction 1 as [|w1 w2 S _ IH]; [lia|].
  apply api_step_width in S. lia.
Qed.

(** X11. Nothing resets the previous output of a spinner: over any
    history of calls and goroutine steps ([Stop], a new [Start] and
    [UpdateMessage] with a shorter message included) it never gets
    shorter, so every line rendered later is at least as long as every
    line rendered before. *)
Theorem rendered_lines_never_get_shorter
        (w0 w : World) (s' : Spinner) (o : string) :
  reachable w0 w ->
  render (env w) (sp w) = Ok (s', o) ->
  len (lastOutput (sp w0)) <= len (lastOutput (sp w)) /\
  len (lastOutput (sp w)) <= len o /\
  len (CR ++ " " ++ message (sp w)) <= len o.
Proof.
  intros R H.
  split; [now apply reachable_width|].
  destruct (render_line _ _ _ _ H) as (frame & _ & _ & L & _).
  split; [lia|].
  assert (len (CR ++ " " ++ message (sp w))
          <= len (spinnerLine (env w) (sp w) frame)); [|lia].
  unfold spinnerLine. rewrite !len_append. unfold len. lia.
Qed.

Lemma afterTask_step (i : nat) (a : TaskAct) (w : World) :
  isOk (match taskStep i a w with Some r => r | None => Panicked DivideByZero end)
  = true ->
  api_step w (afterTask i a w).
Proof.
  intros H. apply api_task. exists i, a. unfold afterTask.
  destruct (taskStep i a w) as [[w'|p]|]; try discriminate. reflexivity.
Qed.

Lemma restarted_reachable : reachable drewOnce restarted.
Proof.
  unfold restarted.
  eapply Relation_Operators.rtn1_trans; [apply afterTask_step; reflexivity|].
  eapply Relation_Operators.rtn1_trans; [apply api_Start|].
  eapply Relation_Operators.rtn1_trans; [apply api_UpdateMessage|].
  eapply Relation_Operators.rtn1_trans; [apply afterTask_step; reflexivity|].
  eapply Relation_Operators.rtn1_trans;
    [apply (api_Stop (k := WithSuccess) (msg := "")); apply stopRun_alone|].
  apply rtn1_refl.
Qed.

Lemma rendered_lines_never_get_shorter_witness :
  reachable drewOnce restarted /\
  render (env restarted) (sp restarted)
  = Ok (setLastOutput (CR ++ "⠙ ok" ++ "           ")
          (setCurrent 2 (sp restarted)),
        CR ++ "⠙ ok" ++ "           ") /\
  lastOutput (sp drewOnce) = CR ++ "⠋ Loading files" /\
  len (lastOutput (sp drewOnce)) <= len (CR ++ "⠙ ok" ++ "           ").
Proof.
  split; [exact restarted_reachable|]. split; [reflexivity|].
  split; [reflexivity|].
  destruct (rendered_lines_never_get_shorter drewOnce restarted
              (setLastOutput (CR ++ "⠙ ok" ++ "           ")
                 (setCurrent 2 (sp restarted)))
              (CR ++ "⠙ ok" ++ "           ")
              restarted_reachable eq_refl) as (A & B & _).
  exact (Z.le_trans _ _ _ A B).
Defined.

(* ------------------------------------------------------------------ *)
(** ** The spinner: stopping twice *)

Lemma stopRun_idle_after (k : StopKind) (msg : string) (w w' : World) :
  stopRun k msg w w' -> running (sp w') = false.
Proof.
  intros H. destruct (running (sp w)) eqn:R.
  - destruct (stopRun_running_out R H) as (? & ? & ? & _ & _ & _ & _ & _ & I & _).
    exact I.
  - inversion H; subst; congruence.
Qed.

Lemma stopRun_not_running (k : StopKind) (msg : string) (w w' : World) :
  running (sp w) = false -> stopRun k msg w w' -> w' = w.
Proof.
  intros R H. inversion H; subst; [reflexivity | congruence].
Qed.

(** X12. A stopping call on a spinner that is not running does
    nothing at all: after a complete [Stop] or [StopWithError],
    whatever the goroutines did meanwhile, a second [Stop] or
    [StopWithError] returns the world unchanged, so the message of the
    second call (an error message too) is never printed. *)
Theorem second_stop_does_nothing
        (k k' : StopKind) (msg msg' : string) (w w1 w2 : World) :
  stopRun k msg w w1 ->
  stopRun k' msg' w1 w2 ->
  w2 = w1 /\ newEvents w1 w2 = [].
Proof.
  intros H1 H2.
  assert (E : w2 = w1).
  { eapply stopRun_not_running; [|exact H2].
    eapply stopRun_idle_after; exact H1. }
  split; [exact E|]. subst w2. unfold newEvents. apply skipn_all.
Qed.

Lemma second_stop_does_nothing_witness :
  stopRun WithSuccess "done" (started linuxTerminal "Loading")
          (Stop "done" (started linuxTerminal "Loading")) /\
  stopRun WithError "failed" (Stop "done" (started linuxTerminal "Loading"))
          (StopWithError "failed"
             (Stop "done" (started linuxTerminal "Loading"))) /\
  newEvents (Stop "done" (started linuxTerminal "Loading"))
            (StopWithError "failed"
               (Stop "done" (started linuxTerminal "Loading"))) = [].
Proof.
  split; [apply stopRun_alone|]. split; [apply stopRun_alone|].
  exact (proj2 (second_stop_does_nothing WithSuccess WithError "done" "failed"
                  (started linuxTerminal "Loading")
                  (Stop "done" (started linuxTerminal "Loading"))
                  (StopWithError "failed"
                     (Stop "done" (started linuxTerminal "Loading")))
                  (stopRun_alone _ _ _) (stopRun_alone _ _ _))).
Defined.

(* ------------------------------------------------------------------ *)
(** ** The spinner: hiding and showing the cursor *)
















(** When the override is switched off between the start of the
    goroutine and its return, the cursor stays hidden. *)
Example cursor_stays_hidden_when_override_changes :
  tasks switchedOff = [] /\
  fprints HideCursor (out switchedOff) = 1%nat /\
  fprints ShowCursor (out switchedOff) = 0%nat.
Proof. repeat split. Qed.

(* ------------------------------------------------------------------ *)
(** ** The table: its own colour test *)

Lemma tableIsColorEnabled_true (e : Env) :
  tableIsColorEnabled e = Done true <->
  isTerminal e = true /\ getenv e "NO_COLOR" = "" /\ getenv e "CI" = "".
Proof.
  unfold tableIsColorEnabled, isTerminal, isTerminalM, value, bind, ask, ret.
  destruct (stdoutStat e) as [mode|]; cbn -[ModeCharDevice Z.land].
  - destruct (Z.land mode ModeCharDevice =? 0); cbn;
      [intuition discriminate|].
    destruct (String.eqb_spec (getenv e "NO_COLOR") ""); cbn;
      [|intuition discriminate].
    destruct (String.eqb_spec (getenv e "CI") ""); cbn;
      [|intuition discriminate].
    tauto.
  - intuition discriminate.
Qed.

(** X14. The table's colour test is not the colour policy: it ignores
    [ForceColors]; it panics when [Stat] on the standard output fails,
    where the policy answers false; it treats every non-empty [CI]
    and the current [NO_COLOR] as a reason not to colour.  It answers
    true exactly on a terminal with both variables empty; the policy
    then answers true as well, unless it is overridden, [NO_COLOR]
    was set at start-up, or the system is Windows. *)
Theorem tableIsColorEnabled_differs_from_policy (e : Env) :
  (forall b, tableIsColorEnabled (ForceColors b e) = tableIsColorEnabled e) /\
  (stdoutStat e = None ->
   tableIsColorEnabled e = Crashed NilDereference /\
   (forceColors e = None -> isColorEnabled e = false)) /\
  (tableIsColorEnabled e = Done true <->
   isTerminal e = true /\ getenv e "NO_COLOR" = "" /\ getenv e "CI" = "") /\
  (tableIsColorEnabled e = Done true ->
   forceColors e = None -> noColor e = false -> onWindows e = false ->
   isColorEnabled e = true) /\
  (isTerminal e = true -> getenv e "CI" = "false" ->
   tableIsColorEnabled e = Done false /\ isCI e = false).
Proof.
  split; [reflexivity|]. split; [|split; [apply tableIsColorEnabled_true|split]].
  - intros S. split; [unfold tableIsColorEnabled; now rewrite S|].
    intros F. rewrite isColorEnabled_unfold, F.
    assert (T : isTerminal e = false).
    { unfold isTerminal, isTerminalM, value, bind, ask, ret. now rewrite S. }
    rewrite T. now destruct (noColor e).
  - intros H F N W. apply tableIsColorEnabled_true in H.
    destruct H as (T & _ & C).
    rewrite isColorEnabled_unfold, F, N, T, W.
    assert (I : isCI e = false).
    { destruct (isCI e) eqn:E; [|reflexivity].
      apply isCI_spec in E. rewrite C in E. destruct E; discriminate. }
    now rewrite I.
  - intros T C. split.
    + apply isTerminal_spec in T. destruct T as (mode & S & M).
      unfold tableIsColorEnabled. rewrite S, C.
      destruct (Z.eqb_spec (Z.land mode ModeCharDevice) 0); [contradiction|].
      now destruct (negb (getenv e "NO_COLOR" =? "")%string).
    + destruct (isCI e) eqn:E; [|reflexivity].
      apply isCI_spec in E. rewrite C in E. destruct E; discriminate.
Qed.

(* ------------------------------------------------------------------ *)
(** ** The table: colouring a cell *)

Lemma kept_wrapped (color text : string) :
  isSequence color = true ->
  kept false (color ++ text ++ ESC ++ "[0m") = kept false text.
Proof.
  intros S. destruct (isSequence_kept color false S) as [K O].
  rewrite kept_app, K, O, kept_app.
  destruct (isSequence_kept (ESC ++ "[0m") (openAfter false text) eq_refl)
    as [K' _].
  rewrite K'. cbn. now rewrite append_nil_r.
Qed.

(** X15. [colorizeCell] leaves a cell alone when the colour is empty
    or the cell already contains the bytes ESC [, without consulting
    the terminal; otherwise the cell comes back wrapped in the colour
    and the reset sequence if [tableIsColorEnabled] says so, and
    unchanged if not.  With a colour that is an escape sequence the
    visual width of the cell is the same in every case. *)
Theorem colorizeCell_keeps_styled_cells (e : Env) (cell color : string) :
  (color = "" \/ contains cell (ESC ++ "[") = true ->
   colorizeCell e cell color = Done cell) /\
  (color <> "" -> contains cell (ESC ++ "[") = false ->
   colorizeCell e cell color
   = let* enabled := tableIsColorEnabled e in
     Done (if enabled then color ++ cell ++ Reset else cell)) /\
  (forall shown,
     colorizeCell e cell color = Done shown ->
     isSequence color = true ->
     visualWidth shown = visualWidth cell /\
     stripANSI shown = stripANSI cell).
Proof.
  unfold colorizeCell, Table_colorize, tableColorize.
  split; [|split].
  - intros [-> | C]; [reflexivity|]. rewrite C. now rewrite orb_true_r.
  - intros N C. rewrite C.
    destruct (String.eqb_spec color ""); [contradiction|]. cbn [orb].
    destruct (tableIsColorEnabled e) as [[|]|c]; reflexivity.
  - intros shown H S.
    assert (E : shown = cell \/ shown = color ++ cell ++ ESC ++ "[0m").
    { destruct ((color =? "")%string || contains cell (ESC ++ "[")).
      - injection H as <-. now left.
      - destruct (color =? "")%string; [injection H as <-; now left|].
        destruct (tableIsColorEnabled e) as [[|]|c]; cbn in H;
          try discriminate; injection H as <-; [now right | now left]. }
    destruct E as [-> | ->]; [split; reflexivity|].
    rewrite !visualWidth_kept, !stripANSI_kept, (kept_wrapped _ _ S).
    split; reflexivity.
Qed.

(* ------------------------------------------------------------------ *)
(** ** The table: column widths *)

Lemma visualWidth_nonneg (s : string) : 0 <= visualWidth s.
Proof. rewrite visualWidth_kept. unfold len. lia. Qed.

Lemma lenSlice_app {A} (xs ys : list A) :
  lenSlice (xs ++ ys) = lenSlice xs + lenSlice ys.
Proof. unfold lenSlice. rewrite length_app. lia. Qed.

Lemma index_middle {A} (pre : list A) (x : A) (post : list A) :
  index (pre ++ x :: post) (lenSlice pre) = Ok x.
Proof.
  unfold index. rewrite lenSlice_app. unfold lenSlice. cbn [List.length].
  destruct (Z.ltb_spec (Z.of_nat (List.length pre)) 0); [lia|].
  destruct (Z.leb_spec (Z.of_nat (List.length pre) + Z.of_nat (S (List.length post)))
                       (Z.of_nat (List.length pre))); [lia|].
  cbn [orb]. rewrite Nat2Z.id, nth_error_app2, Nat.sub_diag by lia. reflexivity.
Qed.

Lemma setNth_middle {A} (pre : list A) (x y : A) (post : list A) :
  setNth (List.length pre) y (pre ++ x :: post) = (pre ++ y :: post)%list.
Proof. induction pre as [|p pre IH]; cbn; [reflexivity | now rewrite IH]. Qed.

Lemma store_middle (pre : list Z) (x y : Z) (post : list Z) :
  store (pre ++ x :: post) (lenSlice pre) y = Done (pre ++ y :: post)%list.
Proof.
  unfold store. rewrite lenSlice_app. unfold lenSlice. cbn [List.length].
  destruct (Z.ltb_spec (Z.of_nat (List.length pre)) 0); [lia|].
  destruct (Z.leb_spec (Z.of_nat (List.length pre) + Z.of_nat (S (List.length post)))
                       (Z.of_nat (List.length pre))); [lia|].
  cbn [orb]. now rewrite Nat2Z.id, setNth_middle.
Qed.

Lemma lenSlice_snoc {A} (xs : list A) (x : A) :
  lenSlice (xs ++ [x]) = lenSlice xs + 1.
Proof. rewrite lenSlice_app. reflexivity. Qed.

Lemma cellWidthsFrom_raise (cells : list string) :
  forall (pre ws : list Z) (numCols : Z),
    numCols = lenSlice (pre ++ ws) ->
    cellWidthsFrom (lenSlice pre) cells numCols (pre ++ ws)
    = Done (pre ++ raise ws cells)%list.
Proof.
  induction cells as [|cell rest IH]; intros pre ws numCols N.
  - cbn. now destruct ws.
  - cbn [cellWidthsFrom]. rewrite lenSlice_app in N.
    destruct ws as [|w ws].
    + destruct (Z.geb_spec (lenSlice pre) numCols) as [G|G];
        [reflexivity | unfold lenSlice in *; cbn in N; lia].
    + destruct (Z.geb_spec (lenSlice pre) numCols) as [G|G];
        [unfold lenSlice in *; cbn [List.length] in N; lia|].
      rewrite index_middle. cbn [lift andThen raise].
      assert (S : (if visualWidth cell >? w
                   then store (pre ++ w :: ws) (lenSlice pre) (visualWidth cell)
                   else Done (pre ++ w :: ws)%list)
                  = Done (pre ++ Z.max w (visualWidth cell) :: ws)%list).
      { destruct (Z.gtb_spec (visualWidth cell) w).
        - rewrite store_middle. f_equal. f_equal. f_equal. lia.
        - f_equal. f_equal. f_equal. lia. }
      rewrite S. cbn [andThen].
      replace (pre ++ Z.max w (visualWidth cell) :: ws)%list
        with ((pre ++ [Z.max w (visualWidth cell)]) ++ ws)%list
        by now rewrite <- app_assoc.
      rewrite <- lenSlice_snoc with (x := Z.max w (visualWidth cell)).
      rewrite IH.
      * now rewrite <- app_assoc.
      * rewrite !lenSlice_app in *. unfold lenSlice in *. cbn [List.length] in *. lia.
Qed.

Lemma headerWidthsFrom_full (hs : list string) :
  forall (k : Z) (ws : list Z),
    lenSlice ws <= k -> headerWidthsFrom k hs ws = Done ws.
Proof.
  induction hs as [|h hs IH]; intros k ws L; [reflexivity|].
  cbn [headerWidthsFrom].
  destruct (Z.ltb_spec k (lenSlice ws)); [lia|].
  cbn [andThen]. apply IH. lia.
Qed.

Lemma headerWidthsFrom_assign (hs : list string) :
  forall (pre ws : list Z),
    headerWidthsFrom (lenSlice pre) hs (pre ++ ws)
    = Done (pre ++ assign ws hs)%list.
Proof.
  induction hs as [|header rest IH]; intros pre ws.
  - cbn. now destruct ws.
  - destruct ws as [|w ws].
    + rewrite app_nil_r. rewrite headerWidthsFrom_full by lia.
      cbn [assign]. now rewrite app_nil_r.
    + cbn [headerWidthsFrom].
      destruct (Z.ltb_spec (lenSlice pre) (lenSlice (pre ++ w :: ws))) as [L|L].
      * rewrite store_middle. cbn [andThen assign].
        replace (pre ++ visualWidth header :: ws)%list
          with ((pre ++ [visualWidth header]) ++ ws)%list
          by now rewrite <- app_assoc.
        rewrite <- lenSlice_snoc with (x := visualWidth header).
        rewrite IH. now rewrite <- app_assoc.
      * rewrite lenSlice_app in L. unfold lenSlice in L. cbn [List.length] in L. lia.
Qed.

Lemma raise_length (cells : list string) : forall ws,
  List.length (raise ws cells) = List.length ws.
Proof.
  induction cells as [|c cells IH]; intros [|w ws]; cbn; auto.
Qed.

Lemma assign_zeros (hs : list string) : forall n,
  assign (repeat 0 n) hs = raise (repeat 0 n) hs.
Proof.
  induction hs as [|h hs IH]; intros [|n]; cbn; auto.
  rewrite IH. f_equal. pose proof (visualWidth_nonneg h). lia.
Qed.

Lemma fold_raise_length (rs : list (list string)) : forall ws,
  List.length (fold_left raise rs ws) = List.length ws.
Proof.
  induction rs as [|r rs IH]; intros ws; cbn; [reflexivity|].
  now rewrite IH, raise_length.
Qed.

Lemma withWidths_same (t : Table) : withWidths (columnWidths t) t = t.
Proof. now destruct t. Qed.

Lemma withWidths_twice (ws ws' : list Z) (t : Table) :
  withWidths ws (withWidths ws' t) = withWidths ws t.
Proof. reflexivity. Qed.

Lemma updateWidthsFromCells_raise (cells : list string) (numCols : Z)
      (t : Table) :
  numCols = lenSlice (columnWidths t) ->
  updateWidthsFromCells cells numCols t
  = Done (withWidths (raise (columnWidths t) cells) t).
Proof.
  intros N. unfold updateWidthsFromCells.
  pose proof (cellWidthsFrom_raise cells [] (columnWidths t) numCols N) as H.
  cbn [app] in H. change (lenSlice []) with 0 in H. now rewrite H.
Qed.

Lemma rowWidthsFrom_raise (rs : list (list string)) (numCols : Z) :
  forall t,
    numCols = lenSlice (columnWidths t) ->
    rowWidthsFrom rs numCols t
    = Done (withWidths
              (fold_left raise
                 (filter (fun row => negb (isSeparatorRow row)) rs)
                 (columnWidths t)) t).
Proof.
  induction rs as [|row rs IH]; intros t N.
  - cbn. now rewrite withWidths_same.
  - cbn [rowWidthsFrom filter].
    destruct (isSeparatorRow row); cbn [negb]; [now apply IH|].
    rewrite updateWidthsFromCells_raise by exact N. cbn [andThen fold_left].
    rewrite IH; [reflexivity|]. cbn [columnWidths withWidths].
    unfold lenSlice in *. now rewrite raise_length.
Qed.

Lemma raise_nonneg (cells : list string) : forall ws,
  Forall (fun w => 0 <= w) ws -> Forall (fun w => 0 <= w) (raise ws cells).
Proof.
  induction cells as [|c cells IH]; intros [|w ws] F; cbn; auto.
  inversion F; subst. constructor; [lia | now apply IH].
Qed.

Lemma widestIn_nonneg (rs : list (list string)) (i : nat) : 0 <= widestIn rs i.
Proof.
  unfold widestIn. induction (columnCells rs i) as [|x xs IH]; cbn; lia.
Qed.

Lemma widestIn_cons (row : list string) (rs : list (list string)) (i : nat) :
  widestIn (row :: rs) i
  = Z.max (match nth_error row i with
           | Some cell => visualWidth cell
           | None => 0
           end) (widestIn rs i).
Proof.
  unfold widestIn, columnCells. cbn [flat_map].
  destruct (nth_error row i); cbn [app fold_right]; [reflexivity|].
  pose proof (widestIn_nonneg rs i) as N. unfold widestIn, columnCells in N. lia.
Qed.

Lemma nth_error_raise (cells : list string) : forall ws i w,
  nth_error ws i = Some w ->
  nth_error (raise ws cells) i
  = Some (Z.max w (match nth_error cells i with
                   | Some cell => visualWidth cell
                   | None => w
                   end)).
Proof.
  induction cells as [|c cells IH]; intros [|w0 ws] [|i] w H; cbn in *;
    try discriminate.
  - injection H as ->. f_equal. lia.
  - rewrite H. destruct i; f_equal; lia.
  - injection H as ->. reflexivity.
  - now apply IH.
Qed.

Lemma nth_error_fold_raise (rs : list (list string)) : forall ws i w,
  nth_error ws i = Some w -> 0 <= w ->
  nth_error (fold_left raise rs ws) i = Some (Z.max w (widestIn rs i)).
Proof.
  induction rs as [|row rs IH]; intros ws i w H N.
  - cbn. rewrite H. f_equal. cbn. lia.
  - cbn [fold_left]. rewrite widestIn_cons.
    pose proof (nth_error_raise row ws i w H) as R.
    rewrite (IH _ _ _ R) by lia. f_equal.
    pose proof (widestIn_nonneg rs i).
    destruct (nth_error row i) as [cell|];
      [pose proof (visualWidth_nonneg cell)|]; lia.
Qed.

Lemma determineColumnCount_nonneg (t : Table) : 0 <= determineColumnCount t.
Proof.
  unfold determineColumnCount, lenSlice.
  destruct (_ >? _); [lia|]. destruct (rows t); lia.
Qed.

(** The widths an auto-sized table ends up with. *)
Lemma calculateColumnWidths_auto (t : Table) :
  columnWidths t = [] ->
  TableOptions.ColumnWidths (options t) = [] ->
  determineColumnCount t <> 0 ->
  calculateColumnWidths t
  = Done (withWidths
            (map (constrainWidth t)
                 (fold_left raise (measured t)
                    (repeat 0 (Z.to_nat (determineColumnCount t))))) t).
Proof.
  intros W F N. unfold calculateColumnWidths, useFixedWidths.
  rewrite W, F. change (lenSlice [] >? 0) with false.
  change (lenSlice [] =? 0) with true. cbv iota.
  destruct (Z.eqb_spec (determineColumnCount t) 0) as [Z0|_]; [contradiction|].
  set (n := Z.to_nat (determineColumnCount t)).
  unfold updateWidthsFromHeaders, initializeWidths.
  cbn [columnWidths withWidths headers].
  pose proof (headerWidthsFrom_assign (headers t) [] (repeat 0 n)) as H.
  cbn [app] in H. change (lenSlice []) with 0 in H. fold n. rewrite H.
  cbn [andThen]. rewrite assign_zeros.
  unfold updateWidthsFromRows. cbn [rows withWidths].
  assert (L : determineColumnCount t
              = lenSlice (raise (repeat 0 n) (headers t))).
  { unfold lenSlice. rewrite raise_length, repeat_length. unfold n.
    pose proof (determineColumnCount_nonneg t). lia. }
  rewrite rowWidthsFrom_raise by exact L. cbn [andThen].
  unfold updateWidthsFromFooter.
  rewrite updateWidthsFromCells_raise.
  - cbn [andThen footer withWidths columnWidths]. unfold applyWidthConstraints.
    cbn [columnWidths withWidths]. unfold measured.
    cbn [fold_left]. rewrite fold_left_app. cbn [fold_left].
    now destruct t.
  - cbn [columnWidths withWidths]. unfold lenSlice.
    rewrite fold_raise_length. exact L.
Qed.

(** The four ways [calculateColumnWidths] can go; it never panics. *)
Lemma calculateColumnWidths_cases (t : Table) :
  exists ws,
    calculateColumnWidths t = Done (withWidths ws t) /\
    (columnWidths t <> [] -> ws = columnWidths t) /\
    (columnWidths t = [] -> determineColumnCount t = 0 -> ws = []) /\
    (columnWidths t = [] -> determineColumnCount t <> 0 ->
     TableOptions.ColumnWidths (options t) <> [] ->
     ws = TableOptions.ColumnWidths (options t)) /\
    (columnWidths t = [] -> determineColumnCount t <> 0 ->
     TableOptions.ColumnWidths (options t) = [] ->
     ws = map (constrainWidth t)
              (fold_left raise (measured t)
                 (repeat 0 (Z.to_nat (determineColumnCount t))))).
Proof.
  destruct (columnWidths t) as [|w0 ws0] eqn:W.
  - destruct (Z.eq_dec (determineColumnCount t) 0) as [N|N].
    + exists []. split; [|intuition congruence].
      unfold calculateColumnWidths. rewrite W, N.
      change (lenSlice [] >? 0) with false. cbn.
      rewrite <- W. now rewrite withWidths_same.
    + destruct (TableOptions.ColumnWidths (options t)) as [|f fs] eqn:F.
      * eexists. split; [now apply calculateColumnWidths_auto|].
        intuition congruence.
      * exists (f :: fs). split; [|intuition congruence].
        unfold calculateColumnWidths, useFixedWidths. rewrite W, F.
        change (lenSlice [] >? 0) with false. cbv iota.
        destruct (Z.eqb_spec (determineColumnCount t) 0); [contradiction|].
        assert (L : (lenSlice (f :: fs) =? 0) = false).
        { apply Z.eqb_neq. unfold lenSlice. cbn [List.length]. lia. }
        rewrite L. reflexivity.
  - exists (w0 :: ws0). split; [|intuition congruence].
    unfold calculateColumnWidths. rewrite W.
    assert (L : (lenSlice (w0 :: ws0) >? 0) = true).
    { apply Z.gtb_lt. unfold lenSlice. cbn [List.length]. lia. }
    rewrite L, <- W. now rewrite withWidths_same.
Qed.

Lemma constrainWidth_lower (t : Table) (w : Z) :
  TableOptions.MaxWidth (options t) <= 0 -> w <= constrainWidth t w.
Proof.
  intros M. unfold constrainWidth.
  destruct (Z.gtb_spec (TableOptions.MinWidth (options t)) 0);
    destruct (Z.ltb_spec w (TableOptions.MinWidth (options t)));
    destruct (Z.gtb_spec (TableOptions.MaxWidth (options t)) 0);
    cbn; lia.
Qed.

Lemma widestIn_upper (rs : list (list string)) (i : nat)
      (row : list string) (cell : string) :
  In row rs -> nth_error row i = Some cell ->
  visualWidth cell <= widestIn rs i.
Proof.
  induction rs as [|r rs IH]; intros I N; [contradiction|].
  rewrite widestIn_cons. destruct I as [-> | I].
  - rewrite N. lia.
  - specialize (IH I N). lia.
Qed.

Lemma auto_widths_nth (t : Table) (i : nat) (w : Z) :
  nth_error (map (constrainWidth t)
               (fold_left raise (measured t)
                  (repeat 0 (Z.to_nat (determineColumnCount t))))) i
  = Some w ->
  w = constrainWidth t (widest t i).
Proof.
  intros H. rewrite nth_error_map in H.
  destruct (nth_error _ i) as [x|] eqn:E; [|discriminate].
  injection H as <-. f_equal.
  assert (Z0 : nth_error (repeat 0 (Z.to_nat (determineColumnCount t))) i
               = Some 0).
  { assert (L : (i < Z.to_nat (determineColumnCount t))%nat).
    { assert (S : nth_error
                    (fold_left raise (measured t)
                       (repeat 0 (Z.to_nat (determineColumnCount t)))) i
                  <> None) by congruence.
      apply nth_error_Some in S.
      now rewrite fold_raise_length, repeat_length in S. }
    now rewrite nth_error_repeat. }
  rewrite (nth_error_fold_raise _ _ _ _ Z0) in E by lia.
  injection E as <-. unfold widest.
  pose proof (widestIn_nonneg (measured t) i). lia.
Qed.

(** X16. Auto-sizing: for a table whose widths have not been computed
    and that has no fixed widths, [calculateColumnWidths] does not
    panic and gives one width per column; the width of column [i] is
    the largest visual width among the header, the cells of the rows
    that are not separators and the footer cell of that column, passed
    through [constrainWidth].  Without a maximum width every measured
    cell fits its column. *)
Theorem auto_sized_columns_fit (t : Table) :
  columnWidths t = [] ->
  TableOptions.ColumnWidths (options t) = [] ->
  determineColumnCount t <> 0 ->
  exists ws,
    calculateColumnWidths t = Done (withWidths ws t) /\
    lenSlice ws = determineColumnCount t /\
    (forall i w, nth_error ws i = Some w ->
                 w = constrainWidth t (widest t i)) /\
    (TableOptions.MaxWidth (options t) <= 0 ->
     forall row i cell w,
       In row (measured t) -> nth_error row i = Some cell ->
       nth_error ws i = Some w -> visualWidth cell <= w).
Proof.
  intros W F N. eexists. split; [now apply calculateColumnWidths_auto|].
  split; [|split].
  - unfold lenSlice. rewrite length_map, fold_raise_length, repeat_length.
    pose proof (determineColumnCount_nonneg t). lia.
  - apply auto_widths_nth.
  - intros M row i cell w I C H. apply auto_widths_nth in H. subst w.
    pose proof (widestIn_upper _ _ _ _ I C).
    pose proof (constrainWidth_lower t (widest t i) M). unfold widest in *. lia.
Qed.

Lemma auto_sized_columns_fit_witness :
  columnWidths people = [] /\
  TableOptions.ColumnWidths (options people) = [] /\
  determineColumnCount people <> 0 /\
  calculateColumnWidths people = Done (withWidths [5; 3] people) /\
  exists ws,
    calculateColumnWidths people = Done (withWidths ws people) /\
    lenSlice ws = 2 /\
    forall i w, nth_error ws i = Some w ->
                w = constrainWidth people (widest people i).
Proof.
  split; [reflexivity|]. split; [reflexivity|].
  split; [discriminate|]. split; [reflexivity|].
  destruct (auto_sized_columns_fit people eq_refl eq_refl
              ltac:(discriminate)) as (ws & C & L & N & _).
  exists ws. split; [exact C|]. split; [exact L | exact N].
Defined.

Lemma String_calculates (e : Env) (t t1 : Table) (s : string) :
  String_ e t = Done (t1, s) -> calculateColumnWidths t = Done t1.
Proof.
  unfold String_. destruct (calculateColumnWidths t) as [t'|c]; [|discriminate].
  cbn [andThen].
  destruct (writeTopBorder e t' "") as [o1|c]; [|discriminate]. cbn [andThen].
  destruct (writeHeader e t' o1) as [o2|c]; [|discriminate]. cbn [andThen].
  destruct (writeRows e t' o2) as [o3|c]; [|discriminate]. cbn [andThen].
  destruct (writeFooter e t' o3) as [o4|c]; [|discriminate]. cbn [andThen].
  destruct (writeBottomBorder e t' o4) as [o5|c]; [|discriminate].
  cbn [andThen]. intros H. now injection H as -> _.
Qed.

Lemma calculateColumnWidths_nonempty (t t1 : Table) :
  calculateColumnWidths t = Done t1 ->
  determineColumnCount t <> 0 ->
  columnWidths t1 <> [] /\ headers t1 = headers t /\ rows t1 = rows t /\
  footer t1 = footer t /\ style t1 = style t /\ options t1 = options t.
Proof.
  intros C N.
  destruct (calculateColumnWidths_cases t) as (ws & E & Cached & _ & Fixed & Auto).
  rewrite E in C. injection C as <-. cbn [columnWidths withWidths].
  split; [|now destruct t].
  destruct (columnWidths t) as [|w0 ws0] eqn:W.
  - destruct (TableOptions.ColumnWidths (options t)) as [|f fs] eqn:F.
    + rewrite (Auto eq_refl N eq_refl). intros Z0.
      apply (f_equal (@List.length Z)) in Z0.
      rewrite length_map, fold_raise_length, repeat_length in Z0.
      pose proof (determineColumnCount_nonneg t). cbn in Z0. lia.
    + rewrite (Fixed eq_refl N ltac:(discriminate)). discriminate.
  - rewrite (Cached ltac:(discriminate)). discriminate.
Qed.

Lemma calculateColumnWidths_cached (t : Table) :
  columnWidths t <> [] -> calculateColumnWidths t = Done t.
Proof.
  intros W. destruct (calculateColumnWidths_cases t) as (ws & E & Cached & _).
  rewrite E, (Cached W). now rewrite withWidths_same.
Qed.

(** X17. The column widths are decided by the first [String()] of a
    table that has columns and stay as they are until [Clear()]: rows
    added and headers set afterwards are printed with the old widths,
    however wide their cells are.  [Clear] forgets the widths and the
    rows, and keeps the headers and the footer. *)
Theorem widths_are_frozen_until_Clear
        (e : Env) (t t1 : Table) (s : string) :
  String_ e t = Done (t1, s) ->
  determineColumnCount t <> 0 ->
  columnWidths t1 <> [] /\
  (forall cells t2 s2,
     String_ e (AddRow cells t1) = Done (t2, s2) ->
     columnWidths t2 = columnWidths t1) /\
  (forall hs t2 s2,
     String_ e (SetHeaders hs t1) = Done (t2, s2) ->
     columnWidths t2 = columnWidths t1) /\
  columnWidths (Clear t1) = [] /\ rows (Clear t1) = [] /\
  headers (Clear t1) = headers t /\ footer (Clear t1) = footer t.
Proof.
  intros S N. apply String_calculates in S.
  destruct (calculateColumnWidths_nonempty t t1 S N) as (W & H & _ & F & _).
  split; [exact W|]. split; [|split].
  - intros cells t2 s2 S2. apply String_calculates in S2.
    rewrite calculateColumnWidths_cached in S2 by exact W.
    now injection S2 as <-.
  - intros hs t2 s2 S2. apply String_calculates in S2.
    rewrite calculateColumnWidths_cached in S2 by exact W.
    now injection S2 as <-.
  - cbn. auto.
Qed.

Lemma widths_are_frozen_until_Clear_witness :
  String_ linuxTerminal people
  = Done (withWidths [5; 3] people, textOf (String_ linuxTerminal people)) /\
  determineColumnCount people <> 0 /\
  String_ linuxTerminal
          (AddRow ["Bartholomew"; "101"] (withWidths [5; 3] people))
  = Done (AddRow ["Bartholomew"; "101"] (withWidths [5; 3] people),
          textOf (String_ linuxTerminal
                    (AddRow ["Bartholomew"; "101"]
                            (withWidths [5; 3] people)))) /\
  columnWidths (AddRow ["Bartholomew"; "101"] (withWidths [5; 3] people))
  = columnWidths (withWidths [5; 3] people).
Proof.
  split; [reflexivity|]. split; [discriminate|]. split; [reflexivity|].
  exact (proj1 (proj2
    (widths_are_frozen_until_Clear linuxTerminal people
       (withWidths [5; 3] people) (textOf (String_ linuxTerminal people))
       eq_refl ltac:(discriminate)))
    ["Bartholomew"; "101"]
    (AddRow ["Bartholomew"; "101"] (withWidths [5; 3] people))
    (textOf (String_ linuxTerminal
               (AddRow ["Bartholomew"; "101"] (withWidths [5; 3] people))))
    eq_refl).
Defined.

(** X18. Fixed widths replace measuring: a table with
    [WithColumnWidths] gets exactly those widths, as many columns as
    there are widths and not as there are headers, and neither the
    cells nor [MinWidth] and [MaxWidth] are looked at.  A table
    without headers and rows gets no widths at all. *)
Theorem fixed_widths_replace_measuring (t : Table) :
  columnWidths t = [] ->
  TableOptions.ColumnWidths (options t) <> [] ->
  (determineColumnCount t <> 0 ->
   calculateColumnWidths t
   = Done (withWidths (TableOptions.ColumnWidths (options t)) t)) /\
  (determineColumnCount t = 0 -> calculateColumnWidths t = Done t).
Proof.
  intros W F.
  destruct (calculateColumnWidths_cases t) as (ws & E & _ & Empty & Fixed & _).
  split; intros N.
  - now rewrite E, (Fixed W N F).
  - rewrite E, (Empty W N), <- W. now rewrite withWidths_same.
Qed.

Lemma fixed_widths_replace_measuring_witness :
  columnWidths fixedTwo = [] /\
  TableOptions.ColumnWidths (options fixedTwo) <> [] /\
  determineColumnCount fixedTwo = 3 /\
  calculateColumnWidths fixedTwo = Done (withWidths [4; 2] fixedTwo).
Proof.
  split; [reflexivity|]. split; [discriminate|]. split; [reflexivity|].
  exact (proj1 (fixed_widths_replace_measuring fixedTwo eq_refl
                  ltac:(discriminate)) ltac:(discriminate)).
Defined.

(* ------------------------------------------------------------------ *)
(** ** The table: rows *)

Lemma getCellContent_nth (cells : list string) (i : Z) :
  0 <= i -> getCellContent cells i = Done (nth (Z.to_nat i) cells "").
Proof.
  intros N. unfold getCellContent, index.
  destruct (Z.ltb_spec i (lenSlice cells)) as [L|L].
  - destruct (Z.ltb_spec i 0); [lia|].
    destruct (Z.leb_spec (lenSlice cells) i); [lia|]. cbn [orb].
    destruct (nth_error cells (Z.to_nat i)) as [x|] eqn:E.
    + cbn. f_equal. symmetry. now apply nth_error_nth.
    + apply nth_error_None in E. unfold lenSlice in L. lia.
  - f_equal. symmetry. apply nth_overflow. unfold lenSlice in L. lia.
Qed.

Lemma cellPartsFrom_ext (e : Env) (t : Table) (cells cells' : list string)
      (color vb : string) (n : nat) :
  forall (k : nat) (i : Z) (parts : list string),
    0 <= i -> (Z.to_nat i + k <= n)%nat ->
    (forall j, (j < n)%nat -> nth j cells "" = nth j cells' "") ->
    cellPartsFrom e t k i parts cells color vb
    = cellPartsFrom e t k i parts cells' color vb.
Proof.
  induction k as [|k IH]; intros i parts I L H; [reflexivity|].
  cbn [cellPartsFrom]. rewrite !getCellContent_nth by exact I.
  rewrite (H (Z.to_nat i)) by lia. cbn [andThen].
  destruct (colorizeCell e (nth (Z.to_nat i) cells' "") color) as [d|c];
    [|reflexivity].
  cbn [andThen]. destruct (formatCell t d i) as [f|c]; [|reflexivity].
  cbn [andThen]. apply IH; [lia | lia | exact H].
Qed.

(** X19. A row is printed with exactly one cell per column: cells
    beyond the last column are dropped and missing cells are empty.
    Two rows (neither empty nor a separator) that agree on the cells
    of the table's columns, a missing cell counting as empty, give the
    same line. *)
Theorem buildRow_prints_one_cell_per_column
        (e : Env) (t : Table) (cells cells' : list string) (color : string) :
  cells <> [] -> cells' <> [] ->
  isSeparatorRow cells = false -> isSeparatorRow cells' = false ->
  (forall j, (j < List.length (columnWidths t))%nat ->
             nth j cells "" = nth j cells' "") ->
  buildRow e t cells color = buildRow e t cells' color.
Proof.
  intros N N' S S' H. unfold buildRow. rewrite S, S'.
  assert (Z0 : forall cs : list string, cs <> [] -> (lenSlice cs =? 0) = false).
  { intros [|c cs] C; [contradiction|]. apply Z.eqb_neq.
    unfold lenSlice. cbn [List.length]. lia. }
  rewrite (Z0 _ N), (Z0 _ N').
  destruct (getVerticalBorder e t) as [vb|c]; [|reflexivity].
  cbn [andThen]. unfold buildRowParts, appendCellParts.
  now rewrite (cellPartsFrom_ext e t cells cells' color vb
                 (List.length (columnWidths t)) (List.length (columnWidths t))
                 0 _ ltac:(lia) ltac:(cbn; lia) H).
Qed.

Lemma buildRow_prints_one_cell_per_column_witness :
  buildRow linuxTerminal (withWidths [5; 3] people) ["Bob"; "31"; "extra"] ""
  = buildRow linuxTerminal (withWidths [5; 3] people) ["Bob"; "31"] "" /\
  buildRow linuxTerminal (withWidths [5; 3] people) ["Bob"; "31"] ""
  = Done "| Bob   | 31  |".
Proof.
  split; [|reflexivity].
  apply (buildRow_prints_one_cell_per_column linuxTerminal
           (withWidths [5; 3] people) ["Bob"; "31"; "extra"] ["Bob"; "31"] "");
    try discriminate; try reflexivity.
  intros [|[|j]] L; try reflexivity. cbn in L. lia.
Defined.

(* ------------------------------------------------------------------ *)
(** ** The table: panics of [String] *)

Lemma andThen_crash_l {A B} (r : Outcome A) (k : A -> Outcome B) :
  isDone r = false -> isDone (andThen r k) = false.
Proof. now destruct r. Qed.

Lemma andThen_crash_r {A B} (r : Outcome A) (k : A -> Outcome B) :
  (forall a, isDone (k a) = false) -> isDone (andThen r k) = false.
Proof. intros H. destruct r; [apply H | reflexivity]. Qed.

Lemma formatCell_negative (t : Table) (d : string) (i : Z) :
  TableOptions.Padding (options t) < 0 ->
  formatCell t d i = Crashed NegativeRepeatCount.
Proof.
  intros P. unfold formatCell, Repeat.
  destruct (Z.ltb_spec (TableOptions.Padding (options t)) 0); [reflexivity | lia].
Qed.

Lemma buildRow_negative (e : Env) (t : Table) (cells : list string)
      (color : string) :
  TableOptions.Padding (options t) < 0 ->
  columnWidths t <> [] ->
  hasCells cells = true ->
  isDone (buildRow e t cells color) = false.
Proof.
  intros P W H. unfold hasCells in H. apply andb_prop in H.
  destruct H as [H1 H2]. unfold buildRow.
  destruct (lenSlice cells =? 0); [discriminate|].
  destruct (isSeparatorRow cells); [discriminate|].
  apply andThen_crash_r. intros vb. apply andThen_crash_l.
  unfold buildRowParts. apply andThen_crash_l. unfold appendCellParts.
  destruct (columnWidths t) as [|w ws]; [contradiction|].
  cbn [List.length cellPartsFrom].
  apply andThen_crash_r. intros cell. apply andThen_crash_r. intros d.
  apply andThen_crash_l. now rewrite formatCell_negative.
Qed.

Lemma writeRowsFrom_negative (e : Env) (t : Table) (rs : list (list string)) :
  TableOptions.Padding (options t) < 0 ->
  columnWidths t <> [] ->
  existsb hasCells rs = true ->
  forall i output, isDone (writeRowsFrom e t i rs output) = false.
Proof.
  intros P W. induction rs as [|row rs IH]; intros H i output;
    [discriminate|].
  cbn [writeRowsFrom]. cbn [existsb] in H.
  destruct (hasCells row) eqn:C.
  - apply andThen_crash_l. unfold writeRow.
    assert (S : isSeparatorRow row = false).
    { unfold hasCells in C. apply andb_prop in C.
      now destruct (isSeparatorRow row). }
    rewrite S. apply andThen_crash_r. intros color. apply andThen_crash_l.
    now apply buildRow_negative.
  - apply andThen_crash_r. intros o. apply IH. exact H.
Qed.

(** X20. A negative padding makes [String()] panic as soon as there is
    a cell to format: on a table with columns whose header is shown,
    or that has a row or a footer, other than empty ones and
    separators, [String()] does not return. *)
Theorem negative_padding_panics (e : Env) (t : Table) :
  TableOptions.Padding (options t) < 0 ->
  determineColumnCount t <> 0 ->
  TableOptions.ShowHeader (options t) && hasCells (headers t)
  || existsb hasCells (rows t) || hasCells (footer t) = true ->
  isDone (String_ e t) = false.
Proof.
  intros P N H. unfold String_.
  destruct (calculateColumnWidths t) as [t1|c] eqn:C; [|reflexivity].
  destruct (calculateColumnWidths_nonempty t t1 C N)
    as (W & Hh & Hr & Hf & _ & Ho).
  rewrite <- Ho in P, H. rewrite <- Hh, <- Hr, <- Hf in H. clear C Hh Hr Hf Ho N.
  cbn [andThen]. apply andThen_crash_r. intros o1.
  apply orb_prop in H. destruct H as [H | H];
    [apply orb_prop in H; destruct H as [H | H]|].
  - apply andThen_crash_l. apply andb_prop in H. destruct H as [S H].
    unfold writeHeader. rewrite S. cbn [negb orb].
    assert (L : (lenSlice (headers t1) =? 0) = false).
    { unfold hasCells in H. apply andb_prop in H.
      now destruct (lenSlice (headers t1) =? 0). }
    rewrite L. apply andThen_crash_l. now apply buildRow_negative.
  - apply andThen_crash_r. intros o2. apply andThen_crash_l.
    unfold writeRows. now apply writeRowsFrom_negative.
  - apply andThen_crash_r. intros o2. apply andThen_crash_r. intros o3.
    apply andThen_crash_l. unfold writeFooter.
    assert (L : (lenSlice (footer t1) =? 0) = false).
    { unfold hasCells in H. apply andb_prop in H.
      now destruct (lenSlice (footer t1) =? 0). }
    rewrite L. apply andThen_crash_r. intros o4. apply andThen_crash_l.
    now apply buildRow_negative.
Qed.

Lemma negative_padding_panics_witness :
  TableOptions.Padding (options squeezed) = -1 /\
  String_ linuxTerminal squeezed = Crashed NegativeRepeatCount /\
  isDone (String_ linuxTerminal squeezed) = false.
Proof.
  split; [reflexivity|]. split; [reflexivity|].
  exact (negative_padding_panics linuxTerminal squeezed
           ltac:(cbn; lia) ltac:(discriminate) eq_refl).
Defined.

(* ------------------------------------------------------------------ *)
(** ** The table: the lines it builds *)

Lemma Table_colorize_shown (e : Env) (enabled : bool) (text color : string) :
  tableIsColorEnabled e = Done enabled ->
  Table_colorize e text color = Done (shownText enabled text color).
Proof.
  intros T. unfold Table_colorize, tableColorize, shownText. rewrite T.
  destruct (color =? "")%string; [reflexivity|]. cbn.
  now destruct enabled.
Qed.

Lemma colorizeCell_shown (e : Env) (enabled : bool) (cell color : string) :
  tableIsColorEnabled e = Done enabled ->
  colorizeCell e cell color = Done (shownCell enabled cell color).
Proof.
  intros T. unfold colorizeCell, shownCell.
  destruct (_ || _); [reflexivity|]. now apply Table_colorize_shown.
Qed.

Lemma pow30 : 2 ^ 30 = 1073741824.
Proof. reflexivity. Qed.

Lemma MaxInt_value : MaxInt = 9223372036854775807.
Proof. reflexivity. Qed.

Lemma MinInt_value : MinInt = -9223372036854775808.
Proof. reflexivity. Qed.

Lemma Repeat_small (s : string) (count : Z) :
  0 <= count < 2 ^ 32 -> len s < 2 ^ 30 ->
  Repeat s count = Done (repeatStr s (Z.to_nat count)).
Proof.
  intros C L. unfold Repeat.
  destruct (Z.ltb_spec count 0); [lia|].
  assert (0 <= len s) by (unfold len; lia).
  destruct (Z.ltb_spec MaxInt (len s * count)); [|reflexivity].
  rewrite MaxInt_value in *. rewrite pow30 in *.
  change (2 ^ 32) with 4294967296 in *. nia.
Qed.

Lemma getAlignment_nth (t : Table) (j : nat) :
  getAlignment t (Z.of_nat j)
  = Done (nth j (TableOptions.Alignment (options t)) AlignLeft).
Proof.
  unfold getAlignment, index.
  destruct (Z.ltb_spec (Z.of_nat j)
                       (lenSlice (TableOptions.Alignment (options t)))) as [L|L].
  - destruct (Z.ltb_spec (Z.of_nat j) 0); [lia|].
    destruct (Z.leb_spec (lenSlice (TableOptions.Alignment (options t)))
                         (Z.of_nat j)); [lia|].
    cbn [orb]. rewrite Nat2Z.id.
    destruct (nth_error (TableOptions.Alignment (options t)) j) as [a|] eqn:E.
    + cbn. f_equal. symmetry. now apply nth_error_nth.
    + apply nth_error_None in E. unfold lenSlice in L. lia.
  - f_equal. symmetry. apply nth_overflow. unfold lenSlice in L. lia.
Qed.

Lemma index_nth (ws : list Z) (j : nat) :
  (j < List.length ws)%nat -> index ws (Z.of_nat j) = Ok (nth j ws 0).
Proof.
  intros L. unfold index, lenSlice.
  destruct (Z.ltb_spec (Z.of_nat j) 0); [lia|].
  destruct (Z.leb_spec (Z.of_nat (List.length ws)) (Z.of_nat j)); [lia|].
  cbn [orb]. rewrite Nat2Z.id.
  destruct (nth_error ws j) as [w|] eqn:E.
  - f_equal. symmetry. now apply nth_error_nth.
  - apply nth_error_None in E. lia.
Qed.

Lemma formatCell_formatted (t : Table) (enabled : bool) (cells : list string)
      (color : string) (j : nat) :
  small (TableOptions.Padding (options t)) ->
  (j < List.length (columnWidths t))%nat ->
  formatCell t (shownCell enabled (nth j cells "") color) (Z.of_nat j)
  = Done (formatted t enabled cells color j).
Proof.
  intros [P0 P1] L. unfold formatCell, formatted.
  rewrite Repeat_small; [|rewrite pow30 in P1; change (2 ^ 32) with 4294967296; lia
                         |reflexivity].
  cbn [andThen]. rewrite index_nth by exact L. cbn [lift andThen].
  rewrite getAlignment_nth. reflexivity.
Qed.

Lemma cellPartsFrom_parts (e : Env) (t : Table) (enabled : bool)
      (cells : list string) (color vb : string) :
  tableIsColorEnabled e = Done enabled ->
  small (TableOptions.Padding (options t)) ->
  forall (k j : nat) (parts : list string),
    (j + k <= List.length (columnWidths t))%nat ->
    cellPartsFrom e t k (Z.of_nat j) parts cells color vb
    = Done (parts ++ cellParts t enabled cells color vb (seq j k))%list.
Proof.
  intros T P. induction k as [|k IH]; intros j parts L.
  - cbn. now rewrite app_nil_r.
  - cbn [cellPartsFrom seq]. rewrite getCellContent_nth by lia.
    rewrite Nat2Z.id. cbn [andThen].
    rewrite (colorizeCell_shown e enabled _ _ T). cbn [andThen].
    rewrite formatCell_formatted by (auto; lia). cbn [andThen].
    replace (Z.of_nat j + 1) with (Z.of_nat (S j)) by lia.
    rewrite IH by lia. unfold cellParts. cbn [flat_map].
    f_equal. destruct (shouldAddVerticalBorder t (Z.of_nat j));
      now rewrite <- !app_assoc.
Qed.

(** A row that is neither empty nor a separator is built without
    panic. *)
Lemma buildRow_rowLine (e : Env) (t : Table) (enabled : bool)
      (cells : list string) (color : string) :
  tableIsColorEnabled e = Done enabled ->
  small (TableOptions.Padding (options t)) ->
  hasCells cells = true ->
  buildRow e t cells color = Done (rowLine t enabled cells color).
Proof.
  intros T P H. unfold hasCells in H. apply andb_prop in H.
  destruct H as [H1 H2]. unfold buildRow, rowLine.
  destruct (lenSlice cells =? 0); [discriminate|].
  destruct (isSeparatorRow cells); [discriminate|].
  unfold getVerticalBorder, buildRowParts, appendCellParts.
  destruct (TableOptions.ShowBorders (options t)) eqn:B; cbn [negb].
  - rewrite (Table_colorize_shown e enabled _ _ T). cbn [andThen].
    rewrite (cellPartsFrom_parts e t enabled cells color _ T P _ 0%nat)
      by lia.
    cbn [andThen app]. reflexivity.
  - cbn [andThen].
    rewrite (cellPartsFrom_parts e t enabled cells color _ T P _ 0%nat)
      by lia.
    cbn [andThen app]. now rewrite app_nil_r.
Qed.

Lemma borderPartsFrom_bars (t : Table) (cross horizontal : string) :
  small (TableOptions.Padding (options t)) ->
  len horizontal < 2 ^ 30 ->
  forall (ws pre : list Z) (parts : list string),
    columnWidths t = (pre ++ ws)%list ->
    Forall small ws ->
    borderPartsFrom t (lenSlice pre) ws cross horizontal parts
    = Done (parts ++ bars t ws cross horizontal)%list.
Proof.
  intros [P0 P1] H. induction ws as [|w rest IH]; intros pre parts C F.
  - cbn. now rewrite app_nil_r.
  - cbn [borderPartsFrom bars]. inversion F as [|? ? [W0 W1] F']; subst.
    rewrite pow30 in *.
    assert (R2 : wrap (2 * TableOptions.Padding (options t))
                 = 2 * TableOptions.Padding (options t)).
    { apply wrap_in_range. rewrite MinInt_value, MaxInt_value. lia. }
    rewrite R2.
    assert (R : wrap (w + 2 * TableOptions.Padding (options t))
                = w + 2 * TableOptions.Padding (options t)).
    { apply wrap_in_range. rewrite MinInt_value, MaxInt_value. lia. }
    rewrite R.
    rewrite Repeat_small;
      [|change (2 ^ 32) with 4294967296; lia | rewrite pow30; exact H].
    cbn [andThen].
    assert (C' : columnWidths t = ((pre ++ [w]) ++ rest)%list).
    { now rewrite <- app_assoc. }
    assert (Last : (lenSlice pre <? lenSlice (columnWidths t) - 1)
                   = match rest with [] => false | _ :: _ => true end).
    { rewrite C, lenSlice_app. unfold lenSlice. cbn [List.length].
      destruct rest; cbn [List.length];
        [apply Z.ltb_ge | apply Z.ltb_lt]; lia. }
    rewrite Last.
    replace (lenSlice pre + 1) with (lenSlice (pre ++ [w])) by apply lenSlice_snoc.
    destruct rest as [|w2 rest].
    + rewrite (IH _ _ C' F'). cbn [bars app]. now rewrite app_nil_r.
    + rewrite (IH _ _ C' F'). now rewrite <- !app_assoc.
Qed.

(** A border that is shown is built without panic. *)
Lemma buildBorder_borderLine (e : Env) (t : Table) (enabled : bool)
      (left cross right horizontal : string) :
  tableIsColorEnabled e = Done enabled ->
  small (TableOptions.Padding (options t)) ->
  Forall small (columnWidths t) ->
  len horizontal < 2 ^ 30 ->
  buildBorder e t left cross right horizontal
  = Done (if negb (TableOptions.ShowBorders (options t)) || (left =? "")%string
          then "" else borderLine t enabled left cross right horizontal).
Proof.
  intros T P F H. unfold buildBorder, borderLine.
  destruct (_ || _); [reflexivity|].
  pose proof (borderPartsFrom_bars t cross horizontal P H (columnWidths t) []
                [left] eq_refl F) as B.
  change (lenSlice []) with 0 in B. rewrite B. cbn [andThen].
  rewrite <- app_assoc. now apply Table_colorize_shown.
Qed.

Lemma buildRow_lineOf (e : Env) (t : Table) (enabled : bool)
      (cells : list string) (color : string) :
  tableIsColorEnabled e = Done enabled ->
  small (TableOptions.Padding (options t)) ->
  Forall small (columnWidths t) ->
  len (Horizontal (style t)) < 2 ^ 30 ->
  buildRow e t cells color = Done (lineOf t enabled cells color).
Proof.
  intros T P F H. unfold lineOf.
  destruct (lenSlice cells =? 0) eqn:L; [unfold buildRow; now rewrite L|].
  destruct (isSeparatorRow cells) eqn:S.
  - unfold buildRow. rewrite L, S. now apply buildBorder_borderLine.
  - apply buildRow_rowLine; auto. unfold hasCells. now rewrite L, S.
Qed.

Lemma getRowColor_returns (t : Table) (i : Z) :
  0 <= i -> exists color, getRowColor t i = Done color.
Proof.
  intros I. unfold getRowColor, modulo.
  destruct (Z.eqb_spec (lenSlice (TableOptions.RowColors (options t))) 0);
    [now exists ""|].
  cbn [lift andThen].
  assert (N : 0 < lenSlice (TableOptions.RowColors (options t))).
  { unfold lenSlice in *. lia. }
  pose proof (Z.rem_bound_pos i _ I N) as B.
  destruct (index_in_range (TableOptions.RowColors (options t)) B)
    as (x & E & _).
  exists x. now rewrite E.
Qed.

Lemma writeRowsFrom_returns (e : Env) (t : Table) (enabled : bool) :
  tableIsColorEnabled e = Done enabled ->
  small (TableOptions.Padding (options t)) ->
  Forall small (columnWidths t) ->
  len (Horizontal (style t)) < 2 ^ 30 ->
  forall (rs : list (list string)) (i : Z) (output : string),
    0 <= i -> exists s, writeRowsFrom e t i rs output = Done s.
Proof.
  intros T P F H. induction rs as [|row rs IH]; intros i output I.
  - now exists output.
  - cbn [writeRowsFrom]. unfold writeRow.
    destruct (isSeparatorRow row).
    + rewrite (buildRow_lineOf e t enabled row "" T P F H). cbn [andThen].
      apply IH. lia.
    + destruct (getRowColor_returns t i I) as (color & C). rewrite C.
      cbn [andThen].
      rewrite (buildRow_lineOf e t enabled row color T P F H). cbn [andThen].
      apply IH. lia.
Qed.

(** X21. With sound options [String()] returns: when [Stat] on the
    standard output works, the padding is not negative, and the
    padding, the column widths that [calculateColumnWidths] decides on
    and the lengths of the two horizontal border strings are below
    2^30, no step of [String()] panics, whatever the cells, colours,
    alignments and numbers of cells per row are. *)
Theorem String_returns (e : Env) (t t1 : Table) :
  calculateColumnWidths t = Done t1 ->
  stdoutStat e <> None ->
  small (TableOptions.Padding (options t)) ->
  Forall small (columnWidths t1) ->
  len (Horizontal (style t)) < 2 ^ 30 ->
  len (HeaderSeparator (style t)) < 2 ^ 30 ->
  exists s, String_ e t = Done (t1, s).
Proof.
  intros C S P F H HS.
  assert (T : exists enabled, tableIsColorEnabled e = Done enabled).
  { unfold tableIsColorEnabled. destruct (stdoutStat e); [|contradiction].
    destruct (_ =? 0); [now eexists|].
    destruct (negb _); [now eexists|]. destruct (negb _); now eexists. }
  destruct T as (enabled & T).
  assert (O : options t1 = options t /\ style t1 = style t).
  { destruct (calculateColumnWidths_cases t) as (ws & E & _).
    rewrite E in C. injection C as <-. now destruct t. }
  destruct O as [O St]. rewrite <- O in P. rewrite <- St in H, HS.
  unfold String_. rewrite C. cbn [andThen].
  assert (B : forall left cross right horizontal output,
             len horizontal < 2 ^ 30 ->
             exists s,
               (let* line := buildBorder e t1 left cross right horizontal in
                Done (output ++ line ++ LF)) = Done s).
  { intros. rewrite (buildBorder_borderLine e t1 enabled) by auto.
    cbn [andThen]. now eexists. }
  assert (R : forall cells color,
             buildRow e t1 cells color = Done (lineOf t1 enabled cells color)).
  { intros. now apply buildRow_lineOf. }
  assert (W1 : exists o1, writeTopBorder e t1 "" = Done o1).
  { unfold writeTopBorder. destruct (_ || _); [now eexists|]. now apply B. }
  destruct W1 as (o1 & ->). cbn [andThen].
  assert (W2 : exists o2, writeHeader e t1 o1 = Done o2).
  { unfold writeHeader. destruct (_ || _); [now eexists|].
    rewrite R. cbn [andThen]. unfold writeHeaderSeparator.
    destruct (_ || _); [now eexists|]. now apply B. }
  destruct W2 as (o2 & ->). cbn [andThen].
  destruct (writeRowsFrom_returns e t1 enabled T P F H (rows t1) 0 o2
              ltac:(lia)) as (o3 & W3).
  unfold writeRows. rewrite W3. cbn [andThen].
  assert (W4 : exists o4, writeFooter e t1 o3 = Done o4).
  { unfold writeFooter. destruct (_ =? 0); [now eexists|].
    unfold writeFooterSeparator. destruct (_ || _).
    - cbn [andThen]. rewrite R. cbn [andThen]. now eexists.
    - destruct (B (LeftCross (style t1)) (Cross (style t1))
                  (RightCross (style t1)) (HeaderSeparator (style t1)) o3 HS)
        as (s & E).
      destruct (buildBorder e t1 _ _ _ _) as [line|c]; [|discriminate].
      cbn [andThen]. rewrite R. cbn [andThen]. now eexists. }
  destruct W4 as (o4 & ->). cbn [andThen].
  assert (W5 : exists o5, writeBottomBorder e t1 o4 = Done o5).
  { unfold writeBottomBorder. destruct (_ || _); [now eexists|]. now apply B. }
  destruct W5 as (o5 & ->). cbn [andThen]. now exists o5.
Qed.

Lemma String_returns_witness :
  calculateColumnWidths people = Done (withWidths [5; 3] people) /\
  stdoutStat linuxTerminal <> None /\
  small (TableOptions.Padding (options people)) /\
  Forall small [5; 3] /\
  exists s, String_ linuxTerminal people = Done (withWidths [5; 3] people, s).
Proof.
  assert (P : small (TableOptions.Padding (options people))).
  { split; [discriminate | reflexivity]. }
  assert (F : Forall small (columnWidths (withWidths [5; 3] people))).
  { repeat constructor; discriminate. }
  split; [reflexivity|]. split; [discriminate|]. split; [exact P|].
  split; [exact F|].
  exact (String_returns linuxTerminal people (withWidths [5; 3] people)
           eq_refl ltac:(discriminate) P F eq_refl eq_refl).
Defined.

(* ------------------------------------------------------------------ *)
(** ** The table: the width of its lines *)

Lemma visualWidth_closed_app (a b : string) :
  closed a -> visualWidth (a ++ b) = visualWidth a + visualWidth b.
Proof.
  intros C. rewrite visualWidth_app, C. now rewrite <- visualWidth_kept.
Qed.

Lemma closed_app (a b : string) : closed a -> closed b -> closed (a ++ b).
Proof. unfold closed. intros A B. now rewrite openAfter_app, A. Qed.

Lemma Join_cons (x : string) (xs : list string) : Join (x :: xs) = x ++ Join xs.
Proof.
  unfold Join. destruct xs as [|y ys]; cbn [String.concat].
  - now rewrite append_nil_r.
  - reflexivity.
Qed.

Lemma Join_width (parts : list string) :
  Forall closed parts ->
  visualWidth (Join parts) = total parts /\ closed (Join parts).
Proof.
  induction 1 as [|x xs C _ [IH1 IH2]].
  - split; reflexivity.
  - rewrite Join_cons. split.
    + rewrite visualWidth_closed_app by exact C. cbn. now rewrite IH1.
    + now apply closed_app.
Qed.

Lemma total_app (a b : list string) : total (a ++ b) = total a + total b.
Proof.
  unfold total. induction a as [|x a IH]; cbn; [reflexivity|].
  rewrite IH. lia.
Qed.

Lemma shownText_width (enabled : bool) (text color : string) :
  color = "" \/ isSequence color = true ->
  visualWidth (shownText enabled text color) = visualWidth text /\
  (closed text -> closed (shownText enabled text color)).
Proof.
  intros H. unfold shownText.
  destruct (String.eqb_spec color "") as [E|E]; [now split|].
  destruct H as [H|H]; [contradiction|].
  destruct enabled; [|now split]. split.
  - now rewrite !visualWidth_kept, (kept_wrapped _ _ H).
  - intros _. unfold closed. rewrite !openAfter_app.
    now destruct (isSequence_kept (ESC ++ "[0m")
                    (openAfter (openAfter false color) text) eq_refl).
Qed.

Lemma shownCell_width (enabled : bool) (cell color : string) :
  color = "" \/ isSequence color = true ->
  visualWidth (shownCell enabled cell color) = visualWidth cell /\
  (closed cell -> closed (shownCell enabled cell color)).
Proof.
  intros H. unfold shownCell. destruct (_ || _); [now split|].
  now apply shownText_width.
Qed.

Lemma closed_spaces (n : nat) : closed (repeatStr " " n).
Proof. exact (proj2 (kept_spaces n false)). Qed.

Lemma visualWidth_spaces (n : nat) : visualWidth (repeatStr " " n) = Z.of_nat n.
Proof.
  rewrite visualWidth_kept, (proj1 (kept_spaces n false)).
  apply len_repeatStr_space.
Qed.

Lemma alignText_width (text : string) (width : Z) (a : Alignment) :
  closed text -> visualWidth text <= width ->
  visualWidth (alignText text width a) = width /\
  closed (alignText text width a).
Proof.
  intros C L. unfold alignText.
  destruct (Z.geb_spec (visualWidth text) width) as [G|G];
    [split; [lia | exact C]|].
  destruct (a =? AlignRight); [|destruct (a =? AlignCenter)].
  - split; [|apply closed_app; [apply closed_spaces | exact C]].
    rewrite visualWidth_spaces_left. lia.
  - assert (Q : 0 <= Z.quot (width - visualWidth text) 2
                <= width - visualWidth text).
    { split; [apply Z.quot_pos; lia|].
      apply Z.quot_le_upper_bound; lia. }
    split.
    + rewrite visualWidth_spaces_left,
        (visualWidth_closed_app text _ C), visualWidth_spaces. lia.
    + apply closed_app; [apply closed_spaces|].
      apply closed_app; [exact C | apply closed_spaces].
  - split; [|apply closed_app; [exact C | apply closed_spaces]].
    rewrite (visualWidth_closed_app text _ C), visualWidth_spaces. lia.
Qed.

Lemma formatted_width (t : Table) (enabled : bool) (cells : list string)
      (color : string) (j : nat) :
  0 <= TableOptions.Padding (options t) ->
  color = "" \/ isSequence color = true ->
  closed (nth j cells "") ->
  visualWidth (nth j cells "") <= nth j (columnWidths t) 0 ->
  visualWidth (formatted t enabled cells color j)
  = 2 * TableOptions.Padding (options t) + nth j (columnWidths t) 0 /\
  closed (formatted t enabled cells color j).
Proof.
  intros P H C L. unfold formatted.
  destruct (shownCell_width enabled (nth j cells "") color H) as [W K].
  destruct (alignText_width (shownCell enabled (nth j cells "") color)
              (nth j (columnWidths t) 0)
              (nth j (TableOptions.Alignment (options t)) AlignLeft)
              (K C) ltac:(lia)) as [AW AC].
  split.
  - rewrite visualWidth_spaces_left, (visualWidth_closed_app _ _ AC),
      AW, visualWidth_spaces. lia.
  - apply closed_app; [apply closed_spaces|].
    apply closed_app; [exact AC | apply closed_spaces].
Qed.

Lemma plain_repeat (c : ascii) (n : nat) :
  (byteVal c =? 0x1b) = false ->
  visualWidth (repeatStr (String c "") n) = Z.of_nat n /\
  closed (repeatStr (String c "") n).
Proof.
  intros E. rewrite visualWidth_kept. unfold closed.
  induction n as [|n [IH1 IH2]]; [split; reflexivity|].
  cbn [repeatStr append kept openAfter]. rewrite E. split; [|exact IH2].
  unfold len in *. cbn [String.length]. lia.
Qed.

Lemma cellParts_total (t : Table) (enabled : bool) (cells : list string)
      (color vb : string) :
  0 <= TableOptions.Padding (options t) ->
  TableOptions.ShowBorders (options t) = true ->
  color = "" \/ isSequence color = true ->
  closed vb -> visualWidth vb = 1 ->
  (forall j, (j < List.length (columnWidths t))%nat ->
             closed (nth j cells "") /\
             visualWidth (nth j cells "") <= nth j (columnWidths t) 0) ->
  forall (k j : nat),
    (j + k <= List.length (columnWidths t))%nat ->
    Forall closed (cellParts t enabled cells color vb (seq j k)) /\
    total (cellParts t enabled cells color vb (seq j k))
    = fold_right (fun w acc => w + 2 * TableOptions.Padding (options t) + acc)
                 0 (firstn k (skipn j (columnWidths t)))
      + Z.max 0 (Z.min (Z.of_nat (j + k)) (lenSlice (columnWidths t) - 1)
                 - Z.of_nat j).
Proof.
  intros P B H VC VW F. induction k as [|k IH]; intros j L.
  - cbn. split; [constructor | lia].
  - cbn [seq]. unfold cellParts. cbn [flat_map].
    fold (cellParts t enabled cells color vb (seq (S j) k)).
    destruct (IH (S j) ltac:(lia)) as [IC IT].
    destruct (F j ltac:(lia)) as [C W].
    destruct (formatted_width t enabled cells color j P H C W) as [FW FC].
    assert (SK : skipn j (columnWidths t)
                 = nth j (columnWidths t) 0 :: skipn (S j) (columnWidths t)).
    { clear - L. revert j L. induction (columnWidths t) as [|w ws IHw];
        intros j L; [cbn in L; lia|].
      destruct j as [|j]; [reflexivity|]. cbn [skipn nth].
      apply IHw. cbn in L. lia. }
    rewrite SK. cbn [firstn fold_right].
    unfold shouldAddVerticalBorder. rewrite B. cbn [andb].
    destruct (Z.ltb_spec (Z.of_nat j) (lenSlice (columnWidths t) - 1)).
    + split; [constructor; [exact FC|]; constructor; [exact VC | exact IC]|].
      cbn [app total fold_right]. fold (total (cellParts t enabled cells color vb (seq (S j) k))).
      rewrite FW, VW, IT. lia.
    + split; [constructor; [exact FC | exact IC]|].
      cbn [app total fold_right]. fold (total (cellParts t enabled cells color vb (seq (S j) k))).
      rewrite FW, IT. lia.
Qed.

Lemma bars_total (t : Table) (ws : list Z) :
  0 <= TableOptions.Padding (options t) ->
  Forall small ws ->
  Forall closed (bars t ws "+" "-") /\
  total (bars t ws "+" "-")
  = fold_right (fun w acc => w + 2 * TableOptions.Padding (options t) + acc)
               0 ws
    + Z.max 0 (lenSlice ws - 1).
Proof.
  intros P. induction 1 as [|w rest [W0 W1] F [IC IT]].
  - split; [constructor | reflexivity].
  - cbn [bars].
    destruct (plain_repeat "-"%char
                (Z.to_nat (w + 2 * TableOptions.Padding (options t))) eq_refl)
      as [RW RC].
    change (String "-" "") with "-" in *.
    split.
    + constructor; [exact RC|]. apply Forall_app. split; [|exact IC].
      destruct rest; repeat constructor.
    + cbn [total fold_right]. rewrite RW.
      fold (total ((match rest with [] => [] | _ :: _ => ["+"] end
                    ++ bars t rest "+" "-")%list)).
      rewrite total_app, IT.
      destruct rest as [|w2 rest]; unfold lenSlice; cbn [List.length total fold_right];
        [lia|].
      change (visualWidth "+") with 1. lia.
Qed.

(** X22. A table in the simple style is rectangular: with borders
    shown, a padding that is not negative and colours that are escape
    sequences, the border lines and every row whose cells fit their
    columns and do not end inside an escape sequence have the same
    visual width, which is 2 for the edges plus, for each column,
    its width and twice the padding, plus 1 between two columns. *)
Theorem simple_table_is_rectangular
        (e : Env) (t : Table) (enabled : bool) :
  style t = TableStyleSimple ->
  TableOptions.ShowBorders (options t) = true ->
  tableIsColorEnabled e = Done enabled ->
  small (TableOptions.Padding (options t)) ->
  Forall small (columnWidths t) ->
  TableOptions.BorderColor (options t) = ""
  \/ isSequence (TableOptions.BorderColor (options t)) = true ->
  (exists line,
     buildBorder e t "+" "+" "+" "-" = Done line /\
     visualWidth line = lineWidth t) /\
  (forall cells color,
     hasCells cells = true ->
     color = "" \/ isSequence color = true ->
     (forall j, (j < List.length (columnWidths t))%nat ->
                closed (nth j cells "") /\
                visualWidth (nth j cells "") <= nth j (columnWidths t) 0) ->
     exists line,
       buildRow e t cells color = Done line /\
       visualWidth line = lineWidth t).
Proof.
  intros St B T P F BC. pose proof P as [P0 _]. split.
  - rewrite (buildBorder_borderLine e t enabled) by (auto; reflexivity).
    rewrite B. cbn [negb orb String.eqb Ascii.eqb]. eexists. split; [reflexivity|].
    unfold borderLine.
    destruct (shownText_width enabled
                (Join (["+"] ++ bars t (columnWidths t) "+" "-" ++ ["+"])%list)
                _ BC) as [W _].
    rewrite W. destruct (bars_total t (columnWidths t) P0 F) as [C Tt].
    assert (FC : Forall closed
                   (["+"] ++ bars t (columnWidths t) "+" "-" ++ ["+"])%list).
    { apply Forall_app. split; [repeat constructor|].
      apply Forall_app. split; [exact C | repeat constructor]. }
    rewrite (proj1 (Join_width _ FC)), !total_app, Tt. unfold lineWidth.
    change (total ["+"]) with 1. lia.
  - intros cells color H HC Fit.
    rewrite (buildRow_rowLine e t enabled cells color T P H).
    eexists. split; [reflexivity|]. unfold rowLine. rewrite B, St.
    cbn [Vertical TableStyleSimple].
    destruct (shownText_width enabled "|" _ BC) as [VW VC].
    specialize (VC eq_refl). change (visualWidth "|") with 1 in VW.
    destruct (cellParts_total t enabled cells color
                (shownText enabled "|" (TableOptions.BorderColor (options t)))
                P0 B HC VC VW Fit (List.length (columnWidths t)) 0%nat
                ltac:(lia)) as [C Tt].
    assert (FC : Forall closed
                   ([shownText enabled "|" (TableOptions.BorderColor (options t))]
                    ++ cellParts t enabled cells color
                         (shownText enabled "|"
                            (TableOptions.BorderColor (options t)))
                         (seq 0 (List.length (columnWidths t)))
                    ++ [shownText enabled "|"
                          (TableOptions.BorderColor (options t))])%list).
    { apply Forall_app. split; [repeat constructor; exact VC|].
      apply Forall_app. split; [exact C | repeat constructor; exact VC]. }
    rewrite (proj1 (Join_width _ FC)), !total_app, Tt.
    cbn [skipn total fold_right]. rewrite firstn_all, VW. unfold lineWidth, lenSlice.
    lia.
Qed.

Lemma simple_table_is_rectangular_witness :
  style (withWidths [5; 3] people) = TableStyleSimple /\
  tableIsColorEnabled linuxTerminal = Done true /\
  buildBorder linuxTerminal (withWidths [5; 3] people) "+" "+" "+" "-"
  = Done "+-------+-----+" /\
  lineWidth (withWidths [5; 3] people) = 15 /\
  exists line,
    buildRow linuxTerminal (withWidths [5; 3] people) ["Alice"; "28"] GreenCode
    = Done line /\
    visualWidth line = lineWidth (withWidths [5; 3] people).
Proof.
  split; [reflexivity|]. split; [reflexivity|]. split; [reflexivity|].
  split; [reflexivity|].
  assert (P : small (TableOptions.Padding (options (withWidths [5; 3] people)))).
  { split; [discriminate | reflexivity]. }
  assert (F : Forall small (columnWidths (withWidths [5; 3] people))).
  { repeat constructor; discriminate. }
  apply (proj2 (simple_table_is_rectangular linuxTerminal
                  (withWidths [5; 3] people) true eq_refl eq_refl eq_refl P F
                  (or_introl eq_refl))
               ["Alice"; "28"] GreenCode eq_refl (or_intror eq_refl)).
  intros [|[|j]] L; [split; [reflexivity | discriminate]
                    | split; [reflexivity | discriminate]
                    | cbn in L; lia].
Defined.

(* ------------------------------------------------------------------ *)
(** ** The table: printing twice, and the option that is not read *)

Lemma calculateColumnWidths_again (t t1 : Table) :
  calculateColumnWidths t = Done t1 -> calculateColumnWidths t1 = Done t1.
Proof.
  intros C.
  destruct (Z.eq_dec (determineColumnCount t) 0) as [N|N].
  - destruct (columnWidths t) as [|w ws] eqn:W.
    + destruct (calculateColumnWidths_cases t) as (ws & E & _ & Empty & _).
      rewrite E, (Empty W N), <- W, withWidths_same in C.
      injection C as <-. now rewrite E, (Empty W N), <- W, withWidths_same.
    + rewrite calculateColumnWidths_cached in C by congruence.
      injection C as <-. apply calculateColumnWidths_cached. congruence.
  - apply calculateColumnWidths_cached.
    now destruct (calculateColumnWidths_nonempty t t1 C N).
Qed.

(** X23. Printing is repeatable: a second [String()] right after one
    that returned gives the same text and leaves the table as the
    first one left it. *)
Theorem String_twice_gives_the_same_text
        (e : Env) (t t1 : Table) (s : string) :
  String_ e t = Done (t1, s) -> String_ e t1 = Done (t1, s).
Proof.
  intros H. pose proof (String_calculates e t t1 s H) as C.
  pose proof (calculateColumnWidths_again t t1 C) as C1.
  unfold String_ in *. rewrite C in H. rewrite C1. exact H.
Qed.

Lemma String_twice_gives_the_same_text_witness :
  String_ linuxTerminal people
  = Done (withWidths [5; 3] people, textOf (String_ linuxTerminal people)) /\
  String_ linuxTerminal (withWidths [5; 3] people)
  = Done (withWidths [5; 3] people, textOf (String_ linuxTerminal people)).
Proof.
  split; [reflexivity|].
  exact (String_twice_gives_the_same_text linuxTerminal people
           (withWidths [5; 3] people) (textOf (String_ linuxTerminal people))
           eq_refl).
Defined.

Lemma rowWidthsFrom_AutoSize (b : bool) (rs : list (list string)) (numCols : Z) :
  forall t,
    rowWidthsFrom rs numCols (setAutoSize b t)
    = match rowWidthsFrom rs numCols t with
      | Done t1 => Done (setAutoSize b t1)
      | Crashed c => Crashed c
      end.
Proof.
  induction rs as [|row rs IH]; intros t; [reflexivity|].
  cbn [rowWidthsFrom]. destruct (isSeparatorRow row); [apply IH|].
  unfold updateWidthsFromCells. cbn [columnWidths setAutoSize].
  destruct (cellWidthsFrom 0 row numCols (columnWidths t)) as [ws|c];
    [|reflexivity].
  cbn [andThen]. apply (IH (withWidths ws t)).
Qed.

Lemma calculateColumnWidths_AutoSize (b : bool) (t : Table) :
  calculateColumnWidths (setAutoSize b t)
  = match calculateColumnWidths t with
    | Done t1 => Done (setAutoSize b t1)
    | Crashed c => Crashed c
    end.
Proof.
  unfold calculateColumnWidths.
  change (columnWidths (setAutoSize b t)) with (columnWidths t).
  destruct (lenSlice (columnWidths t) >? 0); [reflexivity|].
  change (determineColumnCount (setAutoSize b t)) with (determineColumnCount t).
  destruct (determineColumnCount t =? 0); [reflexivity|].
  unfold useFixedWidths.
  change (TableOptions.ColumnWidths (options (setAutoSize b t)))
    with (TableOptions.ColumnWidths (options t)).
  destruct (lenSlice (TableOptions.ColumnWidths (options t)) =? 0);
    [|reflexivity].
  unfold updateWidthsFromHeaders, initializeWidths.
  cbn [columnWidths withWidths headers setAutoSize].
  destruct (headerWidthsFrom 0 (headers t) _) as [ws|c]; [|reflexivity].
  cbn [andThen]. unfold updateWidthsFromRows.
  cbn [rows withWidths].
  change (rows (setAutoSize b t)) with (rows t).
  change (withWidths ws
            (withWidths (repeat 0 (Z.to_nat (determineColumnCount t)))
               (setAutoSize b t)))
    with (setAutoSize b
            (withWidths ws
               (withWidths (repeat 0 (Z.to_nat (determineColumnCount t))) t))).
  rewrite rowWidthsFrom_AutoSize.
  destruct (rowWidthsFrom (rows t) (determineColumnCount t) _) as [t4|c];
    [|reflexivity].
  cbn [andThen]. unfold updateWidthsFromFooter, updateWidthsFromCells.
  cbn [footer columnWidths setAutoSize].
  destruct (cellWidthsFrom 0 (footer t4) (determineColumnCount t)
                           (columnWidths t4)) as [ws5|c]; reflexivity.
Qed.

Lemma borderPartsFrom_AutoSize (b : bool) (t : Table)
      (cross horizontal : string) (ws : list Z) :
  forall i parts,
    borderPartsFrom (setAutoSize b t) i ws cross horizontal parts
    = borderPartsFrom t i ws cross horizontal parts.
Proof.
  induction ws as [|w ws IH]; intros i parts; [reflexivity|].
  cbn [borderPartsFrom]. cbn [options setAutoSize WithAutoSize
                               TableOptions.Padding columnWidths].
  destruct (Repeat horizontal _) as [bar|c]; [|reflexivity].
  cbn [andThen]. apply IH.
Qed.

Lemma buildBorder_AutoSize (b : bool) (e : Env) (t : Table)
      (left cross right horizontal : string) :
  buildBorder e (setAutoSize b t) left cross right horizontal
  = buildBorder e t left cross right horizontal.
Proof.
  unfold buildBorder.
  cbn [options setAutoSize WithAutoSize TableOptions.ShowBorders
       TableOptions.BorderColor columnWidths].
  now rewrite borderPartsFrom_AutoSize.
Qed.

Lemma cellPartsFrom_AutoSize (b : bool) (e : Env) (t : Table)
      (cells : list string) (color vb : string) (k : nat) :
  forall i parts,
    cellPartsFrom e (setAutoSize b t) k i parts cells color vb
    = cellPartsFrom e t k i parts cells color vb.
Proof.
  induction k as [|k IH]; intros i parts; [reflexivity|].
  cbn [cellPartsFrom].
  destruct (getCellContent cells i) as [cell|c]; [|reflexivity].
  cbn [andThen].
  destruct (colorizeCell e cell color) as [d|c]; [|reflexivity].
  cbn [andThen].
  change (formatCell (setAutoSize b t) d i) with (formatCell t d i).
  destruct (formatCell t d i) as [f|c]; [|reflexivity].
  cbn [andThen].
  change (shouldAddVerticalBorder (setAutoSize b t) i)
    with (shouldAddVerticalBorder t i).
  apply IH.
Qed.

Lemma buildRow_AutoSize (b : bool) (e : Env) (t : Table)
      (cells : list string) (color : string) :
  buildRow e (setAutoSize b t) cells color = buildRow e t cells color.
Proof.
  unfold buildRow. destruct (lenSlice cells =? 0); [reflexivity|].
  destruct (isSeparatorRow cells); [apply buildBorder_AutoSize|].
  change (getVerticalBorder e (setAutoSize b t)) with (getVerticalBorder e t).
  destruct (getVerticalBorder e t) as [vb|c]; [|reflexivity].
  cbn [andThen]. unfold buildRowParts, appendCellParts.
  cbn [options setAutoSize WithAutoSize TableOptions.ShowBorders columnWidths].
  now rewrite cellPartsFrom_AutoSize.
Qed.

Lemma writeRowsFrom_AutoSize (b : bool) (e : Env) (t : Table)
      (rs : list (list string)) :
  forall i output,
    writeRowsFrom e (setAutoSize b t) i rs output
    = writeRowsFrom e t i rs output.
Proof.
  induction rs as [|row rs IH]; intros i output; [reflexivity|].
  cbn [writeRowsFrom]. unfold writeRow.
  change (getRowColor (setAutoSize b t) i) with (getRowColor t i).
  destruct (isSeparatorRow row).
  - rewrite buildRow_AutoSize.
    destruct (buildRow e t row "") as [line|c]; [|reflexivity].
    cbn [andThen]. apply IH.
  - destruct (getRowColor t i) as [color|c]; [|reflexivity].
    cbn [andThen]. rewrite buildRow_AutoSize.
    destruct (buildRow e t row color) as [line|c]; [|reflexivity].
    cbn [andThen]. apply IH.
Qed.

(** X24. The option [AutoSize] is not read: a table prints the same
    text, panics in the same way and ends with the same widths
    whether [WithAutoSize] was given with true, with false or not at
    all; with false the widths are measured from the cells all the
    same. *)
Theorem WithAutoSize_has_no_effect
        (e : Env) (t : Table) (enabled : bool) (opts : list TableOption) :
  String_ e (setAutoSize enabled t) = withAutoSize enabled (String_ e t) /\
  NewTable (opts ++ [WithAutoSize enabled])
  = setAutoSize enabled (NewTable opts).
Proof.
  split.
  - unfold String_. rewrite calculateColumnWidths_AutoSize.
    destruct (calculateColumnWidths t) as [t1|c]; [|reflexivity].
    cbn [andThen].
    assert (B : forall l c r h,
               buildBorder e (setAutoSize enabled t1) l c r h
               = buildBorder e t1 l c r h)
      by (intros; apply buildBorder_AutoSize).
    assert (R : forall cells color,
               buildRow e (setAutoSize enabled t1) cells color
               = buildRow e t1 cells color)
      by (intros; apply buildRow_AutoSize).
    assert (W1 : forall o, writeTopBorder e (setAutoSize enabled t1) o
                           = writeTopBorder e t1 o).
    { intros o. unfold writeTopBorder. now rewrite B. }
    assert (W2 : forall o, writeHeader e (setAutoSize enabled t1) o
                           = writeHeader e t1 o).
    { intros o. unfold writeHeader, writeHeaderSeparator. rewrite R.
      cbn [options setAutoSize WithAutoSize TableOptions.ShowHeader
           TableOptions.ShowBorders TableOptions.HeaderColor headers style].
      destruct (_ || _); [reflexivity|].
      destruct (buildRow e t1 _ _); [|reflexivity]. cbn [andThen].
      now rewrite B. }
    assert (W3 : forall o, writeRows e (setAutoSize enabled t1) o
                           = writeRows e t1 o).
    { intros o. unfold writeRows. apply writeRowsFrom_AutoSize. }
    assert (W4 : forall o, writeFooter e (setAutoSize enabled t1) o
                           = writeFooter e t1 o).
    { intros o. unfold writeFooter, writeFooterSeparator. rewrite R, B.
      reflexivity. }
    assert (W5 : forall o, writeBottomBorder e (setAutoSize enabled t1) o
                           = writeBottomBorder e t1 o).
    { intros o. unfold writeBottomBorder. now rewrite B. }
    rewrite W1. destruct (writeTopBorder e t1 "") as [o1|c]; [|reflexivity].
    cbn [andThen]. rewrite W2.
    destruct (writeHeader e t1 o1) as [o2|c]; [|reflexivity].
    cbn [andThen]. rewrite W3.
    destruct (writeRows e t1 o2) as [o3|c]; [|reflexivity].
    cbn [andThen]. rewrite W4.
    destruct (writeFooter e t1 o3) as [o4|c]; [|reflexivity].
    cbn [andThen]. rewrite W5.
    destruct (writeBottomBorder e t1 o4) as [o5|c]; reflexivity.
  - unfold NewTable. rewrite fold_left_app. reflexivity.
Qed.

(* ------------------------------------------------------------------ *)
(** ** The table: row colours *)

(** X25. Row colours cycle: without [RowColors] every row gets the
    empty colour; otherwise the row at position [i] (separators are
    counted too) gets colour number [i mod len(RowColors)], so the
    rows at positions [i] and [i + len(RowColors)] get the same one;
    the lookup does not panic. *)
Theorem getRowColor_cycles (t : Table) (i : Z) :
  0 <= i ->
  (TableOptions.RowColors (options t) = [] -> getRowColor t i = Done "") /\
  (TableOptions.RowColors (options t) <> [] ->
   getRowColor t i
   = Done (nth (Z.to_nat (i mod lenSlice (TableOptions.RowColors (options t))))
               (TableOptions.RowColors (options t)) "") /\
   getRowColor t (i + lenSlice (TableOptions.RowColors (options t)))
   = getRowColor t i).
Proof.
  intros I. split.
  - intros E. unfold getRowColor. now rewrite E.
  - intros N.
    assert (L : 0 < lenSlice (TableOptions.RowColors (options t))).
    { unfold lenSlice. destruct (TableOptions.RowColors (options t));
        [contradiction | cbn [List.length]; lia]. }
    assert (G : forall k, 0 <= k ->
              getRowColor t k
              = Done (nth (Z.to_nat
                             (k mod lenSlice (TableOptions.RowColors (options t))))
                          (TableOptions.RowColors (options t)) "")).
    { intros k K. unfold getRowColor, modulo.
      destruct (Z.eqb_spec (lenSlice (TableOptions.RowColors (options t))) 0);
        [lia|].
      cbn [lift andThen]. rewrite Z.rem_mod_nonneg by lia.
      pose proof (Z.mod_pos_bound k _ L) as B.
      destruct (index_in_range (TableOptions.RowColors (options t)) B)
        as (x & E & NE).
      rewrite E. cbn [lift]. f_equal. symmetry. now apply nth_error_nth. }
    split; [now apply G|].
    rewrite !G by lia. do 3 f_equal.
    rewrite <- (Z.mul_1_l (lenSlice (TableOptions.RowColors (options t)))) at 1.
    apply Z.mod_add. lia.
Qed.

Lemma getRowColor_cycles_witness :
  map (getRowColor striped) [0; 1; 2; 3; 4]
  = [Done RedCode; Done GreenCode; Done BlueCode; Done RedCode; Done GreenCode]
  /\ getRowColor striped (1 + 3) = getRowColor striped 1.
Proof.
  split; [reflexivity|].
  exact (proj2 (proj2 (getRowColor_cycles striped 1 ltac:(lia))
                      ltac:(discriminate))).
Defined.
